(** * EVS camera fan-out core: a shallow embedding and its verified properties

    The development follows the C++ sources of the EVS stack:

    - [StreamHandler]  evs/apps/default/StreamHandler.cpp   (the ready/held slot pair)
    - [HalCamera]      evs/manager/1.1/HalCamera.cpp        (the broker)
    - [EvsV4lCamera]   evs/sampleDriver/EvsV4lCamera.cpp    (the device adapter)

    and, of the surround view service that consumes the cameras:

    - [SurroundViewService]    surround_view/service-impl/SurroundViewService.cpp
    - [SurroundView3dSession]  surround_view/service-impl/SurroundView3dSession.cpp

    Machine integers are integers of [Z] with the wrap-around written out.
    Calls that leave a class (to the hardware camera, to a virtual camera, to
    the graphics allocator, to the log) are recorded as events, in call order. *)

From Stdlib Require Import ZArith Lia.
From stdpp Require Import base tactics option list numbers strings.

Local Open Scope Z_scope.

(** ** Fixed-width integers *)

Module Machine.

Definition wrap_u32 (z : Z) : Z := z mod 2 ^ 32.
Definition wrap_i32 (z : Z) : Z := (z + 2 ^ 31) mod 2 ^ 32 - 2 ^ 31.
Definition wrap_i64 (z : Z) : Z := (z + 2 ^ 63) mod 2 ^ 64 - 2 ^ 63.

Definition UINT32_MAX : Z := 2 ^ 32 - 1.
Definition INT32_MAX : Z := 2 ^ 31 - 1.
Definition INT32_MIN : Z := - 2 ^ 31.

End Machine.

(** ** The HIDL data the classes exchange *)

(** [BufferDesc] of IEvsCamera 1.1, cut down to the fields the code reads:
    the device-assigned id, the capture time in microseconds, and the native
    handle ([None] is the null handle). *)
Record BufferDesc_1_1 : Type := {
  bufferId : Z;
  timestamp : Z;
  nativeHandle : option Z
}.

Inductive EvsResult : Type :=
| OK
| INTERNAL_ERROR
| INVALID_ARG
| STREAM_ALREADY_RUNNING
| BUFFER_NOT_AVAILABLE
| OWNERSHIP_LOST
| UNDERLYING_SERVICE_ERROR.

Inductive EvsEventType : Type :=
| STREAM_STARTED
| STREAM_STOPPED
| FRAME_DROPPED
| TIMEOUT
| PARAMETER_CHANGED
| MASTER_RELEASED.

Record EvsEventDesc : Type := {
  aType : EvsEventType;
  payload : list Z
}.

#[global] Instance EvsResult_eq_dec : EqDecision EvsResult.
Proof. solve_decision. Defined.

#[global] Instance EvsEventType_eq_dec : EqDecision EvsEventType.
Proof. solve_decision. Defined.

(** ** StreamHandler: the consumer side with its two frame slots *)

Module StreamHandler.

(** [mBuffers] is a two-element array, [mHeldBuffer] and [mReadyBuffer] are
    [int] indices into it (-1: none).  No operation below can overflow an
    [int]: the only arithmetic is [1 - mHeldBuffer] on a non-negative value. *)
Record State : Type := {
  mRunning : bool;
  mBuffers : list BufferDesc_1_1;
  mHeldBuffer : Z;
  mReadyBuffer : Z
}.

Inductive Effect : Type :=
| LogError (msg : string)
| LogWarning (msg : string)
| Camera_doneWithFrame_1_1 (frame : option BufferDesc_1_1)
| Signal_notify_all.

(** [mBuffers[i]] as a read.  Outside the array the C++ read is undefined;
    the embedding answers [None] there. *)
Definition slot (s : State) (i : Z) : option BufferDesc_1_1 :=
  if 0 <=? i then mBuffers s !! Z.to_nat i else None.

(** [mBuffers[i] = b].  A store outside the array leaves the array as it is. *)
Definition store (bufs : list BufferDesc_1_1) (i : Z) (b : BufferDesc_1_1)
  : list BufferDesc_1_1 :=
  if 0 <=? i then <[Z.to_nat i := b]> bufs else bufs.

Definition nullBuffer : BufferDesc_1_1 :=
  {| bufferId := 0; timestamp := 0; nativeHandle := None |}.

(** Modelled from the spec: the member initialisers of StreamHandler.h are not
    under src/; a new handler has both slots empty (-1) and is not running,
    as section 4.4 and scenario 2 of the spec have it. *)
Definition fresh (bufs : list BufferDesc_1_1) : State :=
  {| mRunning := false; mBuffers := bufs; mHeldBuffer := -1; mReadyBuffer := -1 |}.

Definition newFrameAvailable (s : State) : bool := 0 <=? mReadyBuffer s.

Definition getNewFrame (s : State)
  : State * list Effect * option BufferDesc_1_1 :=
  if 0 <=? mHeldBuffer s then
    (s, [LogError "Ignored call for new frame while still holding the old one."],
     slot s (mHeldBuffer s))
  else
    let '(ready, log) :=
      if mReadyBuffer s <? 0
      then (0, [LogError "Returning invalid buffer because we don't have any.  Call newFrameAvailable first?"])
      else (mReadyBuffer s, []) in
    let s' := {| mRunning := mRunning s; mBuffers := mBuffers s;
                 mHeldBuffer := ready; mReadyBuffer := -1 |} in
    (s', log, slot s' (mHeldBuffer s')).

Definition doneWithFrame (bufDesc : BufferDesc_1_1) (s : State)
  : State * list Effect :=
  let unexpected :=
    (mHeldBuffer s <? 0) ||
    match slot s (mHeldBuffer s) with
    | Some held => negb (bufferId bufDesc =? bufferId held)
    | None => true
    end in
  let log :=
    if unexpected
    then [LogError "StreamHandler::doneWithFrame got an unexpected bufDesc_1_1!"]
    else [] in
  ({| mRunning := mRunning s; mBuffers := mBuffers s;
      mHeldBuffer := -1; mReadyBuffer := mReadyBuffer s |},
   log ++ [Camera_doneWithFrame_1_1 (slot s (mHeldBuffer s))]).

(** [bufDesc] is [buffers[0]] of the delivered vector. *)
Definition deliverFrame_1_1 (bufDesc : BufferDesc_1_1) (s : State)
  : State * list Effect :=
  match nativeHandle bufDesc with
  | None => (s, [LogWarning "Invalid null frame is ignored"; Signal_notify_all])
  | Some _ =>
    let '(ready, returned) :=
      if 0 <=? mReadyBuffer s then
        (mReadyBuffer s, [Camera_doneWithFrame_1_1 (slot s (mReadyBuffer s))])
      else if 0 <=? mHeldBuffer s then (1 - mHeldBuffer s, [])
      else (0, []) in
    ({| mRunning := mRunning s; mBuffers := store (mBuffers s) ready bufDesc;
        mHeldBuffer := mHeldBuffer s; mReadyBuffer := ready |},
     returned ++ [Signal_notify_all])
  end.

(** The operations a consumer and the camera apply to one handler. *)
Inductive Op : Type :=
| Deliver (bufDesc : BufferDesc_1_1)
| GetNewFrame
| DoneWithFrame (bufDesc : BufferDesc_1_1).

Definition step (s : State) (o : Op) : State :=
  match o with
  | Deliver b => (deliverFrame_1_1 b s).1
  | GetNewFrame => (getNewFrame s).1.1
  | DoneWithFrame b => (doneWithFrame b s).1
  end.

Definition run (s : State) (ops : list Op) : State := fold_left step ops s.

Definition slot_index (i : Z) : Prop := i = -1 \/ i = 0 \/ i = 1.

(** The slot-pair invariant: both indices are -1, 0 or 1, and they do not
    name the same slot. *)
Definition slots_ok (s : State) : Prop :=
  slot_index (mReadyBuffer s) /\ slot_index (mHeldBuffer s) /\
  ~ (0 <= mReadyBuffer s /\ mReadyBuffer s = mHeldBuffer s).

(** The sentence of the spec on [takeFrame], as a function on the slot pair
    [(ready, held)]: a held frame blocks the call, otherwise ready moves to
    held and ready is cleared. *)
Definition spec_takeFrame (ready held : Z) : Z * Z :=
  if 0 <=? held then (ready, held) else (-1, ready).

(** *** Sequences of calls with their effects *)

Definition step_effects (s : State) (o : Op) : State * list Effect :=
  match o with
  | Deliver b => deliverFrame_1_1 b s
  | GetNewFrame => (getNewFrame s).1
  | DoneWithFrame b => doneWithFrame b s
  end.

Fixpoint run_effects (ops : list Op) (s : State) : State * list Effect :=
  match ops with
  | [] => (s, [])
  | o :: ops' =>
    let '(s1, evs1) := step_effects s o in
    let '(s2, evs2) := run_effects ops' s1 in
    (s2, evs1 ++ evs2)
  end.

(** What went back to the camera, in order; [None] is a read outside the
    array. *)
Definition returned_to_camera (evs : list Effect) : list (option BufferDesc_1_1) :=
  evs ≫= fun e => match e with Camera_doneWithFrame_1_1 frame => [frame] | _ => [] end.

(** The frames the handler keeps: the ready one and the held one. *)
Definition kept (s : State) : list (option BufferDesc_1_1) :=
  (if 0 <=? mReadyBuffer s then [slot s (mReadyBuffer s)] else [])
  ++ (if 0 <=? mHeldBuffer s then [slot s (mHeldBuffer s)] else []).

(** The frames of a sequence that the handler takes in: those with a
    handle. *)
Definition taken_in (ops : list Op) : list (option BufferDesc_1_1) :=
  ops ≫= fun o =>
    match o with
    | Deliver b => match nativeHandle b with Some _ => [Some b] | None => [] end
    | _ => []
    end.

(** A consumer that asks for a frame only when one is ready or held, and
    gives back a frame only when it holds one. *)
Fixpoint polite (ops : list Op) (s : State) : Prop :=
  match ops with
  | [] => True
  | o :: ops' =>
    match o with
    | Deliver _ => True
    | GetNewFrame => 0 <= mHeldBuffer s \/ 0 <= mReadyBuffer s
    | DoneWithFrame _ => 0 <= mHeldBuffer s
    end /\ polite ops' (step s o)
  end.

End StreamHandler.

(** ** std::vector, as far as the broker uses it *)

Module Vector.

(** A vector is its elements and its capacity; [size] is the number of
    elements.  [reserve] touches the capacity only. *)
Record vector (A : Type) : Type := {
  elems : list A;
  capacity : nat
}.
Arguments elems {A} _.
Arguments capacity {A} _.

(** An access through [operator[]] that names no element of the vector. *)
Inductive Fault : Type :=
| OutOfBounds (index size : nat).

Definition empty {A : Type} : vector A := {| elems := []; capacity := 0 |}.

Definition size {A : Type} (v : vector A) : nat := length (elems v).

Definition reserve {A : Type} (n : nat) (v : vector A) : vector A :=
  {| elems := elems v; capacity := Nat.max (capacity v) n |}.

(** [v[i]] as a read: no cell at or beyond [size v]. *)
Definition at_index {A : Type} (v : vector A) (i : nat) : option A := elems v !! i.

(** [v[i] = x]. *)
Definition assign {A : Type} (v : vector A) (i : nat) (x : A) : Fault + vector A :=
  match at_index v i with
  | Some _ => inr {| elems := <[i := x]> (elems v); capacity := capacity v |}
  | None => inl (OutOfBounds i (size v))
  end.

End Vector.

(** ** HalCamera: the broker between one hardware camera and its clients *)

Module HalCamera.
Import Machine.

(** A [VirtualCamera] object, by identity.  [sp<VirtualCamera>] is
    [option VirtualCamera] with [None] for [nullptr]; a [wp<VirtualCamera>]
    that is not null is the object's identity, and [promote] tells whether
    the object still exists. *)
Definition VirtualCamera : Type := nat.
Definition HalCameraRef : Type := nat.

(** What one call of a broker method sees of the objects around it: the
    virtual cameras (VirtualCamera.cpp) and the hardware camera behind
    [mHwCamera].  Which cameras exist, their allowances and their versions
    stand still while the call runs.  [vc_deliverFrame n] and [vc_notify n]
    are the answers to the [n]-th such call made by the broker method, so a
    virtual camera may answer one request and refuse the next.
    [hw_setMaxFramesInFlight] answers [None] when the HIDL transaction
    itself fails ([isOk()] is false). *)
Record World : Type := {
  vc_alive : VirtualCamera -> bool;
  vc_getAllowedBuffers : VirtualCamera -> Z;
  vc_getVersion : VirtualCamera -> Z;
  vc_deliverFrame : nat -> VirtualCamera -> BufferDesc_1_1 -> bool;
  vc_notify : nat -> VirtualCamera -> EvsEventDesc -> bool;
  hw_setMaxFramesInFlight : Z -> option EvsResult;
  new_VirtualCamera : list (option HalCameraRef) -> option VirtualCamera
}.

Definition promote (W : World) (client : VirtualCamera) : option VirtualCamera :=
  if vc_alive W client then Some client else None.

(** HalCamera.h is not under src/, and with it the integer type of
    [FrameRecord::refCount]: it is a parameter of the model.  The code
    assigns an [unsigned] to it and compares it with 0. *)
Inductive RefCountType : Type :=
| RefUInt32
| RefInt32.

Definition wrap_ref (t : RefCountType) (z : Z) : Z :=
  match t with
  | RefUInt32 => wrap_u32 z
  | RefInt32 => wrap_i32 z
  end.

Definition refCount_max (t : RefCountType) : Z :=
  match t with
  | RefUInt32 => UINT32_MAX
  | RefInt32 => INT32_MAX
  end.

Record FrameRecord : Type := {
  frameId : Z;
  refCount : Z
}.

(** [FrameRequest]: the requesting client (a weak pointer) and the time of the
    last frame it has seen ([timestamp] in the source). *)
Record FrameRequest : Type := {
  client : VirtualCamera;
  req_timestamp : Z
}.

Inductive StreamState : Type :=
| STOPPED
| RUNNING
| STOPPING.

#[global] Instance StreamState_eq_dec : EqDecision StreamState.
Proof. solve_decision. Defined.

(** [mCurrentRequests] and [mNextRequests] point at the two request deques;
    [std::swap] exchanges the pointers, here the two fields. *)
Record State : Type := {
  mClients : list VirtualCamera;
  mStreamState : StreamState;
  mFrames : list FrameRecord;
  mMaster : option VirtualCamera;
  mCurrentRequests : list FrameRequest;
  mNextRequests : list FrameRequest
}.

Inductive LogLevel : Type :=
| ALOGE
| ALOGW
| ALOGI
| ALOGD
| ALOGV.

(** The calls that leave the broker.  A call into a virtual camera carries
    its answer; the sync timelines of [mTimelines] are kernel objects and
    appear through the calls made on them. *)
Inductive Call : Type :=
| Log (level : LogLevel) (msg : string)
| Hw_setMaxFramesInFlight (bufferCount : Z)
| Hw_doneWithFrame_1_1 (buffers : list BufferDesc_1_1)
| Vc_deliverFrame (vCam : VirtualCamera) (buffer : BufferDesc_1_1) (accepted : bool)
| Vc_notify (vCam : VirtualCamera) (event : EvsEventDesc) (delivered : bool)
| Timeline_create (vCam : VirtualCamera)
| Timeline_BumpFenceEventCounter (vCam : VirtualCamera)
| Timeline_CreateFence (vCam : VirtualCamera)
| Timeline_BumpTimelineEventCounter (vCam : VirtualCamera).

(** A method of the broker: from the state before to its result, the state
    after and the calls it made. *)
Definition M (A : Type) : Type := State -> A * State * list Call.

#[global] Instance M_ret : MRet M := fun A (a : A) s => (a, s, []).

#[global] Instance M_bind : MBind M := fun A B (f : A -> M B) (m : M A) s =>
  let '(a, s1, t1) := m s in
  let '(b, s2, t2) := f a s1 in
  (b, s2, t1 ++ t2).

Definition gets {A : Type} (f : State -> A) : M A := fun s => (f s, s, []).
Definition modify (f : State -> State) : M unit := fun s => (tt, f s, []).
Definition call (c : Call) : M unit := fun s => (tt, s, [c]).
Definition when (b : bool) (m : M unit) : M unit := if b then m else mret tt.

Definition set_mClients (v : list VirtualCamera) (s : State) : State :=
  {| mClients := v; mStreamState := mStreamState s; mFrames := mFrames s;
     mMaster := mMaster s; mCurrentRequests := mCurrentRequests s;
     mNextRequests := mNextRequests s |}.

Definition set_mStreamState (v : StreamState) (s : State) : State :=
  {| mClients := mClients s; mStreamState := v; mFrames := mFrames s;
     mMaster := mMaster s; mCurrentRequests := mCurrentRequests s;
     mNextRequests := mNextRequests s |}.

Definition set_mFrames (v : list FrameRecord) (s : State) : State :=
  {| mClients := mClients s; mStreamState := mStreamState s; mFrames := v;
     mMaster := mMaster s; mCurrentRequests := mCurrentRequests s;
     mNextRequests := mNextRequests s |}.

Definition set_mMaster (v : option VirtualCamera) (s : State) : State :=
  {| mClients := mClients s; mStreamState := mStreamState s; mFrames := mFrames s;
     mMaster := v; mCurrentRequests := mCurrentRequests s;
     mNextRequests := mNextRequests s |}.

Definition set_requests (current next : list FrameRequest) (s : State) : State :=
  {| mClients := mClients s; mStreamState := mStreamState s; mFrames := mFrames s;
     mMaster := mMaster s; mCurrentRequests := current; mNextRequests := next |}.

(** The search loops of the source: [for (i = 0; i < v.size(); i++) if (p(v[i])) break;]
    leaves [i] at the first match, or at [v.size()]. *)
Fixpoint find_index {A : Type} (p : A -> bool) (v : list A) : nat :=
  match v with
  | [] => 0%nat
  | x :: v' => if p x then 0%nat else S (find_index p v')
  end.

Section Methods.

Context (refT : RefCountType) (W : World).

(** [changeFramesInFlight]: the loop over [mClients], summing in an [unsigned]. *)
Definition countRequiredFrames (clients : list VirtualCamera) : Z :=
  fold_left
    (fun bufferCount client =>
       match promote W client with
       | Some virtCam => wrap_u32 (bufferCount + wrap_u32 (vc_getAllowedBuffers W virtCam))
       | None => bufferCount
       end)
    clients 0.

Definition changeFramesInFlight (delta : Z) : M bool :=
  clients ← gets mClients;
  let bufferCount := countRequiredFrames clients in
  let bufferCount := wrap_u32 (bufferCount + delta) in
  let bufferCount := if bufferCount <? 1 then 1 else bufferCount in
  call (Hw_setMaxFramesInFlight bufferCount);;
  let success := bool_decide (hw_setMaxFramesInFlight W bufferCount = Some OK) in
  when success (
    frames ← gets mFrames;
    let newRecords := filter (fun rec => 0 < refCount rec) frames in
    when (bufferCount <? Z.of_nat (length newRecords))
      (call (Log ALOGW "We found more frames in use than requested."));;
    modify (set_mFrames newRecords));;
  mret success.

Definition ownVirtualCamera (virtualCamera : option VirtualCamera) : M bool :=
  match virtualCamera with
  | None =>
    call (Log ALOGE "Failed to create virtualCamera camera object");;
    mret false
  | Some vCam =>
    enough ← changeFramesInFlight (wrap_i32 (wrap_u32 (vc_getAllowedBuffers W vCam)));
    if (enough : bool) then
      call (Timeline_create vCam);;
      clients ← gets mClients;
      modify (set_mClients (clients ++ [vCam]));;
      mret true
    else mret false
  end.

(** [sourceCameras.reserve(1); sourceCameras[0] = this;] on a new vector,
    then the construction of the client and its registration. *)
Definition makeVirtualCamera (this : HalCameraRef)
  : M (Vector.Fault + option VirtualCamera) :=
  let sourceCameras := Vector.reserve 1 (Vector.empty (A := option HalCameraRef)) in
  match Vector.assign sourceCameras 0 (Some this) with
  | inl fault => mret (inl fault)
  | inr sourceCameras =>
    match new_VirtualCamera W (Vector.elems sourceCameras) with
    | None =>
      call (Log ALOGE "Failed to create client camera object");;
      mret (inr None)
    | Some client =>
      owned ← ownVirtualCamera (Some client);
      if (owned : bool) then mret (inr (Some client))
      else
        call (Log ALOGE "Failed to own a client camera object");;
        mret (inr None)
    end
  end.

Definition requestNewFrame (client : VirtualCamera) (lastTimestamp : Z) : M unit :=
  let req := {| client := client; req_timestamp := lastTimestamp |} in
  call (Timeline_BumpFenceEventCounter client);;
  call (Timeline_CreateFence client);;
  current ← gets mCurrentRequests;
  next ← gets mNextRequests;
  modify (set_requests current (next ++ [req])).

(** [doneWithFrame(const BufferDesc_1_1&)]. *)
Definition doneWithFrame (buffer : BufferDesc_1_1) : M unit :=
  frames ← gets mFrames;
  let i := find_index (fun rec => frameId rec =? bufferId buffer) frames in
  match frames !! i with
  | None => call (Log ALOGE "We got a frame back with an ID we don't recognize!")
  | Some rec =>
    let count := wrap_ref refT (refCount rec - 1) in
    modify (set_mFrames (<[i := {| frameId := frameId rec; refCount := count |}]> frames));;
    when (count <=? 0) (call (Hw_doneWithFrame_1_1 [buffer]))
  end.

Definition kThreshold : Z := 16000.

(** The [while (!mCurrentRequests->empty())] loop of [deliverFrame_1_1] over
    the requests it pops, front first; [frameDeliveriesV1] is an [unsigned].
    [calls] counts the calls of [VirtualCamera::deliverFrame] made so far. *)
Fixpoint forwardToRequesters (buffer0 : BufferDesc_1_1) (frameDeliveriesV1 : Z)
    (calls : nat) (requests : list FrameRequest) : M (Z * nat) :=
  match requests with
  | [] => mret (frameDeliveriesV1, calls)
  | req :: requests' =>
    match promote W (client req) with
    | None => forwardToRequesters buffer0 frameDeliveriesV1 calls requests'
    | Some vCam =>
      if wrap_i64 (timestamp buffer0 - req_timestamp req) <? kThreshold then
        call (Log ALOGD "Skips a frame from %s");;
        current ← gets mCurrentRequests;
        next ← gets mNextRequests;
        modify (set_requests current (next ++ [req]));;
        forwardToRequesters buffer0 frameDeliveriesV1 calls requests'
      else
        let accepted := vc_deliverFrame W calls vCam buffer0 in
        call (Vc_deliverFrame vCam buffer0 accepted);;
        if accepted then
          call (Log ALOGD "%s forwarded the buffer #%d");;
          call (Timeline_BumpTimelineEventCounter vCam);;
          forwardToRequesters buffer0 (wrap_u32 (frameDeliveriesV1 + 1)) (S calls) requests'
        else forwardToRequesters buffer0 frameDeliveriesV1 (S calls) requests'
    end
  end.

(** The loop over [mClients] that serves the v1.0 clients. *)
Fixpoint forwardToLegacy (buffer0 : BufferDesc_1_1) (frameDeliveries : Z)
    (calls : nat) (clients : list VirtualCamera) : M Z :=
  match clients with
  | [] => mret frameDeliveries
  | client :: clients' =>
    match promote W client with
    | None => forwardToLegacy buffer0 frameDeliveries calls clients'
    | Some vCam =>
      if 0 <? vc_getVersion W vCam then
        forwardToLegacy buffer0 frameDeliveries calls clients'
      else
        let accepted := vc_deliverFrame W calls vCam buffer0 in
        call (Vc_deliverFrame vCam buffer0 accepted);;
        forwardToLegacy buffer0
          (if accepted then wrap_u32 (frameDeliveries + 1) else frameDeliveries)
          (S calls) clients'
    end
  end.

(** The last branch of [deliverFrame_1_1]: an entry for the frame in the
    tracking list.  [emplace_back(id)] appends a record with [refCount] 0. *)
Definition trackFrame (id : Z) (frameDeliveries : Z) (frames : list FrameRecord)
  : list FrameRecord :=
  let i := find_index (fun rec => refCount rec =? 0) frames in
  let frames :=
    match frames !! i with
    | None => frames ++ [{| frameId := id; refCount := 0 |}]
    | Some rec => <[i := {| frameId := id; refCount := refCount rec |}]> frames
    end in
  <[i := {| frameId := id; refCount := wrap_ref refT frameDeliveries |}]> frames.

(** [deliverFrame_1_1(buffer)] for the vector [buffer0 :: rest]; the source
    reads [buffer[0]] only, and hands the whole vector back when nobody took
    the frame.  The request loop runs with the two deques exchanged and
    leaves the current one empty. *)
Definition deliverFrame_1_1 (buffer0 : BufferDesc_1_1) (rest : list BufferDesc_1_1)
  : M unit :=
  call (Log ALOGV "Received a frame");;
  current ← gets mCurrentRequests;
  next ← gets mNextRequests;
  modify (set_requests [] current);;
  served ← forwardToRequesters buffer0 0 0 next;
  let frameDeliveriesV1 := served.1 in
  clients ← gets mClients;
  frameDeliveries ← forwardToLegacy buffer0 0 served.2 clients;
  let frameDeliveries := wrap_u32 (frameDeliveries + frameDeliveriesV1) in
  if frameDeliveries <? 1 then
    call (Log ALOGI "Trivially rejecting frame (%d) from %s with no acceptance");;
    call (Hw_doneWithFrame_1_1 (buffer0 :: rest))
  else
    frames ← gets mFrames;
    modify (set_mFrames (trackFrame (bufferId buffer0) frameDeliveries frames)).

Fixpoint forwardEvent (event : EvsEventDesc) (calls : nat)
    (clients : list VirtualCamera) : M unit :=
  match clients with
  | [] => mret tt
  | client :: clients' =>
    match promote W client with
    | None => forwardEvent event calls clients'
    | Some vCam =>
      let delivered := vc_notify W calls vCam event in
      call (Vc_notify vCam event delivered);;
      when (negb delivered) (call (Log ALOGI "Failed to forward an event"));;
      forwardEvent event (S calls) clients'
    end
  end.

Definition notify (event : EvsEventDesc) : M unit :=
  call (Log ALOGD "Received an event id: %u");;
  when (bool_decide (aType event = STREAM_STOPPED)) (
    state ← gets mStreamState;
    when (negb (bool_decide (state = STOPPING)))
      (call (Log ALOGW "Stream stopped unexpectedly"));;
    modify (set_mStreamState STOPPED));;
  clients ← gets mClients;
  forwardEvent event 0 clients.


Definition forceMaster (virtualCamera : option VirtualCamera) : M EvsResult :=
  master ← gets mMaster;
  let prevMaster := master ≫= promote W in
  (if bool_decide (prevMaster = virtualCamera) then
     call (Log ALOGD "Client %p is already a master client")
   else
     modify (set_mMaster virtualCamera);;
     match prevMaster with
     | None => mret tt
     | Some prev =>
       call (Log ALOGD "High priority client %p steals a master role from %p");;
       let event := {| aType := MASTER_RELEASED; payload := [] |} in
       let delivered := vc_notify W 0 prev event in
       call (Vc_notify prev event delivered);;
       when (negb delivered)
         (call (Log ALOGE "Fail to deliver a master role lost notification"))
     end);;
  mret OK.

Definition unsetMaster (virtualCamera : option VirtualCamera) : M EvsResult :=
  master ← gets mMaster;
  if bool_decide (master ≫= promote W = virtualCamera) then
    call (Log ALOGD "Unset a master camera client");;
    modify (set_mMaster None);;
    notify {| aType := MASTER_RELEASED; payload := [] |};;
    mret OK
  else mret INVALID_ARG.

End Methods.

(** *** What a trace shows *)

(** The buffers handed back to the hardware camera, in order. *)
Definition returned_buffers (tr : list Call) : list BufferDesc_1_1 :=
  tr ≫= fun c => match c with Hw_doneWithFrame_1_1 bufs => bufs | _ => [] end.

Definition returns_of (id : Z) (tr : list Call) : nat :=
  length (filter (fun b => bufferId b = id) (returned_buffers tr)).

(** The calls of [VirtualCamera::deliverFrame], with their answers. *)
Definition deliveries (tr : list Call) : list (VirtualCamera * bool) :=
  tr ≫= fun c => match c with Vc_deliverFrame vCam _ accepted => [(vCam, accepted)] | _ => [] end.

(** The virtual cameras the frame was handed to, in order. *)
Definition recipients (tr : list Call) : list VirtualCamera := (deliveries tr).*1.

(** The number of clients that accepted the frame. *)
Definition accepted (tr : list Call) : Z :=
  Z.of_nat (length (filter (fun d => d.2 = true) (deliveries tr))).

(** The events forwarded to virtual cameras: who got which type. *)
Definition notified (tr : list Call) : list (VirtualCamera * EvsEventType) :=
  tr ≫= fun c => match c with Vc_notify vCam event _ => [(vCam, aType event)] | _ => [] end.

(** The requests that one run of the request loop puts back: those of a
    live client for which the frame comes too soon. *)
Definition deferred (W : World) (buffer0 : BufferDesc_1_1) (req : FrameRequest) : bool :=
  vc_alive W (client req) &&
  (wrap_i64 (timestamp buffer0 - req_timestamp req) <? kThreshold).

(** The buffer counts asked of the hardware camera. *)
Definition requested (tr : list Call) : list Z :=
  tr ≫= fun c => match c with Hw_setMaxFramesInFlight n => [n] | _ => [] end.

(** The buffers the live clients of a list are allowed, summed as integers
    (each allowance is an [unsigned]). *)
Definition allowed_total (W : World) (clients : list VirtualCamera) : Z :=
  foldr Z.add 0
    ((fun vCam => wrap_u32 (vc_getAllowedBuffers W vCam)) <$>
       filter (fun vCam => vc_alive W vCam = true) clients).

(** The requests that the request loop forwards the frame for, and the
    clients of [mClients] that the second loop forwards it to. *)
Definition due (W : World) (buffer0 : BufferDesc_1_1) (req : FrameRequest) : bool :=
  vc_alive W (client req) &&
  negb (wrap_i64 (timestamp buffer0 - req_timestamp req) <? kThreshold).

Definition legacy (W : World) (vCam : VirtualCamera) : bool :=
  vc_alive W vCam && negb (0 <? vc_getVersion W vCam).

(** *** The frame tracker *)

(** A record is in use for frame [id] when it carries that id and a
    positive count (the test of [changeFramesInFlight]). *)
Definition in_use (id : Z) (rec : FrameRecord) : Prop :=
  frameId rec = id /\ 0 < refCount rec.

#[global] Instance in_use_dec id rec : Decision (in_use id rec).
Proof. unfold in_use. apply _. Defined.

Definition indicator (P : Prop) `{Decision P} : nat := if decide P then 1 else 0.

(** The records of frame [id] that are in use. *)
Definition live_count (frames : list FrameRecord) (id : Z) : nat :=
  length (filter (in_use id) frames).

(** The tracker is in order when every count is within its type and not
    negative, a record in use is the first record of its frame id (the one
    the search of [doneWithFrame] stops at), and no frame has two records
    in use. *)
Definition tracker_ok (refT : RefCountType) (frames : list FrameRecord) : Prop :=
  Forall (fun rec => 0 <= refCount rec <= refCount_max refT) frames /\
  (forall j rec, frames !! j = Some rec -> 0 < refCount rec ->
     find_index (fun r => frameId r =? frameId rec) frames = j) /\
  (forall id, (live_count frames id <= 1)%nat).

Definition live (frames : list FrameRecord) (id : Z) : Prop :=
  (0 < live_count frames id)%nat.

(** *** Sequences of broker calls *)

(** A frame from the hardware camera (a vector of one buffer, met by the
    clients in [W]), a frame coming back from a client, a client asking for
    its next frame, a change of the pool size, a client being attached. *)
Inductive Op : Type :=
| Deliver (W : World) (buffer : BufferDesc_1_1)
| Done (buffer : BufferDesc_1_1)
| Request (client : VirtualCamera) (lastTimestamp : Z)
| Resize (W : World) (delta : Z)
| Attach (W : World) (virtualCamera : option VirtualCamera).

Definition step (refT : RefCountType) (o : Op) : M unit :=
  match o with
  | Deliver W buffer => deliverFrame_1_1 refT W buffer []
  | Done buffer => doneWithFrame refT buffer
  | Request client lastTimestamp => requestNewFrame client lastTimestamp
  | Resize W delta => changeFramesInFlight W delta;; mret tt
  | Attach W virtualCamera => ownVirtualCamera W virtualCamera;; mret tt
  end.

Fixpoint run (refT : RefCountType) (ops : list Op) : M unit :=
  match ops with
  | [] => mret tt
  | o :: ops' => step refT o;; run refT ops'
  end.

(** The frames the hardware camera delivered, by id, in order. *)
Definition delivered_ids (ops : list Op) : list Z :=
  ops ≫= fun o => match o with Deliver _ b => [bufferId b] | _ => [] end.

Definition delivered (id : Z) (ops : list Op) : nat :=
  length (filter (fun x => x = id) (delivered_ids ops)).


(** *** Concrete worlds and states, for the examples *)

(** Every virtual camera exists, is a v1.0 client when [version] is 0 and a
    v1.1 client otherwise, allows two buffers, takes every frame and every
    event; the hardware camera grants every buffer count. *)
Definition willing_world (version : Z) : World :=
  {| vc_alive := fun _ => true;
     vc_getAllowedBuffers := fun _ => 2;
     vc_getVersion := fun _ => version;
     vc_deliverFrame := fun _ _ _ => true;
     vc_notify := fun _ _ _ => true;
     hw_setMaxFramesInFlight := fun _ => Some OK;
     new_VirtualCamera := fun _ => Some 1%nat |}.

(** A broker with the given clients, and nothing else yet. *)
Definition broker_with (clients : list VirtualCamera) : State :=
  {| mClients := clients; mStreamState := STOPPED; mFrames := []; mMaster := None;
     mCurrentRequests := []; mNextRequests := [] |}.

Definition frame (id time : Z) : BufferDesc_1_1 :=
  {| bufferId := id; timestamp := time; nativeHandle := Some id |}.

(** *** Detaching clients, the stream and the camera parameters *)

(** [CameraParam], by its [uint32_t] value. *)
Definition CameraParam : Type := Z.

(** What the methods below meet besides [World]: whether a virtual camera
    is streaming, and the answers of the hardware camera.  [None] is a HIDL
    transaction that failed: [startVideoStream] then gives a [Return] without
    a result, [setIntParameter] and [getIntParameter] never run their
    callback.  An answer of the latter two is the status and [readValue[0]]. *)
Record Hardware : Type := {
  vc_isStreaming : VirtualCamera -> bool;
  hw_startVideoStream : option EvsResult;
  hw_setIntParameter : CameraParam -> Z -> option (EvsResult * Z);
  hw_getIntParameter : CameraParam -> option (EvsResult * Z)
}.

(** The calls of these methods: those of [Call], and the stream and
    parameter calls on the hardware camera. *)
Inductive Outcall : Type :=
| Base (c : Call)
| Timeline_erase (vCam : VirtualCamera)
| Hw_startVideoStream
| Hw_stopVideoStream
| Hw_setIntParameter (id : CameraParam) (value : Z)
| Hw_getIntParameter (id : CameraParam).

Definition Method (A : Type) : Type := State -> A * State * list Outcall.

#[global] Instance Method_ret : MRet Method := fun A (a : A) s => (a, s, []).

#[global] Instance Method_bind : MBind Method := fun A B (f : A -> Method B) (m : Method A) s =>
  let '(a, s1, t1) := m s in
  let '(b, s2, t2) := f a s1 in
  (b, s2, t1 ++ t2).

(** A method of [M] run among these. *)
Definition lift {A : Type} (m : M A) : Method A := fun s =>
  let '(a, s1, t1) := m s in (a, s1, Base <$> t1).

Definition out (c : Outcall) : Method unit := fun s => (tt, s, [c]).

Section MoreMethods.

Context (W : World) (H : Hardware).

(** [mClients.remove(virtualCamera)] takes every entry for the camera out of
    the list.  [clientCount] is an [unsigned], compared as a [size_t]. *)
Definition disownVirtualCamera (virtualCamera : option VirtualCamera) : M unit :=
  match virtualCamera with
  | None => call (Log ALOGW "Ignoring disownVirtualCamera call with null pointer")
  | Some vCam =>
    clients ← gets mClients;
    let clientCount := wrap_u32 (Z.of_nat (length clients)) in
    let clients := filter (fun client => client <> vCam) clients in
    modify (set_mClients clients);;
    when (negb (clientCount =? Z.of_nat (length clients) + 1))
      (call (Log ALOGE "Couldn't find camera in our client list to remove it"));;
    reduced ← changeFramesInFlight W 0;
    when (negb reduced)
      (call (Log ALOGE "Error when trying to reduce the in flight buffer count"))
  end.

Definition clientStreamStarting : Method (option EvsResult) :=
  state ← lift (gets mStreamState);
  if bool_decide (state = STOPPED) then
    lift (modify (set_mStreamState RUNNING));;
    out Hw_startVideoStream;;
    mret (hw_startVideoStream H)
  else mret (Some OK).

(** [stillRunning |= virtCam->isStreaming()] over the live clients. *)
Definition stillRunning (clients : list VirtualCamera) : bool :=
  fold_left
    (fun running client =>
       match promote W client with
       | Some virtCam => running || vc_isStreaming H virtCam
       | None => running
       end)
    clients false.

(** [clientStreamEnding(client)].  The first loop stops at the first request
    of the client in the next-cycle deque, the second at the first entry of
    [mClients] that promotes to the client. *)
Definition clientStreamEnding (client : option VirtualCamera) : Method unit :=
  next ← lift (gets mNextRequests);
  let itReq := find_index (fun req => bool_decide (Some (HalCamera.client req) = client)) next in
  match next !! itReq with
  | Some req =>
    current ← lift (gets mCurrentRequests);
    lift (modify (set_requests current (delete itReq next)));;
    lift (call (Timeline_BumpTimelineEventCounter (HalCamera.client req)));;
    out (Timeline_erase (HalCamera.client req))
  | None => mret tt
  end;;
  clients ← lift (gets mClients);
  let itCam := find_index (fun entry => bool_decide (promote W entry = client)) clients in
  match clients !! itCam with
  | Some _ => lift (modify (set_mClients (delete itCam clients)))
  | None => mret tt
  end;;
  clients ← lift (gets mClients);
  if stillRunning clients then mret tt
  else
    lift (modify (set_mStreamState STOPPING));;
    out Hw_stopVideoStream.

(** [getParameter(id, value)]: the result, and [value] after the call. *)
Definition getParameter (id : CameraParam) (value : Z) : Method (EvsResult * Z) :=
  out (Hw_getIntParameter id);;
  match hw_getIntParameter H id with
  | Some (status, readValue0) =>
    mret (status, if bool_decide (status = OK) then readValue0 else value)
  | None => mret (OK, value)
  end.

(** [setParameter(virtualCamera, id, value)]: the result, and [value] after
    the call.  The event carries the two payload entries the code assigns. *)
Definition setParameter (virtualCamera : option VirtualCamera) (id : CameraParam)
    (value : Z) : Method (EvsResult * Z) :=
  master ← lift (gets mMaster);
  if bool_decide (virtualCamera = master ≫= promote W) then
    out (Hw_setIntParameter id value);;
    let answer :=
      match hw_setIntParameter H id value with
      | Some (status, readValue0) => (status, readValue0)
      | None => (INVALID_ARG, value)
      end in
    (if bool_decide (answer.1 = OK) then
       lift (notify W {| aType := PARAMETER_CHANGED;
                         payload := [wrap_u32 id; wrap_u32 answer.2] |})
     else mret tt);;
    mret answer
  else
    lift (call (Log ALOGD "A parameter change request from a non-master client is declined."));;
    current ← getParameter id value;
    mret (INVALID_ARG, current.2).

End MoreMethods.

(** The calls of [Call] among the calls of a method. *)
Definition base_calls (tr : list Outcall) : list Call :=
  tr ≫= fun c => match c with Base c => [c] | _ => [] end.

(** The calls that start, stop or set up the hardware camera. *)
Definition hardware_calls (tr : list Outcall) : list Outcall :=
  tr ≫= fun c => match c with Base _ | Timeline_erase _ => [] | _ => [c] end.

(** The events sent to virtual cameras, whole: who got which event. *)
Definition notifications (tr : list Call) : list (VirtualCamera * EvsEventDesc) :=
  tr ≫= fun c => match c with Vc_notify vCam event _ => [(vCam, event)] | _ => [] end.

(** [l'] is [l] without its first element that satisfies [P]; it is [l]
    when no element does. *)
Definition first_removed {A : Type} (P : A -> Prop) (l l' : list A) : Prop :=
  (Forall (fun x => ~ P x) l /\ l' = l)
  \/ exists pre x post,
       l = pre ++ x :: post /\ Forall (fun y => ~ P y) pre /\ P x /\ l' = pre ++ post.

(** Nobody streams, and the hardware camera answers every call with OK and
    reads back the value it was given (42 when asked for a value). *)
Definition idle_hardware : Hardware :=
  {| vc_isStreaming := fun _ => false;
     hw_startVideoStream := Some OK;
     hw_setIntParameter := fun _ value => Some (OK, value);
     hw_getIntParameter := fun _ => Some (OK, 42) |}.

End HalCamera.

(** ** EvsV4lCamera: the device adapter of the sample driver *)

Module EvsV4lCamera.
Import Machine.

(** A graphics buffer handle that is not null, by identity. *)
Definition buffer_handle_t : Type := Z.

(** [BufferRecord(handle)] starts with [inUse = false]. *)
Record BufferRecord : Type := {
  handle : option buffer_handle_t;
  inUse : bool
}.

(** What one call of [GraphicBufferAllocator::allocate] gives back. *)
Record Allocation : Type := {
  alloc_status : Z;
  alloc_memHandle : option buffer_handle_t;
  alloc_pixelsPerLine : Z
}.

Definition NO_ERROR : Z := 0.
Definition NO_MEMORY : Z := -12.

Definition HAL_PIXEL_FORMAT_RGBA_8888 : Z := 1.
Definition GRALLOC_USAGE_SW_READ_RARELY : Z := 2.
Definition GRALLOC_USAGE_SW_WRITE_OFTEN : Z := 48.
Definition GRALLOC_USAGE_HW_TEXTURE : Z := 256.

Definition kDefaultResolution : Z * Z := (640, 480).
Definition MAX_BUFFERS_IN_FLIGHT : Z := 100.

(** The camera object.  [mVideo_isOpen] is [mVideo.isOpen()].  [gralloc] is
    the process-wide allocator as the camera meets it: the answers of its
    coming [allocate] calls, next first; a run that outlasts the list is
    answered [NO_MEMORY]. *)
Record State : Type := {
  mVideo_isOpen : bool;
  mFormat : Z;
  mUsage : Z;
  mStride : Z;
  mFramesAllowed : Z;
  mFramesInUse : Z;
  mBuffers : list BufferRecord;
  gralloc : list Allocation
}.

Inductive Event : Type :=
| LogE (msg : string)
| LogW (msg : string)
| LogI (msg : string)
| Alloc_allocate (answer : Allocation)
| Alloc_free (h : buffer_handle_t)
| Video_open (deviceName : string) (width height : Z) (opened : bool).

Definition with_buffers (s : State) (allowed stride : Z) (bufs : list BufferRecord)
    (alloc : list Allocation) : State :=
  {| mVideo_isOpen := mVideo_isOpen s; mFormat := mFormat s; mUsage := mUsage s;
     mStride := stride; mFramesAllowed := allowed; mFramesInUse := mFramesInUse s;
     mBuffers := bufs; gralloc := alloc |}.

(** [for (auto&& rec : mBuffers) if (rec.handle == nullptr) { ...; stored = true; break; }]
    followed by [if (!stored) mBuffers.emplace_back(memHandle)]. *)
Fixpoint storeHandle (memHandle : buffer_handle_t) (bufs : list BufferRecord)
  : list BufferRecord :=
  match bufs with
  | [] => [{| handle := Some memHandle; inUse := false |}]
  | rec :: bufs' =>
    match handle rec with
    | None => {| handle := Some memHandle; inUse := false |} :: bufs'
    | Some _ => rec :: storeHandle memHandle bufs'
    end
  end.

(** [increaseAvailableFrames_Locked]: the loop [while (added < numToAdd)],
    with [todo] the iterations that remain. *)
Fixpoint increaseLoop (todo : nat) (added : Z) (s : State) : Z * State * list Event :=
  match todo with
  | O => (added, s, [])
  | S todo' =>
    let answer :=
      match gralloc s with
      | a :: _ => a
      | [] => {| alloc_status := NO_MEMORY; alloc_memHandle := None; alloc_pixelsPerLine := 0 |}
      end in
    let s := with_buffers s (mFramesAllowed s) (mStride s) (mBuffers s) (tail (gralloc s)) in
    if negb (alloc_status answer =? NO_ERROR) then
      (added, s, [Alloc_allocate answer; LogE "Error %d allocating %d x %d graphics buffer"])
    else
      match alloc_memHandle answer with
      | None =>
        (added, s, [Alloc_allocate answer;
                    LogE "We didn't get a buffer handle back from the allocator"])
      | Some memHandle =>
        let '(stride, log) :=
          if negb (mStride s =? 0) then
            (mStride s,
             if negb (mStride s =? alloc_pixelsPerLine answer)
             then [LogE "We did not expect to get buffers with different strides!"]
             else [])
          else (alloc_pixelsPerLine answer, []) in
        let s := with_buffers s (wrap_u32 (mFramesAllowed s + 1)) stride
                   (storeHandle memHandle (mBuffers s)) (gralloc s) in
        let '(added', s', evs) := increaseLoop todo' (wrap_u32 (added + 1)) s in
        (added', s', Alloc_allocate answer :: log ++ evs)
      end
  end.

Definition increaseAvailableFrames_Locked (numToAdd : Z) (s : State)
  : Z * State * list Event :=
  increaseLoop (Z.to_nat numToAdd) 0 s.

(** [decreaseAvailableFrames_Locked]: the loop over [mBuffers]; it stops at
    the record that makes [removed == numToRemove].  The result is the
    records as the loop leaves them, [removed], [mFramesAllowed] and the
    calls to the allocator. *)
Fixpoint decreaseLoop (numToRemove removed allowed : Z) (bufs : list BufferRecord)
  : list BufferRecord * Z * Z * list Event :=
  match bufs with
  | [] => ([], removed, allowed, [])
  | rec :: bufs' =>
    match handle rec with
    | Some h =>
      if negb (inUse rec) then
        let rec' := {| handle := None; inUse := inUse rec |} in
        let allowed := wrap_u32 (allowed - 1) in
        let removed := wrap_u32 (removed + 1) in
        if removed =? numToRemove then
          (rec' :: bufs', removed, allowed, [Alloc_free h])
        else
          let '(bufs'', removed', allowed', evs) :=
            decreaseLoop numToRemove removed allowed bufs' in
          (rec' :: bufs'', removed', allowed', Alloc_free h :: evs)
      else
        let '(bufs'', removed', allowed', evs) :=
          decreaseLoop numToRemove removed allowed bufs' in
        (rec :: bufs'', removed', allowed', evs)
    | None =>
      let '(bufs'', removed', allowed', evs) :=
        decreaseLoop numToRemove removed allowed bufs' in
      (rec :: bufs'', removed', allowed', evs)
    end
  end.

Definition decreaseAvailableFrames_Locked (numToRemove : Z) (s : State)
  : Z * State * list Event :=
  let '(bufs, removed, allowed, evs) :=
    decreaseLoop numToRemove 0 (mFramesAllowed s) (mBuffers s) in
  (removed, with_buffers s allowed (mStride s) bufs (gralloc s), evs).

Definition setAvailableFrames_Locked (bufferCount : Z) (s : State)
  : bool * State * list Event :=
  if bufferCount <? 1 then
    (false, s, [LogE "Ignoring request to set buffer count to zero"])
  else if MAX_BUFFERS_IN_FLIGHT <? bufferCount then
    (false, s, [LogE "Rejecting buffer request in excess of internal limit"])
  else if mFramesAllowed s <? bufferCount then
    let needed := wrap_u32 (bufferCount - mFramesAllowed s) in
    let '(added, s1, evs1) := increaseAvailableFrames_Locked needed s in
    if negb (added =? needed) then
      let '(_, s2, evs2) := decreaseAvailableFrames_Locked added s1 in
      (false, s2,
       LogI "Allocating %d buffers for camera frames" :: evs1 ++
       LogE "Rolling back to previous frame queue size" :: evs2)
    else (true, s1, LogI "Allocating %d buffers for camera frames" :: evs1)
  else if bufferCount <? mFramesAllowed s then
    let framesToRelease := wrap_u32 (mFramesAllowed s - bufferCount) in
    let '(released, s1, evs1) := decreaseAvailableFrames_Locked framesToRelease s in
    (true, s1,
     LogI "Returning %d camera frame buffers" :: evs1 ++
     (if negb (released =? framesToRelease)
      then [LogE "Buffer queue shrink failed -- too many buffers currently in use?"]
      else []))
  else (true, s, []).

(** [setMaxFramesInFlight(uint32_t bufferCount)]. *)
Definition setMaxFramesInFlight (bufferCount : Z) (s : State)
  : EvsResult * State * list Event :=
  if negb (mVideo_isOpen s) then
    (OWNERSHIP_LOST, s,
     [LogW "ignoring setMaxFramesInFlight call when camera has been lost."])
  else if bufferCount <? 1 then
    (INVALID_ARG, s,
     [LogE "Ignoring setMaxFramesInFlight with less than one buffer requested"])
  else
    let '(ok, s', evs) := setAvailableFrames_Locked bufferCount s in
    (if ok then OK else BUFFER_NOT_AVAILABLE, s', evs).

(** *** Opening a camera *)

(** ConfigManager.h is not under src/.  A [RawStreamConfiguration] is an
    array of six integers, read by the source as id, width, height, format,
    direction and frame rate ([cfg[0]] to [cfg[5]]); they are taken as
    [int32_t], the type of [streamId] and [area] beside them. *)
Record RawStreamConfiguration : Type := {
  cfg_id : Z;
  cfg_width : Z;
  cfg_height : Z;
  cfg_format : Z;
  cfg_direction : Z;
  cfg_fps : Z
}.

(** [camInfo->streamConfigurations], an unordered map, as the pairs its
    iteration yields, in that order. *)
Record CameraInfo : Type := {
  streamConfigurations : list (Z * RawStreamConfiguration)
}.

(** The requested [Stream]: [width] and [height] are [uint32_t]. *)
Record Stream : Type := {
  stream_width : Z;
  stream_height : Z;
  stream_format : Z
}.

(** [VideoCapture::open] talks to the V4L2 device; the camera sees whether
    it succeeded. *)
Record Driver : Type := {
  video_open : string -> Z -> Z -> bool
}.

(** The constructor [EvsV4lCamera(deviceName, camInfo)]; the device is not
    open yet. *)
Definition construct (alloc : list Allocation) : State :=
  {| mVideo_isOpen := false;
     mFormat := HAL_PIXEL_FORMAT_RGBA_8888;
     mUsage := Z.lor GRALLOC_USAGE_HW_TEXTURE
                 (Z.lor GRALLOC_USAGE_SW_READ_RARELY GRALLOC_USAGE_SW_WRITE_OFTEN);
     mStride := 0;
     mFramesAllowed := 0;
     mFramesInUse := 0;
     mBuffers := [];
     gralloc := alloc |}.

(** The loop of [Create] over the stream configurations.  The comparisons
    with the request convert [cfg[k]] to [uint32_t]; the area is an [int]
    product. *)
Fixpoint selectStream (requestedStreamCfg : Stream)
    (cfgs : list (Z * RawStreamConfiguration)) (streamId area : Z) : Z * Z :=
  match cfgs with
  | [] => (streamId, area)
  | (id, cfg) :: cfgs' =>
    if wrap_u32 (cfg_format cfg) =? wrap_u32 (stream_format requestedStreamCfg) then
      if (wrap_u32 (cfg_width cfg) =? stream_width requestedStreamCfg) &&
         (wrap_u32 (cfg_height cfg) =? stream_height requestedStreamCfg) then
        (id, area)
      else if (wrap_u32 (cfg_width cfg) <? stream_width requestedStreamCfg) &&
              (wrap_u32 (cfg_height cfg) <? stream_height requestedStreamCfg) &&
              (area <? wrap_i32 (cfg_width cfg * cfg_height cfg)) then
        selectStream requestedStreamCfg cfgs' id (wrap_i32 (cfg_width cfg * cfg_height cfg))
      else selectStream requestedStreamCfg cfgs' streamId area
    else selectStream requestedStreamCfg cfgs' streamId area
  end.

(** [camInfo->streamConfigurations[streamId]]. *)
Definition configOf (cfgs : list (Z * RawStreamConfiguration)) (streamId : Z)
  : option RawStreamConfiguration :=
  (fun found => found.2.2) <$> list_find (fun ic => ic.1 = streamId) cfgs.

Definition set_opened (s : State) (opened : bool) (format : Z) : State :=
  {| mVideo_isOpen := opened; mFormat := format; mUsage := mUsage s;
     mStride := mStride s; mFramesAllowed := mFramesAllowed s;
     mFramesInUse := mFramesInUse s; mBuffers := mBuffers s; gralloc := gralloc s |}.

(** [Create(deviceName, camInfo, requestedStreamCfg)]; [None] is [nullptr]. *)
Definition Create (drv : Driver) (alloc : list Allocation) (deviceName : string)
    (camInfo : option CameraInfo) (requestedStreamCfg : option Stream)
  : option State * list Event :=
  let evsCamera := construct alloc in
  let '(success, evsCamera, evs) :=
    match camInfo, requestedStreamCfg with
    | Some info, Some req =>
      let '(streamId, _) := selectStream req (streamConfigurations info) (-1) INT32_MIN in
      match (if 0 <=? streamId then configOf (streamConfigurations info) streamId else None) with
      | Some cfg =>
        let opened := video_open drv deviceName (cfg_width cfg) (cfg_height cfg) in
        (opened, set_opened evsCamera opened (wrap_u32 (cfg_format cfg)),
         [LogI "Try to open a video with width: %d, height: %d, format: %d";
          Video_open deviceName (cfg_width cfg) (cfg_height cfg) opened])
      | None => (false, evsCamera, [])
      end
    | _, _ => (false, evsCamera, [])
    end in
  if (success : bool) then (Some evsCamera, evs)
  else
    let opened := video_open drv deviceName kDefaultResolution.1 kDefaultResolution.2 in
    let evs := evs ++ [LogI "Open a video with default parameters";
                       Video_open deviceName kDefaultResolution.1 kDefaultResolution.2 opened] in
    if opened then (Some (set_opened evsCamera true (mFormat evsCamera)), evs)
    else (None, evs ++ [LogE "Failed to open a video stream"]).

(** *** Counting buffers *)

(** A record whose buffer can be freed: it holds a handle and is not in use. *)
Definition idle (rec : BufferRecord) : bool :=
  match handle rec with
  | Some _ => negb (inUse rec)
  | None => false
  end.

Definition idle_count (bufs : list BufferRecord) : nat :=
  length (filter (fun rec => idle rec = true) bufs).

(** The handles given back to the allocator. *)
Definition freed (evs : list Event) : list buffer_handle_t :=
  evs ≫= fun e => match e with Alloc_free h => [h] | _ => [] end.

(** An answer of the allocator that gives a buffer. *)
Definition granted (a : Allocation) : Prop :=
  alloc_status a = NO_ERROR /\ is_Some (alloc_memHandle a).

(** *** Reading a request against the configurations *)

Definition same_format (req : Stream) (cfg : RawStreamConfiguration) : Prop :=
  wrap_u32 (cfg_format cfg) = wrap_u32 (stream_format req).

Definition exact_match (req : Stream) (cfg : RawStreamConfiguration) : Prop :=
  same_format req cfg /\
  wrap_u32 (cfg_width cfg) = stream_width req /\
  wrap_u32 (cfg_height cfg) = stream_height req.

(** The test of the source for a second-best configuration: the same
    format, and narrower and lower than the request. *)
Definition smaller (req : Stream) (cfg : RawStreamConfiguration) : Prop :=
  same_format req cfg /\
  wrap_u32 (cfg_width cfg) < stream_width req /\
  wrap_u32 (cfg_height cfg) < stream_height req.

(** The words of the spec for it: the same format, and within the bounds
    of the request. *)
Definition spec_fits_within (req : Stream) (cfg : RawStreamConfiguration) : Prop :=
  same_format req cfg /\
  cfg_width cfg <= stream_width req /\
  cfg_height cfg <= stream_height req.

Definition area (cfg : RawStreamConfiguration) : Z := cfg_width cfg * cfg_height cfg.

(** A configuration as a camera has them: the id is not negative, width and
    height are not negative, and the area is an [int]. *)
Definition plain (ic : Z * RawStreamConfiguration) : Prop :=
  0 <= ic.1 /\
  0 <= cfg_width ic.2 <= INT32_MAX /\
  0 <= cfg_height ic.2 <= INT32_MAX /\
  area ic.2 <= INT32_MAX.

(** The resolutions [VideoCapture::open] was called with, in order. *)
Definition opens (evs : list Event) : list (Z * Z) :=
  evs ≫= fun e => match e with Video_open _ w h _ => [(w, h)] | _ => [] end.

(** A [Create] that went for the default: one attempt to open the device,
    at 640 x 480, and the camera it gives, if it gives one, is open with
    the RGBA format. *)
Definition opened_by_default (drv : Driver) (deviceName : string)
    (r : option State * list Event) : Prop :=
  opens r.2 = [(640, 480)] /\
  match r.1 with
  | Some cam =>
    video_open drv deviceName 640 480 = true /\
    mVideo_isOpen cam = true /\ mFormat cam = HAL_PIXEL_FORMAT_RGBA_8888
  | None => video_open drv deviceName 640 480 = false
  end.

(** *** Concrete drivers and cameras, for the examples *)

Definition obliging_driver : Driver := {| video_open := fun _ _ _ => true |}.

Definition stream_config (id width height format : Z) : Z * RawStreamConfiguration :=
  (id, {| cfg_id := id; cfg_width := width; cfg_height := height; cfg_format := format;
          cfg_direction := 0; cfg_fps := 30 |}).

(** The allocator hands out buffer [h] with a stride of 640 pixels. *)
Definition grants (h : buffer_handle_t) : Allocation :=
  {| alloc_status := NO_ERROR; alloc_memHandle := Some h; alloc_pixelsPerLine := 640 |}.

Definition refuses : Allocation :=
  {| alloc_status := NO_MEMORY; alloc_memHandle := None; alloc_pixelsPerLine := 0 |}.

(** *** Frames in flight *)

Definition with_frames (s : State) (inuse : Z) (bufs : list BufferRecord) : State :=
  {| mVideo_isOpen := mVideo_isOpen s; mFormat := mFormat s; mUsage := mUsage s;
     mStride := mStride s; mFramesAllowed := mFramesAllowed s; mFramesInUse := inuse;
     mBuffers := bufs; gralloc := gralloc s |}.

(** [mBuffers[i].inUse = b] and [mBuffers[i].handle = h], for an [i] within
    the vector. *)
Definition set_inUse (i : nat) (b : bool) (bufs : list BufferRecord) : list BufferRecord :=
  match bufs !! i with
  | Some rec => <[i := {| handle := handle rec; inUse := b |}]> bufs
  | None => bufs
  end.

Definition set_handle (i : nat) (h : option buffer_handle_t) (bufs : list BufferRecord)
  : list BufferRecord :=
  match bufs !! i with
  | Some rec => <[i := {| handle := h; inUse := inUse rec |}]> bufs
  | None => bufs
  end.

(** [doneWithFrame_impl(bufferId, memHandle)]; [bufferId] is a [uint32_t],
    [mFramesInUse] an [unsigned].  The handle is tested against null only.
    When the frame sits at or above [mFramesAllowed], its handle moves to
    the first record without a handle, if there is one. *)
Definition doneWithFrame_impl (bufferId : Z) (memHandle : option buffer_handle_t) (s : State)
  : EvsResult * State * list Event :=
  if negb (mVideo_isOpen s) then
    (OK, s, [LogW "ignoring doneWithFrame call when camera has been lost."])
  else
    match memHandle with
    | None => (OK, s, [LogE "ignoring doneWithFrame called with null handle"])
    | Some _ =>
      match (if bufferId <? Z.of_nat (length (mBuffers s))
             then mBuffers s !! Z.to_nat bufferId else None) with
      | None =>
        (OK, s, [LogE "ignoring doneWithFrame called with invalid bufferId %d (max is %zu)"])
      | Some rec =>
        if negb (inUse rec) then
          (OK, s, [LogE "ignoring doneWithFrame called on frame %d which is already free"])
        else
          let bufs := set_inUse (Z.to_nat bufferId) false (mBuffers s) in
          let inuse := wrap_u32 (mFramesInUse s - 1) in
          let bufs :=
            if mFramesAllowed s <=? bufferId then
              let empty := HalCamera.find_index (fun rec => bool_decide (handle rec = None)) bufs in
              match bufs !! empty with
              | Some _ =>
                set_handle (Z.to_nat bufferId) None
                  (set_handle empty (bufs !! Z.to_nat bufferId ≫= handle) bufs)
              | None => bufs
              end
            else bufs in
          (OK, with_frames s inuse bufs, [])
      end
    end.

(** [doneWithFrame_1_1(buffers)]: every buffer in turn; the answer is OK. *)
Fixpoint doneWithFrames (buffers : list BufferDesc_1_1) (s : State) : State * list Event :=
  match buffers with
  | [] => (s, [])
  | buffer :: buffers' =>
    let '(_, s1, evs1) := doneWithFrame_impl (bufferId buffer) (nativeHandle buffer) s in
    let '(s2, evs2) := doneWithFrames buffers' s1 in
    (s2, evs1 ++ evs2)
  end.

Definition doneWithFrame_1_1 (buffers : list BufferDesc_1_1) (s : State)
  : EvsResult * State * list Event :=
  let '(s', evs) := doneWithFrames buffers s in (OK, s', evs).

(** *** The stream *)

(** A stream receiver, by identity, and whether [castFrom] finds the
    v1.1 interface on it. *)
Record StreamClient : Type := {
  receiver : nat;
  implements_1_1 : bool
}.

(** The copy functions of bufferCopy.h. *)
Inductive FillFunction : Type :=
| fillNV21FromNV21
| fillNV21FromYUYV
| fillRGBAFromYUYV
| fillYUYVFromYUYV
| fillYUYVFromUYVY.

(** The camera with its stream: [pool] holds the fields of [State];
    [mFillBufferFromVideo] is [None] until a start assigns it. *)
Record Camera : Type := {
  pool : State;
  mStream : option StreamClient;
  mStream_1_1 : option StreamClient;
  mFillBufferFromVideo : option FillFunction
}.

(** A call through a pointer that points nowhere. *)
Inductive Fault : Type :=
| NoFillFunction
| NoStream.

(** The time stamp of a V4L2 buffer. *)
Record imageBuffer : Type := {
  tv_sec : Z;
  tv_usec : Z
}.

Inductive StreamEvent : Type :=
| Pool (e : Event)
| Video_startStream (started : bool)
| Video_stopStream
| Video_close
| Video_markFrameConsumed
| Mapper_lock (h : option buffer_handle_t) (locked : bool)
| FillBufferFromVideo (fill : FillFunction) (frame : BufferDesc_1_1)
| Mapper_unlock (h : option buffer_handle_t)
| Stream_deliverFrame_1_1 (to : StreamClient) (frames : list BufferDesc_1_1) (isOk : bool)
| Stream_deliverFrame (to : StreamClient) (bufferId : Z)
    (memHandle : option buffer_handle_t) (isOk : bool)
| Stream_notify (to : StreamClient) (event : EvsEventDesc) (isOk : bool)
| Alloc_free_handle (h : option buffer_handle_t).

Definition with_pool (c : Camera) (p : State) : Camera :=
  {| pool := p; mStream := mStream c; mStream_1_1 := mStream_1_1 c;
     mFillBufferFromVideo := mFillBufferFromVideo c |}.

Definition with_streams (c : Camera) (stream stream_1_1 : option StreamClient) : Camera :=
  {| pool := pool c; mStream := stream; mStream_1_1 := stream_1_1;
     mFillBufferFromVideo := mFillBufferFromVideo c |}.

Definition with_fill (c : Camera) (fill : option FillFunction) : Camera :=
  {| pool := pool c; mStream := mStream c; mStream_1_1 := mStream_1_1 c;
     mFillBufferFromVideo := fill |}.

(** The pixel formats of the two [switch]es, from system/graphics.h and
    linux/videodev2.h: [v4l2_fourcc] packs the four characters of a code,
    the first in the lowest byte. *)
Definition HAL_PIXEL_FORMAT_YCRCB_420_SP : Z := 17.
Definition HAL_PIXEL_FORMAT_YCBCR_422_I : Z := 20.

Definition v4l2_fourcc (code : string) : Z :=
  foldr (fun ch packed => Z.lor (Z.of_nat (Ascii.nat_of_ascii ch)) (Z.shiftl packed 8)) 0
    (String.list_ascii_of_string code).

Definition V4L2_PIX_FMT_NV21 : Z := v4l2_fourcc "NV21".
Definition V4L2_PIX_FMT_YUYV : Z := v4l2_fourcc "YUYV".
Definition V4L2_PIX_FMT_UYVY : Z := v4l2_fourcc "UYVY".

(** The two [switch]es of [startVideoStream]: the copy function for the
    output format and the format of the video device, if there is one. *)
Definition chooseFill (format videoSrcFormat : Z) : option FillFunction * list Event :=
  if format =? HAL_PIXEL_FORMAT_YCRCB_420_SP then
    if videoSrcFormat =? V4L2_PIX_FMT_NV21 then (Some fillNV21FromNV21, [])
    else if videoSrcFormat =? V4L2_PIX_FMT_YUYV then (Some fillNV21FromYUYV, [])
    else (None, [LogE "Unhandled camera output format %c%c%c%c (0x%8X)"])
  else if format =? HAL_PIXEL_FORMAT_RGBA_8888 then
    if videoSrcFormat =? V4L2_PIX_FMT_YUYV then (Some fillRGBAFromYUYV, [])
    else (None, [LogE "Unhandled camera format %4.4s"])
  else if format =? HAL_PIXEL_FORMAT_YCBCR_422_I then
    if videoSrcFormat =? V4L2_PIX_FMT_YUYV then (Some fillYUYVFromYUYV, [])
    else if videoSrcFormat =? V4L2_PIX_FMT_UYVY then (Some fillYUYVFromUYVY, [])
    else (None, [LogE "Unhandled camera format %4.4s"])
  else (None, [LogE "Unhandled output format %4.4s"]).

(** [startVideoStream(stream)].  [videoSrcFormat] is what
    [mVideo.getV4LFormat()] reports and [started] what [mVideo.startStream]
    answers. *)
Definition startVideoStream (videoSrcFormat : Z) (started : bool)
    (stream : option StreamClient) (c : Camera) : EvsResult * Camera * list StreamEvent :=
  if negb (mVideo_isOpen (pool c)) then
    (OWNERSHIP_LOST, c,
     [Pool (LogW "ignoring startVideoStream call when camera has been lost.")])
  else if bool_decide (mStream c <> None) then
    (STREAM_ALREADY_RUNNING, c,
     [Pool (LogE "ignoring startVideoStream call when a stream is already running.")])
  else
    let '(enough, p, evs) :=
      if mFramesAllowed (pool c) <? 1 then setAvailableFrames_Locked 1 (pool c)
      else (true, pool c, []) in
    if negb enough then
      (BUFFER_NOT_AVAILABLE, with_pool c p,
       (Pool <$> evs)
       ++ [Pool (LogE "Failed to start stream because we couldn't get a graphics buffer")])
    else
      let '(fill, log) := chooseFill (mFormat p) videoSrcFormat in
      let c := with_pool c p in
      let c := match fill with Some _ => with_fill c fill | None => c end in
      let evs := (Pool <$> evs)
                 ++ [Pool (LogI "Configuring to accept %4.4s camera data and convert to 0x%X")]
                 ++ (Pool <$> log) ++ [Video_startStream started] in
      if started then
        (OK,
         with_streams c stream
           (stream ≫= fun st => if implements_1_1 st then Some st else None),
         evs)
      else
        (UNDERLYING_SERVICE_ERROR, with_streams c None None,
         evs ++ [Pool (LogE "underlying camera start stream failed")]).

(** [stopVideoStream()]; [isOk] is the fate of the last call to the client. *)
Definition stopVideoStream (isOk : bool) (c : Camera) : Camera * list StreamEvent :=
  match mStream_1_1 c with
  | Some st =>
    let event := {| aType := STREAM_STOPPED; payload := [] |} in
    (with_streams c None None,
     [Video_stopStream; Stream_notify st event isOk]
     ++ (if isOk then [] else [Pool (LogE "Error delivering end of stream event")]))
  | None =>
    match mStream c with
    | Some st =>
      (with_streams c None (mStream_1_1 c),
       [Video_stopStream; Stream_deliverFrame st 0 None isOk]
       ++ (if isOk then [] else [Pool (LogE "Error delivering end of stream marker")]))
    | None => (c, [Video_stopStream])
    end
  end.

(** The loop of [shutdown] over the buffers: every handle, null or not, is
    passed to [alloc.free]. *)
Definition dropBuffer (rec : BufferRecord) : list StreamEvent :=
  (if inUse rec then [Pool (LogW "Error - releasing buffer despite remote ownership")] else [])
  ++ [Alloc_free_handle (handle rec)].

(** [shutdown()]: the stream is stopped, the video device closed, the
    buffers dropped.  [mFramesAllowed] and [mFramesInUse] stay as they are. *)
Definition shutdown (isOk : bool) (c : Camera) : Camera * list StreamEvent :=
  let '(c, evs) := stopVideoStream isOk c in
  let p := pool c in
  (with_pool c
     {| mVideo_isOpen := false; mFormat := mFormat p; mUsage := mUsage p;
        mStride := mStride p; mFramesAllowed := mFramesAllowed p;
        mFramesInUse := mFramesInUse p; mBuffers := []; gralloc := gralloc p |},
   evs ++ [Video_close] ++ (mBuffers p ≫= dropBuffer)).

(** [forwardFrame(pV4lBuff, pData)], the callback of the capture thread.
    [locked] tells whether the mapper gave a pointer to the pixels, [isOk]
    the fate of the delivery to the client.  The time is kept in
    microseconds; the [double] arithmetic of the source is exact below
    2^53 microseconds. *)
Definition forwardFrame (pV4lBuff : imageBuffer) (locked isOk : bool) (c : Camera)
  : Fault + Camera * list StreamEvent :=
  let s := pool c in
  if mFramesAllowed s <=? mFramesInUse s then
    inr (c, [Pool (LogW "Skipped a frame because too many are in flight");
             Video_markFrameConsumed])
  else
    let idx := HalCamera.find_index
                 (fun rec => negb (inUse rec) && bool_decide (handle rec <> None))
                 (mBuffers s) in
    match mBuffers s !! idx with
    | None =>
      inr (c, [Pool (LogE "Failed to find an available buffer slot");
               Video_markFrameConsumed])
    | Some rec =>
      let s := with_frames s (wrap_u32 (mFramesInUse s + 1)) (set_inUse idx true (mBuffers s)) in
      let bufDesc_1_1 :=
        {| bufferId := Z.of_nat idx;
           timestamp := tv_sec pV4lBuff * 1000000 + tv_usec pV4lBuff;
           nativeHandle := handle rec |} in
      let lock := Mapper_lock (handle rec) locked ::
                  (if locked then []
                   else [Pool (LogE "Camera failed to gain access to image buffer for writing")]) in
      match mFillBufferFromVideo c with
      | None => inl NoFillFunction
      | Some fill =>
        let copied := lock ++ [FillBufferFromVideo fill bufDesc_1_1;
                               Mapper_unlock (handle rec); Video_markFrameConsumed] in
        let delivery :=
          match mStream_1_1 c with
          | Some st => Some (Stream_deliverFrame_1_1 st [bufDesc_1_1] isOk)
          | None =>
            match mStream c with
            | Some st => Some (Stream_deliverFrame st (Z.of_nat idx) (handle rec) isOk)
            | None => None
            end
          end in
        match delivery with
        | None => inl NoStream
        | Some delivered =>
          if isOk then inr (with_pool c s, copied ++ [delivered])
          else
            inr (with_pool c
                   (with_frames s (wrap_u32 (mFramesInUse s - 1))
                      (set_inUse idx false (mBuffers s))),
                 copied ++ [delivered;
                            Pool (LogE "Frame delivery call failed in the transport layer.")])
        end
      end
    end.

(** *** Counting frames *)

Definition has_handle (rec : BufferRecord) : Prop := handle rec <> None.

Definition handle_count (bufs : list BufferRecord) : nat := length (filter has_handle bufs).

Definition inUse_count (bufs : list BufferRecord) : nat :=
  length (filter (fun rec => inUse rec = true) bufs).

(** The records are in order when one in use holds a buffer. *)
Definition held_ok (bufs : list BufferRecord) : Prop :=
  Forall (fun rec => inUse rec = true -> has_handle rec) bufs.

(** What a client holds stays where it is. *)
Definition keeps_held (bufs bufs' : list BufferRecord) : Prop :=
  forall i rec, bufs !! i = Some rec -> inUse rec = true -> bufs' !! i = Some rec.

(** The pool is in order: the two counters count what they name, a record
    in use holds a buffer, and the pool is within the limit. *)
Definition pool_ok (s : State) : Prop :=
  mFramesInUse s = Z.of_nat (inUse_count (mBuffers s))
  /\ mFramesAllowed s = Z.of_nat (handle_count (mBuffers s))
  /\ held_ok (mBuffers s)
  /\ mFramesAllowed s <= MAX_BUFFERS_IN_FLIGHT.

(** The frames handed to the client, and the handles passed to [free]. *)
Definition frames_sent (evs : list StreamEvent) : list (Z * option buffer_handle_t) :=
  evs ≫= fun e =>
    match e with
    | Stream_deliverFrame_1_1 _ frames _ => (fun b => (bufferId b, nativeHandle b)) <$> frames
    | Stream_deliverFrame _ id h _ => [(id, h)]
    | _ => []
    end.

Definition handles_dropped (evs : list StreamEvent) : list (option buffer_handle_t) :=
  evs ≫= fun e => match e with Alloc_free_handle h => [h] | _ => [] end.

Definition pool_events (evs : list StreamEvent) : list Event :=
  evs ≫= fun e => match e with Pool e => [e] | _ => [] end.

(** A camera as [Create] gives it, before any stream. *)
Definition camera_of (s : State) : Camera :=
  {| pool := s; mStream := None; mStream_1_1 := None; mFillBufferFromVideo := None |}.

(** *** Sequences of calls on one camera *)

(** The calls of a client and of the capture thread on a camera, with the
    answers of the world around it. *)
Inductive Op : Type :=
| SetMaxFramesInFlight (bufferCount : Z)
| StartVideoStream (videoSrcFormat : Z) (started : bool) (stream : option StreamClient)
| StopVideoStream (isOk : bool)
| ForwardFrame (pV4lBuff : imageBuffer) (locked isOk : bool)
| DoneWithFrame_1_1 (buffers : list BufferDesc_1_1).

Definition step (o : Op) (c : Camera) : Fault + Camera * list StreamEvent :=
  match o with
  | SetMaxFramesInFlight bufferCount =>
    let '(_, p, evs) := setMaxFramesInFlight bufferCount (pool c) in
    inr (with_pool c p, Pool <$> evs)
  | StartVideoStream videoSrcFormat started stream =>
    let '(_, c', evs) := startVideoStream videoSrcFormat started stream c in inr (c', evs)
  | StopVideoStream isOk => inr (stopVideoStream isOk c)
  | ForwardFrame pV4lBuff locked isOk => forwardFrame pV4lBuff locked isOk c
  | DoneWithFrame_1_1 buffers =>
    let '(_, p, evs) := doneWithFrame_1_1 buffers (pool c) in
    inr (with_pool c p, Pool <$> evs)
  end.

Fixpoint run (ops : list Op) (c : Camera) : Fault + Camera * list StreamEvent :=
  match ops with
  | [] => inr (c, [])
  | o :: ops' =>
    match step o c with
    | inl fault => inl fault
    | inr (c1, evs1) =>
      match run ops' c1 with
      | inl fault => inl fault
      | inr (c2, evs2) => inr (c2, evs1 ++ evs2)
      end
    end
  end.

(** *** Camera parameters *)

(** The values of [CameraParam] that [convertToV4l2CID] names; [OtherParam]
    is any value of the enum that its switch leaves to [default]. *)
Inductive CameraParam : Type :=
| BRIGHTNESS
| CONTRAST
| AUTO_WHITE_BALANCE
| WHITE_BALANCE_TEMPERATURE
| SHARPNESS
| AUTO_EXPOSURE
| ABSOLUTE_EXPOSURE
| AUTO_FOCUS
| ABSOLUTE_FOCUS
| ABSOLUTE_ZOOM
| OtherParam (code : Z).

#[global] Instance CameraParam_eq_dec : EqDecision CameraParam.
Proof. solve_decision. Defined.

(** The V4L2 control ids, by name; their numbers are in the kernel headers. *)
Inductive V4l2Cid : Type :=
| V4L2_CID_BASE
| V4L2_CID_BRIGHTNESS
| V4L2_CID_CONTRAST
| V4L2_CID_AUTO_WHITE_BALANCE
| V4L2_CID_WHITE_BALANCE_TEMPERATURE
| V4L2_CID_SHARPNESS
| V4L2_CID_EXPOSURE_AUTO
| V4L2_CID_EXPOSURE_ABSOLUTE
| V4L2_CID_FOCUS_AUTO
| V4L2_CID_FOCUS_ABSOLUTE
| V4L2_CID_ZOOM_ABSOLUTE.

(** [mCameraInfo->controls], a map from a parameter to its (min, max, step),
    as the pairs its iteration yields: every key once. *)
Definition Controls : Type := list (CameraParam * (Z * Z * Z)).

(** [controls.find(id)]; [None] is [controls.end()]. *)
Definition controls_find (id : CameraParam) (controls : Controls) : option (Z * Z * Z) :=
  (fun found => found.2.2) <$> list_find (fun kv => kv.1 = id) controls.

(** [controls[id]]: a key the map does not have is inserted with a
    value-initialised tuple.  Where the new pair falls in the iteration is
    up to the container; it is put last here. *)
Definition controls_at (id : CameraParam) (controls : Controls) : Z * Z * Z * Controls :=
  match controls_find id controls with
  | Some range => (range, controls)
  | None => ((0, 0, 0), controls ++ [(id, (0, 0, 0))])
  end.

(** [VideoCapture::setParameter] and [VideoCapture::getParameter] pass a
    [v4l2_control] to the device: the answer is the status of the [ioctl]
    and [control.value] as the call leaves it. *)
Record Video : Type := {
  video_setParameter : V4l2Cid -> Z -> Z * Z;
  video_getParameter : V4l2Cid -> Z -> Z * Z
}.

Inductive ParamEvent : Type :=
| ParamLogE (msg : string)
| Video_setParameter (id : V4l2Cid) (value : Z)
| Video_getParameter (id : V4l2Cid) (value : Z).

(** [v4l2cid] is passed by reference: the answer carries its value after
    the call. *)
Definition convertToV4l2CID (id : CameraParam) (v4l2cid : V4l2Cid)
    (mCameraInfo : option Controls) : bool * V4l2Cid * list ParamEvent :=
  let named :=
    match id with
    | BRIGHTNESS => Some V4L2_CID_BRIGHTNESS
    | CONTRAST => Some V4L2_CID_CONTRAST
    | AUTO_WHITE_BALANCE => Some V4L2_CID_AUTO_WHITE_BALANCE
    | WHITE_BALANCE_TEMPERATURE => Some V4L2_CID_WHITE_BALANCE_TEMPERATURE
    | SHARPNESS => Some V4L2_CID_SHARPNESS
    | AUTO_EXPOSURE => Some V4L2_CID_EXPOSURE_AUTO
    | ABSOLUTE_EXPOSURE => Some V4L2_CID_EXPOSURE_ABSOLUTE
    | AUTO_FOCUS => Some V4L2_CID_FOCUS_AUTO
    | ABSOLUTE_FOCUS => Some V4L2_CID_FOCUS_ABSOLUTE
    | ABSOLUTE_ZOOM => Some V4L2_CID_ZOOM_ABSOLUTE
    | OtherParam _ => None
    end in
  match named with
  | None => (false, v4l2cid, [ParamLogE "Camera parameter %u is unknown."])
  | Some cid =>
    (match mCameraInfo with
     | Some controls => bool_decide (is_Some (controls_find id controls))
     | None => false
     end, cid, [])
  end.

(** [getParameterList]: the keys of the controls, in iteration order. *)
Definition getParameterList (mCameraInfo : option Controls) : list CameraParam :=
  match mCameraInfo with
  | Some controls => controls.*1
  | None => []
  end.

(** [getIntParameterRange]: the range handed to the callback, and the
    controls after the call. *)
Definition getIntParameterRange (id : CameraParam) (mCameraInfo : option Controls)
  : Z * Z * Z * option Controls :=
  match mCameraInfo with
  | Some controls =>
    let '(range, controls') := controls_at id controls in (range, Some controls')
  | None => ((0, 0, 0), None)
  end.

(** [setIntParameter]: the result and the values handed to the callback,
    and the calls made.  [values.resize(1)] gives one zero. *)
Definition setIntParameter (V : Video) (id : CameraParam) (value : Z)
    (mCameraInfo : option Controls) : EvsResult * list Z * list ParamEvent :=
  let '(found, v4l2cid, log) := convertToV4l2CID id V4L2_CID_BASE mCameraInfo in
  if negb found then (INVALID_ARG, [0], log)
  else
    let '(status, value1) := video_setParameter V v4l2cid value in
    if status <? 0 then
      (UNDERLYING_SERVICE_ERROR, [value1], log ++ [Video_setParameter v4l2cid value])
    else
      let '(status', value2) := video_getParameter V v4l2cid value1 in
      (if status' <? 0 then UNDERLYING_SERVICE_ERROR else OK, [value2],
       log ++ [Video_setParameter v4l2cid value; Video_getParameter v4l2cid value1]).

Definition getIntParameter (V : Video) (id : CameraParam)
    (mCameraInfo : option Controls) : EvsResult * list Z * list ParamEvent :=
  let '(found, v4l2cid, log) := convertToV4l2CID id V4L2_CID_BASE mCameraInfo in
  if negb found then (INVALID_ARG, [0], log)
  else
    let '(status, value1) := video_getParameter V v4l2cid 0 in
    (if status <? 0 then INVALID_ARG else OK, [value1],
     log ++ [Video_getParameter v4l2cid 0]).

(** The calls that reach the video device. *)
Definition device_calls (evs : list ParamEvent) : list ParamEvent :=
  evs ≫= fun e => match e with ParamLogE _ => [] | _ => [e] end.

(** The parameters the switch of [convertToV4l2CID] names. *)
Definition named (id : CameraParam) : Prop :=
  match id with OtherParam _ => False | _ => True end.

(** A device that takes every value and reads it back. *)
Definition willing_video : Video :=
  {| video_setParameter := fun _ value => (0, value);
     video_getParameter := fun _ value => (0, value) |}.

End EvsV4lCamera.

(** ** The HIDL data of the surround view service *)

Module Sv.

Inductive SvResult : Type :=
| OK
| VIEW_NOT_SET
| INVALID_ARG
| INTERNAL_ERROR.

#[global] Instance SvResult_eq_dec : EqDecision SvResult.
Proof. solve_decision. Defined.

(** The events the session sends to its client. *)
Inductive SvEvent : Type :=
| STREAM_STARTED
| STREAM_STOPPED
| FRAME_DROPPED
| CONFIG_UPDATED.

End Sv.

(** ** SurroundViewService: the owner of the one 2d and the one 3d session *)

Module SurroundViewService.
Import Sv.

(** A session object, by identity; [sp<...>] is [option Session] with
    [None] for [nullptr].  2d and 3d sessions are objects of different
    classes, each counted by itself: [made2d] and [made3d] are the numbers
    of objects [new] has made so far, and the next object is named by that
    number. *)
Definition Session : Type := nat.

Record State : Type := {
  sSurroundView2dSession : option Session;
  sSurroundView3dSession : option Session;
  made2d : nat;
  made3d : nat
}.

Inductive Log : Type :=
| LogWarning (msg : string)
| LogError (msg : string).

(** A service that has started no session yet. *)
Definition initial : State :=
  {| sSurroundView2dSession := None; sSurroundView3dSession := None;
     made2d := 0; made3d := 0 |}.

(** [start2dSession]: the session and the result handed to the callback.
    [initialize] is the answer of [SurroundView2dSession::initialize]. *)
Definition start2dSession (initialize : bool) (s : State)
  : option Session * SvResult * State * list Log :=
  match sSurroundView2dSession s with
  | Some _ =>
    (None, INTERNAL_ERROR, s,
     [LogWarning "Only one 2d session is supported at the same time"])
  | None =>
    let s' := {| sSurroundView2dSession := Some (made2d s);
                 sSurroundView3dSession := sSurroundView3dSession s;
                 made2d := S (made2d s); made3d := made3d s |} in
    if initialize then (sSurroundView2dSession s', OK, s', [])
    else (None, INTERNAL_ERROR, s', [])
  end.

Definition stop2dSession (sv2dSession : option Session) (s : State)
  : SvResult * State * list Log :=
  if bool_decide (sv2dSession <> None /\ sv2dSession = sSurroundView2dSession s) then
    (OK, {| sSurroundView2dSession := None;
            sSurroundView3dSession := sSurroundView3dSession s;
            made2d := made2d s; made3d := made3d s |}, [])
  else (INVALID_ARG, s, [LogError "stop2dSession: Invalid argument"]).

(** [start3dSession]; [initialize] is the answer of
    [SurroundView3dSession::initialize]. *)
Definition start3dSession (initialize : bool) (s : State)
  : option Session * SvResult * State * list Log :=
  match sSurroundView3dSession s with
  | Some _ =>
    (None, INTERNAL_ERROR, s,
     [LogWarning "Only one 3d session is supported at the same time"])
  | None =>
    let s' := {| sSurroundView2dSession := sSurroundView2dSession s;
                 sSurroundView3dSession := Some (made3d s);
                 made2d := made2d s; made3d := S (made3d s) |} in
    if initialize then (sSurroundView3dSession s', OK, s', [])
    else (None, INTERNAL_ERROR, s', [])
  end.

Definition stop3dSession (sv3dSession : option Session) (s : State)
  : SvResult * State * list Log :=
  if bool_decide (sv3dSession <> None /\ sv3dSession = sSurroundView3dSession s) then
    (OK, {| sSurroundView2dSession := sSurroundView2dSession s;
            sSurroundView3dSession := None;
            made2d := made2d s; made3d := made3d s |}, [])
  else (INVALID_ARG, s, [LogError "stop3dSession: Invalid argument"]).

(** *** Sequences of calls on the service *)

Inductive Op : Type :=
| Start2d (initialize : bool)
| Stop2d (sv2dSession : option Session)
| Start3d (initialize : bool)
| Stop3d (sv3dSession : option Session).

(** What the caller gets: the session of the callback ([None] for a stop)
    and the result. *)
Definition Answer : Type := option Session * SvResult.

Definition step (o : Op) (s : State) : Answer * State :=
  match o with
  | Start2d initialize => (start2dSession initialize s).1
  | Stop2d sv2dSession => (None, (stop2dSession sv2dSession s).1.1, (stop2dSession sv2dSession s).1.2)
  | Start3d initialize => (start3dSession initialize s).1
  | Stop3d sv3dSession => (None, (stop3dSession sv3dSession s).1.1, (stop3dSession sv3dSession s).1.2)
  end.

Fixpoint run (ops : list Op) (s : State) : list Answer * State :=
  match ops with
  | [] => ([], s)
  | o :: ops' =>
    let '(a, s1) := step o s in
    let '(answers, s2) := run ops' s1 in
    (a :: answers, s2)
  end.

(** The 3d session a call hands to its caller, if it hands one out. *)
Definition handed3d (o : Op) (s : State) : list Session :=
  match o with
  | Start3d _ => match (step o s).1.1 with Some session => [session] | None => [] end
  | _ => []
  end.

(** Callers that give [stop3dSession] only what they were given: a null
    session, or a 3d session that some [start3dSession] handed out before
    ([known]). *)
Fixpoint honest (known : list Session) (ops : list Op) (s : State) : Prop :=
  match ops with
  | [] => True
  | o :: ops' =>
    match o with
    | Stop3d (Some session) => session ∈ known
    | _ => True
    end /\ honest (known ++ handed3d o s) ops' (step o s).2
  end.

(** The 3d sessions the callers know after a sequence of calls. *)
Fixpoint known_after (known : list Session) (ops : list Op) (s : State) : list Session :=
  match ops with
  | [] => known
  | o :: ops' => known_after (known ++ handed3d o s) ops' (step o s).2
  end.

End SurroundViewService.

(** ** SurroundView3dSession: one 3d session, its cameras and its stream *)

Module SurroundView3dSession.
Import Machine.

(** What ends a call before it returns: a read outside [data.i32], a call
    through a null pointer, and [std::terminate] (the assignment of a new
    thread to a [std::thread] that is still joinable). *)
Inductive Fault : Type :=
| OutOfBounds (index size : nat)
| NullPointer
| Terminated.

(** A call returns a value, ends in a fault, or ([None]) has not come to an
    end within the steps granted to its loop. *)
Definition Outcome (A : Type) : Type := option (Fault + A).

Definition ret {A : Type} (a : A) : Outcome A := Some (inr a).
Definition fail {A : Type} (f : Fault) : Outcome A := Some (inl f).

Definition andThen {A B : Type} (m : Outcome A) (k : A -> Outcome B) : Outcome B :=
  match m with
  | Some (inr a) => k a
  | Some (inl f) => Some (inl f)
  | None => None
  end.

(** *** setupEvs: choosing the stream of the cameras *)

(** [RawStreamConfig]: six [int32_t], 24 bytes. *)
Record RawStreamConfig : Type := {
  id : Z;
  width : Z;
  height : Z;
  format : Z;
  direction : Z;
  framerate : Z
}.

Definition kStreamCfgSz : Z := 24.
Definition kNumFrames : nat := 4.

Definition ANDROID_SCALER_AVAILABLE_STREAM_CONFIGURATIONS_OUTPUT : Z := 0.

(** The entry that [find_camera_metadata_entry] fills in: the array
    [data.i32] and [count]. *)
Record camera_metadata_entry_t : Type := {
  data_i32 : list Z;
  count : Z
}.

(** The [Stream] asked of the camera, as far as the code sets it; [width]
    and [height] are [uint32_t].  [new Stream()] is all zero. *)
Record Stream : Type := {
  stream_id : Z;
  stream_width : Z;
  stream_height : Z;
  stream_format : Z
}.

Record Target : Type := {
  foundCfg : bool;
  targetCfg : Stream;
  maxArea : Z
}.

Definition noTarget : Target :=
  {| foundCfg := false;
     targetCfg := {| stream_id := 0; stream_width := 0; stream_height := 0;
                     stream_format := 0 |};
     maxArea := 0 |}.

(** A field of [*ptr], where [ptr] has moved [ptr] configurations from the
    start of the array: field [j] is the value at [6 * ptr + j] of
    [data.i32].  [k] goes on with the value. *)
Definition read {A : Type} (entry : camera_metadata_entry_t) (ptr j : nat)
    (k : Z -> Fault + A) : Fault + A :=
  match data_i32 entry !! (6 * ptr + j)%nat with
  | Some v => k v
  | None => inl (OutOfBounds (6 * ptr + j) (length (data_i32 entry)))
  end.

(** The body of the loop of [setupEvs]; the area is an [int32_t] product. *)
Definition examine (entry : camera_metadata_entry_t) (ptr : nat) (t : Target)
  : Fault + Target :=
  read entry ptr 4 (fun ptr_direction =>
  if negb (ptr_direction =? ANDROID_SCALER_AVAILABLE_STREAM_CONFIGURATIONS_OUTPUT)
  then inr t else
  read entry ptr 3 (fun ptr_format =>
  if negb (ptr_format =? EvsV4lCamera.HAL_PIXEL_FORMAT_RGBA_8888) then inr t else
  read entry ptr 1 (fun ptr_width =>
  read entry ptr 2 (fun ptr_height =>
  if maxArea t <? wrap_i32 (ptr_width * ptr_height) then
    read entry ptr 0 (fun ptr_id =>
    inr {| foundCfg := true;
           targetCfg := {| stream_id := ptr_id;
                           stream_width := wrap_u32 ptr_width;
                           stream_height := wrap_u32 ptr_height;
                           stream_format := EvsV4lCamera.HAL_PIXEL_FORMAT_RGBA_8888 |};
           maxArea := wrap_i32 (ptr_width * ptr_height) |})
  else inr t)))).

(** The loop [for (unsigned idx = 0; idx < streamCfgs.count; idx += kStreamCfgSz)]
    with [++ptr] at the end of its body. *)
Fixpoint scanStreamCfgs (fuel : nat) (entry : camera_metadata_entry_t)
    (idx : Z) (ptr : nat) (t : Target) : Outcome Target :=
  match fuel with
  | O => None
  | S fuel' =>
    if idx <? count entry then
      match examine entry ptr t with
      | inl f => fail f
      | inr t' => scanStreamCfgs fuel' entry (wrap_u32 (idx + kStreamCfgSz)) (S ptr) t'
      end
    else ret t
  end.

(** From the metadata to the stream to open; [None] is [foundCfg == false].
    [streamCfgs] is [None] when [find_camera_metadata_entry] finds no entry. *)
Definition chooseStream (streamCfgs : option camera_metadata_entry_t)
  : Outcome (option Stream) :=
  match streamCfgs with
  | Some entry =>
    andThen (scanStreamCfgs (S (Z.to_nat (count entry))) entry 0 0 noTarget)
      (fun t => ret (if foundCfg t then Some (targetCfg t) else None))
  | None => ret None
  end.

(** A [CameraDesc] as [setupEvs] reads it: the id, and the entry of the
    stream configurations in its metadata, if it has one. *)
Record CameraDesc : Type := {
  cameraId : string;
  streamConfigurations : option camera_metadata_entry_t
}.

Definition Camera : Type := nat.
Definition SvStream : Type := nat.
Definition View3d : Type := nat.

Inductive SvQuality : Type :=
| HIGH
| LOW.

Record Sv3dConfig : Type := {
  config_width : Z;
  config_height : Z;
  carDetails : SvQuality
}.

(** What a session sees of the objects around it: the EVS enumerator, the
    camera utilities, the configuration of the IO module, the VHAL handler
    ([None] is [nullptr], [Some b] answers [b] to [startPropertiesUpdate]),
    the graphic buffer of the output texture, and the camera. *)
Record World : Type := {
  getCameraList_1_1 : list CameraDesc;
  openCamera_1_1 : string -> Stream -> option Camera;
  getAndroidCameraParams : Camera -> string -> bool;
  evsGroupId : string;
  evsCameraIds : list string;
  resolution : Z * Z;
  mVhalHandler : option bool;
  texture_initCheck : bool;
  camera_startVideoStream : EvsResult
}.

Inductive StreamStateValues : Type :=
| STOPPED
| RUNNING
| STOPPING.

#[global] Instance StreamStateValues_eq_dec : EqDecision StreamStateValues.
Proof. solve_decision. Defined.

(** [mProcessThread] and the thread it stands for: no thread yet (not
    joinable); a thread at the start of [processFrames], at the top of its
    loop, in the wait for frames, in [handleFrames]; a thread that has
    returned.  Nothing but the destructor joins the thread, so it stays
    joinable once it is made. *)
Inductive Thread : Type :=
| NoThread
| Starting
| Looping
| Waiting
| Handling
| Returned.

(** The fields that decide how a stream starts and stops; the frame
    buffers and the output texture are left out.  [mSequenceId] is taken
    as an [int], the type [handleFrames] receives it with. *)
Record State : Type := {
  mIsInitialized : bool;
  mStreamState : StreamStateValues;
  mViews : list View3d;
  mStream : option SvStream;
  mSequenceId : Z;
  mProcessingEvsFrames : bool;
  mConfig : Sv3dConfig;
  mCameraDesc : CameraDesc;
  mCamera : option Camera;
  mCameraSize : option (Z * Z);
  mProcessThread : Thread
}.

(** Errors and warnings of the log, and the calls that leave the session. *)
Inductive Event : Type :=
| LogE (msg : string)
| LogW (msg : string)
| Evs_openCamera_1_1 (camId : string) (target : Stream)
| CameraUtils_getAndroidCameraParams (camId : string)
| Camera_startVideoStream
| Camera_stopVideoStream
| Camera_doneWithFrame_1_1 (buffers : list BufferDesc_1_1)
| Vhal_startPropertiesUpdate
| Vhal_stopPropertiesUpdate
| Stream_notify (stream : SvStream) (event : Sv.SvEvent)
| CopyFromBufferToPointers (i : nat)
| FramesSignal_notify_all
| HandleFrames (sequenceId : Z)
| Thread_processFrames.

(** The session the constructor makes. *)
Definition construct : State :=
  {| mIsInitialized := false; mStreamState := STOPPED; mViews := []; mStream := None;
     mSequenceId := 0; mProcessingEvsFrames := false;
     mConfig := {| config_width := 0; config_height := 0; carDetails := HIGH |};
     mCameraDesc := {| cameraId := EmptyString; streamConfigurations := None |};
     mCamera := None; mCameraSize := None; mProcessThread := NoThread |}.

Definition set_cameras (s : State) (desc : CameraDesc) (camera : option Camera)
    (size : option (Z * Z)) : State :=
  {| mIsInitialized := mIsInitialized s; mStreamState := mStreamState s;
     mViews := mViews s; mStream := mStream s; mSequenceId := mSequenceId s;
     mProcessingEvsFrames := mProcessingEvsFrames s; mConfig := mConfig s;
     mCameraDesc := desc; mCamera := camera; mCameraSize := size;
     mProcessThread := mProcessThread s |}.

Definition set_config (s : State) (initialized : bool) (config : Sv3dConfig) : State :=
  {| mIsInitialized := initialized; mStreamState := mStreamState s;
     mViews := mViews s; mStream := mStream s; mSequenceId := mSequenceId s;
     mProcessingEvsFrames := mProcessingEvsFrames s; mConfig := config;
     mCameraDesc := mCameraDesc s; mCamera := mCamera s; mCameraSize := mCameraSize s;
     mProcessThread := mProcessThread s |}.

Definition set_views (s : State) (views : list View3d) : State :=
  {| mIsInitialized := mIsInitialized s; mStreamState := mStreamState s;
     mViews := views; mStream := mStream s; mSequenceId := mSequenceId s;
     mProcessingEvsFrames := mProcessingEvsFrames s; mConfig := mConfig s;
     mCameraDesc := mCameraDesc s; mCamera := mCamera s; mCameraSize := mCameraSize s;
     mProcessThread := mProcessThread s |}.

Definition set_stream (s : State) (state : StreamStateValues) (stream : option SvStream)
    (thread : Thread) : State :=
  {| mIsInitialized := mIsInitialized s; mStreamState := state;
     mViews := mViews s; mStream := stream; mSequenceId := mSequenceId s;
     mProcessingEvsFrames := mProcessingEvsFrames s; mConfig := mConfig s;
     mCameraDesc := mCameraDesc s; mCamera := mCamera s; mCameraSize := mCameraSize s;
     mProcessThread := thread |}.

Definition set_frames (s : State) (sequenceId : Z) (processing : bool) : State :=
  {| mIsInitialized := mIsInitialized s; mStreamState := mStreamState s;
     mViews := mViews s; mStream := mStream s; mSequenceId := sequenceId;
     mProcessingEvsFrames := processing; mConfig := mConfig s;
     mCameraDesc := mCameraDesc s; mCamera := mCamera s; mCameraSize := mCameraSize s;
     mProcessThread := mProcessThread s |}.

(** The loop of [setupEvs] over the physical cameras: the first camera
    whose parameters cannot be fetched ends it. *)
Fixpoint fetchParams (E : World) (camera : Camera) (ids : list string)
  : bool * list Event :=
  match ids with
  | [] => (true, [])
  | camId :: ids' =>
    if getAndroidCameraParams E camera camId then
      let '(ok, evs) := fetchParams E camera ids' in
      (ok, CameraUtils_getAndroidCameraParams camId :: evs)
    else
      (false, [CameraUtils_getAndroidCameraParams camId;
               LogE "Failed to get camera parameters for physical camera: "])
  end.

Definition setupEvs (E : World) (s : State) : Outcome (bool * State * list Event) :=
  let desc :=
    fold_left (fun desc cam => if bool_decide (cameraId cam = evsGroupId E) then cam else desc)
              (getCameraList_1_1 E) (mCameraDesc s) in
  let s1 := set_cameras s desc (mCamera s) (mCameraSize s) in
  let warn :=
    match streamConfigurations desc with
    | Some _ => []
    | None => [LogW "No stream configuration data is found; default parameters will be used."]
    end in
  andThen (chooseStream (streamConfigurations desc)) (fun target =>
  match target with
  | None => ret (false, s1, warn)
  | Some targetCfg =>
    let camera := openCamera_1_1 E (cameraId desc) targetCfg in
    let s2 := set_cameras s1 desc camera (mCameraSize s1) in
    let opened := warn ++ [Evs_openCamera_1_1 (cameraId desc) targetCfg] in
    match camera with
    | None => ret (false, s2, opened ++ [LogE "Failed to allocate EVS Camera interface for "])
    | Some cam =>
      let '(ok, evs) := fetchParams E cam (evsCameraIds E) in
      if ok then
        ret (true,
             set_cameras s2 desc camera (Some (stream_width targetCfg, stream_height targetCfg)),
             opened ++ evs)
      else ret (false, s2, opened ++ evs)
    end
  end).

Definition initialize (E : World) (s : State) : Outcome (bool * State * list Event) :=
  andThen (setupEvs E s) (fun '(ok, s1, evs) =>
  if negb ok then
    ret (false, s1, evs ++ [LogE "Failed to setup EVS components for 3d session"])
  else
    let config := {| config_width := (resolution E).1; config_height := (resolution E).2;
                     carDetails := HIGH |} in
    if texture_initCheck E then ret (true, set_config s1 true config, evs)
    else ret (false, set_config s1 (mIsInitialized s1) config,
              evs ++ [LogE "Failed to allocate Graphic Buffer"])).

(** [startEvs]; its answer is not looked at by [startStream]. *)
Definition startEvs (E : World) (s : State) : Outcome (list Event) :=
  match mCamera s with
  | None => fail NullPointer
  | Some _ =>
    ret (Camera_startVideoStream ::
         if bool_decide (camera_startVideoStream E = OK) then []
         else [LogE "Failed to start video stream"])
  end.

Definition startStream (E : World) (stream : option SvStream) (s : State)
  : Outcome (Sv.SvResult * State * list Event) :=
  andThen (if mIsInitialized s then ret (true, s, []) else initialize E s)
  (fun '(initialized, s, evs) =>
  if negb initialized then
    ret (Sv.INTERNAL_ERROR, s,
         evs ++ [LogE "There is an error while initializing the use case. Exiting"])
  else if negb (bool_decide (mStreamState s = STOPPED)) then
    ret (Sv.INTERNAL_ERROR, s,
         evs ++ [LogE "Ignoring startVideoStream call when a stream is already running."])
  else if bool_decide (mViews s = []) then
    ret (Sv.VIEW_NOT_SET, s,
         evs ++ [LogE "No views have been set for current Surround View3d Session. Please call setViews before startingthe stream."])
  else
    match stream with
    | None => ret (Sv.INTERNAL_ERROR, s, evs ++ [LogE "The input stream is invalid"])
    | Some client =>
      let s1 := set_frames (set_stream s (mStreamState s) stream (mProcessThread s)) 0
                           (mProcessingEvsFrames s) in
      andThen (startEvs E s1) (fun evs1 =>
      let vhal :=
        match mVhalHandler E with
        | Some started =>
          Vhal_startPropertiesUpdate ::
          if started then [] else [LogW "VhalHandler cannot be started properly"]
        | None => [LogW "VhalHandler is null. Ignored"]
        end in
      let evs2 := evs ++ evs1 ++ vhal ++ [Stream_notify client Sv.STREAM_STARTED] in
      match mProcessThread s1 with
      | NoThread =>
        ret (Sv.OK, set_stream (set_frames s1 0 false) RUNNING stream Starting,
             evs2 ++ [Thread_processFrames])
      | _ => fail Terminated
      end)
    end).

Definition stopStream (E : World) (s : State) : Outcome (State * list Event) :=
  let vhal :=
    match mVhalHandler E with
    | Some _ => [Vhal_stopPropertiesUpdate]
    | None => [LogW "VhalHandler is null. Ignored"]
    end in
  if bool_decide (mStreamState s = RUNNING) then
    match mCamera s with
    | None => fail NullPointer
    | Some _ =>
      ret (set_stream s STOPPING (mStream s) (mProcessThread s),
           vhal ++ [Camera_stopVideoStream])
    end
  else ret (s, vhal).

Definition setViews (views : list View3d) (s : State) : Sv.SvResult * State :=
  (Sv.OK, set_views s views).

Definition set3dConfig (sv3dConfig : Sv3dConfig) (s : State)
  : Sv.SvResult * State * list Event :=
  if (config_width sv3dConfig <=? 0) || (4096 <? config_width sv3dConfig) then
    (Sv.INVALID_ARG, s, [LogW "The width of 3d config is out of the range (0, 4096]Ignored!"])
  else if (config_height sv3dConfig <=? 0) || (4096 <? config_height sv3dConfig) then
    (Sv.INVALID_ARG, s, [LogW "The height of 3d config is out of the range (0, 4096]Ignored!"])
  else
    (Sv.OK, set_config s (mIsInitialized s) sv3dConfig,
     match mStream s with
     | Some client => [Stream_notify client Sv.CONFIG_UPDATED]
     | None => []
     end).

(** [FramesHandler::deliverFrame_1_1], on the session of the handler. *)
Definition deliverFrame_1_1 (buffers : list BufferDesc_1_1) (s : State)
  : State * list Event :=
  let s1 := set_frames s (wrap_i32 (mSequenceId s + 1)) (mProcessingEvsFrames s) in
  if mProcessingEvsFrames s1 then
    (s1, [LogW "EVS frames are being processed. Skip frames:";
          Camera_doneWithFrame_1_1 buffers])
  else if negb (length buffers =? kNumFrames)%nat then
    (s1, [LogE "The number of incoming frames is , which is different from the number , specified in config file"])
  else
    (set_frames s1 (mSequenceId s1) true,
     (CopyFromBufferToPointers <$> seq 0 kNumFrames)
     ++ [Camera_doneWithFrame_1_1 buffers; FramesSignal_notify_all]).

(** *** The thread of [processFrames], step by step *)

(** The answer of [Start3dPipeline] at the start of the thread. *)
Definition processFrames_start (started : bool) (s : State) : State * list Event :=
  match mProcessThread s with
  | Starting =>
    if started then (set_stream s (mStreamState s) (mStream s) Looping, [])
    else (set_stream s (mStreamState s) (mStream s) Returned, [LogE "Start3dPipeline failed"])
  | _ => (s, [])
  end.

(** One step of the thread in its loop.  At the top it leaves the loop
    when the stream is no longer RUNNING and goes to wait otherwise; the
    wait ends when a set of frames is there, with a call of [handleFrames];
    after that call the thread clears [mProcessingEvsFrames] and is at the
    top again. *)
Definition processFrames_turn (s : State) : Outcome (State * list Event) :=
  match mProcessThread s with
  | Looping =>
    if negb (bool_decide (mStreamState s = RUNNING)) then
      match mStream s with
      | None => fail NullPointer
      | Some client =>
        ret (set_stream s STOPPED None Returned, [Stream_notify client Sv.STREAM_STOPPED])
      end
    else ret (set_stream s (mStreamState s) (mStream s) Waiting, [])
  | Waiting =>
    if mProcessingEvsFrames s then
      ret (set_stream s (mStreamState s) (mStream s) Handling, [HandleFrames (mSequenceId s)])
    else ret (s, [])
  | Handling =>
    ret (set_stream (set_frames s (mSequenceId s) false) (mStreamState s) (mStream s) Looping,
         [])
  | _ => ret (s, [])
  end.

(** *** Sequences of calls on one session *)

Inductive Op : Type :=
| StartStream (stream : option SvStream)
| StopStream
| SetViews (views : list View3d)
| Set3dConfig (sv3dConfig : Sv3dConfig)
| DeliverFrame_1_1 (buffers : list BufferDesc_1_1)
| ProcessFrames_start (started : bool)
| ProcessFrames_turn.

(** The result a call hands back, for the calls that have one. *)
Definition step (E : World) (o : Op) (s : State)
  : Outcome (option Sv.SvResult * State * list Event) :=
  match o with
  | StartStream stream =>
    andThen (startStream E stream s) (fun '(r, s', evs) => ret (Some r, s', evs))
  | StopStream => andThen (stopStream E s) (fun '(s', evs) => ret (None, s', evs))
  | SetViews views => ret (Some (setViews views s).1, (setViews views s).2, [])
  | Set3dConfig sv3dConfig =>
    let '(r, s', evs) := set3dConfig sv3dConfig s in ret (Some r, s', evs)
  | DeliverFrame_1_1 buffers =>
    let '(s', evs) := deliverFrame_1_1 buffers s in ret (None, s', evs)
  | ProcessFrames_start started =>
    let '(s', evs) := processFrames_start started s in ret (None, s', evs)
  | ProcessFrames_turn =>
    andThen (processFrames_turn s) (fun '(s', evs) => ret (None, s', evs))
  end.

(** The results of the calls that came to an end, and how the sequence
    ended. *)
Fixpoint run (E : World) (ops : list Op) (s : State)
  : list (option Sv.SvResult) * Outcome State :=
  match ops with
  | [] => ([], ret s)
  | o :: ops' =>
    match step E o s with
    | Some (inr (r, s1, _)) =>
      let '(results, final) := run E ops' s1 in (r :: results, final)
    | Some (inl f) => ([], fail f)
    | None => ([], None)
    end
  end.

(** *** The configurations as the metadata holds them *)

Definition encode (cfgs : list RawStreamConfig) : list Z :=
  cfgs ≫= fun cfg => [id cfg; width cfg; height cfg; format cfg; direction cfg; framerate cfg].

(** An entry whose [count] is the number of [int32_t] values, six to a
    configuration. *)
Definition entry_of (cfgs : list RawStreamConfig) : camera_metadata_entry_t :=
  {| data_i32 := encode cfgs; count := 6 * Z.of_nat (length cfgs) |}.

(** The choice the comment of [setupEvs] describes, over a list of
    configurations: the first of the largest area among the RGBA output
    streams. *)
Definition better (t : Target) (cfg : RawStreamConfig) : Target :=
  if (direction cfg =? ANDROID_SCALER_AVAILABLE_STREAM_CONFIGURATIONS_OUTPUT)
     && (format cfg =? EvsV4lCamera.HAL_PIXEL_FORMAT_RGBA_8888)
     && (maxArea t <? wrap_i32 (width cfg * height cfg))
  then {| foundCfg := true;
          targetCfg := {| stream_id := id cfg;
                          stream_width := wrap_u32 (width cfg);
                          stream_height := wrap_u32 (height cfg);
                          stream_format := EvsV4lCamera.HAL_PIXEL_FORMAT_RGBA_8888 |};
          maxArea := wrap_i32 (width cfg * height cfg) |}
  else t.

Definition largest (cfgs : list RawStreamConfig) : option Stream :=
  let t := fold_left better cfgs noTarget in
  if foundCfg t then Some (targetCfg t) else None.

(** How many of [n] configurations the loop looks at. *)
Definition examined (n : nat) : nat := Z.to_nat ((Z.of_nat n + 3) / 4).

(** *** Concrete cameras and worlds, for the examples *)

Definition stream_config (cfg_id cfg_width cfg_height cfg_format : Z) : RawStreamConfig :=
  {| id := cfg_id; width := cfg_width; height := cfg_height; format := cfg_format;
     direction := ANDROID_SCALER_AVAILABLE_STREAM_CONFIGURATIONS_OUTPUT; framerate := 30 |}.

(** A camera group with four output streams: one YUV stream, then three
    RGBA streams. *)
Definition four_streams : list RawStreamConfig :=
  [stream_config 0 640 480 17; stream_config 1 1280 720 1;
   stream_config 2 1920 1080 1; stream_config 3 640 480 1].

Definition group0 : CameraDesc :=
  {| cameraId := "group0"; streamConfigurations := Some (entry_of four_streams) |}.

(** A world in which every call from the session succeeds. *)
Definition obliging_world (cameras : list CameraDesc) : World :=
  {| getCameraList_1_1 := cameras;
     openCamera_1_1 := fun _ _ => Some 0%nat;
     getAndroidCameraParams := fun _ _ => true;
     evsGroupId := "group0";
     evsCameraIds := ["0"; "1"; "2"; "3"];
     resolution := (1024, 768);
     mVhalHandler := Some true;
     texture_initCheck := true;
     camera_startVideoStream := OK |}.

(** A session that is initialized and has a view, before its first stream. *)
Definition ready_session : State :=
  {| mIsInitialized := true; mStreamState := STOPPED; mViews := [0%nat]; mStream := None;
     mSequenceId := 0; mProcessingEvsFrames := false;
     mConfig := {| config_width := 1024; config_height := 768; carDetails := HIGH |};
     mCameraDesc := group0; mCamera := Some 0%nat; mCameraSize := Some (640, 480);
     mProcessThread := NoThread |}.

End SurroundView3dSession.

(** Unfolding the plumbing of a broker method. *)
Ltac unfold_monad :=
  cbv [mbind HalCamera.M_bind mret HalCamera.M_ret HalCamera.gets HalCamera.modify
       HalCamera.call HalCamera.when].

(** * Properties *)

(** ** Fixed-width integers *)

Section MachineFacts.
Import Machine.

Lemma wrap_u32_small z : 0 <= z <= UINT32_MAX -> wrap_u32 z = z.
Proof. unfold wrap_u32, UINT32_MAX. intros. apply Z.mod_small. lia. Qed.

Lemma wrap_u32_range z : 0 <= wrap_u32 z <= UINT32_MAX.
Proof.
  unfold wrap_u32, UINT32_MAX.
  pose proof (Z.mod_pos_bound z (2 ^ 32) ltac:(lia)). lia.
Qed.

Lemma wrap_i32_small z : INT32_MIN <= z <= INT32_MAX -> wrap_i32 z = z.
Proof.
  unfold wrap_i32, INT32_MIN, INT32_MAX. intros.
  rewrite Z.mod_small; lia.
Qed.

Lemma wrap_i64_small z : - 2 ^ 63 <= z < 2 ^ 63 -> wrap_i64 z = z.
Proof. unfold wrap_i64. intros. rewrite Z.mod_small; lia. Qed.

End MachineFacts.

(** ** StreamHandler *)

Section StreamHandlerFacts.
Import StreamHandler.

Lemma fresh_slots_ok bufs : slots_ok (fresh bufs).
Proof. unfold slots_ok, slot_index; simpl. lia. Qed.

Lemma deliverFrame_1_1_slots_ok b s :
  slots_ok s -> slots_ok (deliverFrame_1_1 b s).1.
Proof.
  unfold slots_ok, slot_index, deliverFrame_1_1.
  intros (Hr & Hh & Hne).
  destruct (nativeHandle b); simpl; [|done].
  destruct (Z.leb_spec 0 (mReadyBuffer s)); simpl; [done|].
  destruct (Z.leb_spec 0 (mHeldBuffer s)); simpl; lia.
Qed.

Lemma getNewFrame_slots_ok s :
  slots_ok s -> slots_ok (getNewFrame s).1.1.
Proof.
  unfold slots_ok, slot_index, getNewFrame.
  intros (Hr & Hh & Hne).
  destruct (Z.leb_spec 0 (mHeldBuffer s)); simpl; [done|].
  destruct (Z.ltb_spec (mReadyBuffer s) 0); simpl; lia.
Qed.

Lemma doneWithFrame_slots_ok b s :
  slots_ok s -> slots_ok (doneWithFrame b s).1.
Proof. unfold slots_ok, slot_index, doneWithFrame; simpl. lia. Qed.

Lemma step_slots_ok s o : slots_ok s -> slots_ok (step s o).
Proof.
  destruct o as [b| |b]; unfold step.
  - apply deliverFrame_1_1_slots_ok.
  - apply getNewFrame_slots_ok.
  - apply doneWithFrame_slots_ok.
Qed.

Lemma run_slots_ok ops : forall s, slots_ok s -> slots_ok (run s ops).
Proof.
  induction ops as [|o ops IH]; intros s Hs; simpl; [done|].
  apply IH, step_slots_ok, Hs.
Qed.

(** C6.  Whatever sequence of [deliverFrame_1_1], [getNewFrame] and
    [doneWithFrame] calls a new handler goes through, its ready and held
    indices stay in {-1, 0, 1} and never name the same slot: they are never
    equal and non-negative at once. *)
Theorem ready_and_held_never_share_a_slot bufs ops :
  slots_ok (run (fresh bufs) ops).
Proof.
  apply run_slots_ok.
  apply fresh_slots_ok.
Qed.

(** C7, as the spec words it, fails when nothing is ready and nothing is
    held: the spec moves ready (-1) into held, the code holds slot 0. *)
Lemma getNewFrame_invents_slot_0 :
  (mReadyBuffer (getNewFrame (fresh [nullBuffer; nullBuffer])).1.1,
   mHeldBuffer (getNewFrame (fresh [nullBuffer; nullBuffer])).1.1)
  = (-1, 0)
  /\ spec_takeFrame (-1) (-1) = (-1, -1)
  /\ (mReadyBuffer (getNewFrame (fresh [nullBuffer; nullBuffer])).1.1,
      mHeldBuffer (getNewFrame (fresh [nullBuffer; nullBuffer])).1.1)
     <> spec_takeFrame (mReadyBuffer (fresh [nullBuffer; nullBuffer]))
                       (mHeldBuffer (fresh [nullBuffer; nullBuffer])).
Proof.
  split; [reflexivity|].
  split; [reflexivity|].
  simpl. intros H. inversion H.
Qed.

(** C7, amended.  With a frame held, [getNewFrame] logs an error, changes
    nothing and returns the held frame.  With none held it takes the ready
    slot, or slot 0 with a logged error when no frame is ready, makes it
    the held slot, clears ready to -1, leaves the buffers alone and returns
    the frame of the slot now held. *)
Theorem getNewFrame_spec s :
  (0 <= mHeldBuffer s ->
     getNewFrame s =
       (s, [LogError "Ignored call for new frame while still holding the old one."],
        slot s (mHeldBuffer s)))
  /\ (mHeldBuffer s < 0 ->
        let s' := (getNewFrame s).1.1 in
        mHeldBuffer s' = (if mReadyBuffer s <? 0 then 0 else mReadyBuffer s)
        /\ mReadyBuffer s' = -1
        /\ mBuffers s' = mBuffers s
        /\ mRunning s' = mRunning s
        /\ (getNewFrame s).2 = slot s' (mHeldBuffer s')
        /\ ((getNewFrame s).1.2 = [] <-> 0 <= mReadyBuffer s)).
Proof.
  unfold getNewFrame. split; intros Hheld.
  - apply Z.leb_le in Hheld. rewrite Hheld. reflexivity.
  - apply Z.leb_gt in Hheld. rewrite Hheld.
    destruct (Z.ltb_spec (mReadyBuffer s) 0) as [Hr|Hr]; simpl;
      repeat split; try done; lia.
Qed.

End StreamHandlerFacts.

(** ** StreamHandler: what becomes of the frames *)

Section ConsumerFacts.
Import StreamHandler.

Lemma step_effects_state s o : (step_effects s o).1 = step s o.
Proof. by destruct o. Qed.

Lemma step_length s o : length (mBuffers (step s o)) = length (mBuffers s).
Proof.
  destruct o as [b| |b]; cbn [step].
  - unfold deliverFrame_1_1. destruct (nativeHandle b); [|done].
    destruct (0 <=? mReadyBuffer s); [|destruct (0 <=? mHeldBuffer s)];
      cbn [fst mBuffers]; unfold store;
      match goal with |- context [if ?c then _ else _] => destruct c end;
      by rewrite ?length_insert.
  - unfold getNewFrame. destruct (0 <=? mHeldBuffer s); [done|].
    by destruct (mReadyBuffer s <? 0).
  - done.
Qed.

Lemma returned_to_camera_app t1 t2 :
  returned_to_camera (t1 ++ t2) = returned_to_camera t1 ++ returned_to_camera t2.
Proof. unfold returned_to_camera. by rewrite bind_app. Qed.

(** One call of a polite consumer, or one delivery, keeps the account of
    the frames. *)
Lemma step_conserves s o :
  slots_ok s -> length (mBuffers s) = 2%nat -> polite [o] s ->
  taken_in [o] ++ kept s ≡ₚ returned_to_camera (step_effects s o).2 ++ kept (step s o).
Proof.
  intros (Hready & Hheld & Hdiff) Hlen [Hpolite _].
  destruct s as [running bufs held ready]. cbn in *.
  destruct bufs as [|x [|y [|z bufs]]]; try done.
  destruct o as [b| |b]; cbn [step step_effects taken_in mbind list_bind app].
  - unfold deliverFrame_1_1. destruct (nativeHandle b) as [h|]; cbn [app]; [|done].
    destruct Hready as [-> | [-> | ->]], Hheld as [-> | [-> | ->]]; try (exfalso; lia);
      cbn; solve_Permutation.
  - destruct Hready as [-> | [-> | ->]], Hheld as [-> | [-> | ->]]; try (exfalso; lia);
      cbn; try done; solve_Permutation.
  - destruct Hready as [-> | [-> | ->]], Hheld as [-> | [-> | ->]]; try (exfalso; lia);
      cbn; unfold doneWithFrame; cbn;
      match goal with |- context [if ?c then _ else _] => destruct c end;
      cbn; solve_Permutation.
Qed.

Lemma run_effects_conserves ops : forall s,
  slots_ok s -> length (mBuffers s) = 2%nat -> polite ops s ->
  taken_in ops ++ kept s
  ≡ₚ returned_to_camera (run_effects ops s).2 ++ kept (run_effects ops s).1.
Proof.
  induction ops as [|o ops IH]; intros s Hok Hlen Hpolite; [done|].
  destruct Hpolite as [Ho Hrest].
  pose proof (step_conserves s o Hok Hlen (conj Ho I)) as Hstep.
  pose proof (step_effects_state s o) as Hstate.
  cbn [run_effects]. destruct (step_effects s o) as [s1 evs1]. cbn [fst snd] in *. subst s1.
  specialize (IH (step s o) (step_slots_ok s o Hok)
                (eq_trans (step_length s o) Hlen) Hrest).
  destruct (run_effects ops (step s o)) as [s2 evs2]. cbn [fst snd] in *.
  replace (taken_in (o :: ops)) with (taken_in [o] ++ taken_in ops)
    by (unfold taken_in; by rewrite <- bind_app).
  rewrite returned_to_camera_app, <- !(assoc_L (++)).
  rewrite <- IH.
  rewrite (Permutation_app_swap_app (taken_in [o])).
  rewrite (Permutation_app_swap_app (returned_to_camera evs1)).
  apply Permutation_app_head, Hstep.
Qed.

(** No frame is lost and none is invented.  A new handler with two slots
    serves a camera and a polite consumer, in any order of their calls.
    Then the frames delivered with a handle are, counted with repeats,
    exactly the frames given back to the camera together with the one or
    two frames the handler still keeps (ready or held). *)
Theorem frames_are_conserved x y ops :
  polite ops (fresh [x; y]) ->
  taken_in ops
  ≡ₚ returned_to_camera (run_effects ops (fresh [x; y])).2
     ++ kept (run_effects ops (fresh [x; y])).1.
Proof.
  intros Hpolite.
  pose proof (run_effects_conserves ops (fresh [x; y]) (fresh_slots_ok _) eq_refl Hpolite)
    as Hrun.
  by rewrite app_nil_r in Hrun.
Qed.

Lemma frames_are_conserved_witness :
  returned_to_camera
    (run_effects
       [Deliver (HalCamera.frame 1 0); Deliver (HalCamera.frame 2 0); GetNewFrame;
        Deliver (HalCamera.frame 3 0); DoneWithFrame (HalCamera.frame 2 0)]
       (fresh [nullBuffer; nullBuffer])).2
  ++ kept (run_effects
             [Deliver (HalCamera.frame 1 0); Deliver (HalCamera.frame 2 0); GetNewFrame;
              Deliver (HalCamera.frame 3 0); DoneWithFrame (HalCamera.frame 2 0)]
             (fresh [nullBuffer; nullBuffer])).1
  ≡ₚ [Some (HalCamera.frame 1 0); Some (HalCamera.frame 2 0); Some (HalCamera.frame 3 0)].
Proof.
  symmetry.
  refine (frames_are_conserved nullBuffer nullBuffer
            [Deliver (HalCamera.frame 1 0); Deliver (HalCamera.frame 2 0); GetNewFrame;
             Deliver (HalCamera.frame 3 0); DoneWithFrame (HalCamera.frame 2 0)] _).
  cbn. repeat split; lia.
Defined.

End ConsumerFacts.

(** ** The frame tracker of HalCamera *)

Section TrackerFacts.
Import Machine HalCamera.

Lemma find_index_le {A} (p : A -> bool) v : (find_index p v <= length v)%nat.
Proof. induction v as [|x v IH]; simpl; [lia|]. destruct (p x); simpl; lia. Qed.

Lemma find_index_lookup {A} (p : A -> bool) v x :
  v !! find_index p v = Some x -> p x = true.
Proof.
  induction v as [|y v IH]; simpl; [done|].
  destruct (p y) eqn:Hy; simpl; [congruence|auto].
Qed.

Lemma find_index_before {A} (p : A -> bool) v j y :
  (j < find_index p v)%nat -> v !! j = Some y -> p y = false.
Proof.
  revert j. induction v as [|x v IH]; intros j; simpl; [lia|].
  destruct (p x) eqn:Hx; [lia|].
  destruct j as [|j]; simpl; [congruence|].
  intros Hj. apply IH. lia.
Qed.

Lemma find_index_first {A} (p : A -> bool) v j x :
  v !! j = Some x -> p x = true ->
  (forall k y, (k < j)%nat -> v !! k = Some y -> p y = false) ->
  find_index p v = j.
Proof.
  revert j. induction v as [|z v IH]; intros j; simpl; [done|].
  destruct j as [|j]; simpl.
  - intros [= ->] -> _. done.
  - intros Hj Hx Hbefore.
    rewrite (Hbefore 0%nat z) by (simpl; done || lia).
    f_equal. apply IH; [done..|].
    intros k y Hk Hy. apply (Hbefore (S k) y); [lia|done].
Qed.

Lemma find_index_none {A} (p : A -> bool) v :
  v !! find_index p v = None -> find_index p v = length v /\ Forall (fun x => p x = false) v.
Proof.
  induction v as [|x v IH]; simpl; [done|].
  destruct (p x) eqn:Hx; simpl; [done|].
  intros H. destruct (IH H) as [-> HF]. split; [done|]. by constructor.
Qed.

Lemma live_count_cons r frames id :
  live_count (r :: frames) id = (indicator (in_use id r) + live_count frames id)%nat.
Proof.
  unfold live_count, indicator. rewrite filter_cons. destruct (decide (in_use id r)); done.
Qed.

Lemma live_count_app frames1 frames2 id :
  live_count (frames1 ++ frames2) id = (live_count frames1 id + live_count frames2 id)%nat.
Proof. unfold live_count. by rewrite filter_app, length_app. Qed.

Lemma live_count_insert frames i r r' id :
  frames !! i = Some r ->
  (live_count (<[i := r']> frames) id + indicator (in_use id r)
   = live_count frames id + indicator (in_use id r'))%nat.
Proof.
  revert i. induction frames as [|x frames IH]; intros i; [done|].
  destruct i as [|i]; simpl.
  - intros [= ->]. rewrite !live_count_cons. lia.
  - intros Hi. rewrite !live_count_cons. specialize (IH i Hi). lia.
Qed.

Lemma live_count_pos frames j r id :
  frames !! j = Some r -> in_use id r -> (0 < live_count frames id)%nat.
Proof.
  revert j. induction frames as [|x frames IH]; intros j; [done|].
  rewrite live_count_cons. destruct j as [|j]; simpl.
  - intros [= ->] Hr. unfold indicator. rewrite decide_True by done. lia.
  - intros Hj Hr. specialize (IH j Hj Hr). lia.
Qed.

Lemma live_count_witness frames id :
  (0 < live_count frames id)%nat -> exists j r, frames !! j = Some r /\ in_use id r.
Proof.
  induction frames as [|x frames IH]; [unfold live_count; simpl; lia|].
  rewrite live_count_cons. unfold indicator. destruct (decide (in_use id x)) as [Hx|Hx].
  - intros _. by exists 0%nat, x.
  - intros H. destruct IH as (j & r & Hj & Hr); [lia|]. by exists (S j), r.
Qed.

Lemma wrap_ref_small refT z : 0 <= z <= refCount_max refT -> wrap_ref refT z = z.
Proof.
  destruct refT; simpl; intros H.
  - by apply wrap_u32_small.
  - apply wrap_i32_small. unfold INT32_MIN. lia.
Qed.

Lemma refCount_max_u32 refT : refCount_max refT <= UINT32_MAX.
Proof. destruct refT; unfold refCount_max, UINT32_MAX, INT32_MAX; lia. Qed.

Lemma trackFrame_eq refT id k frames :
  trackFrame refT id k frames =
  match frames !! find_index (fun rec => refCount rec =? 0) frames with
  | None => frames ++ [{| frameId := id; refCount := wrap_ref refT k |}]
  | Some _ =>
    <[find_index (fun rec => refCount rec =? 0) frames :=
        {| frameId := id; refCount := wrap_ref refT k |}]> frames
  end.
Proof.
  unfold trackFrame.
  destruct (frames !! _) as [rec|] eqn:Hi.
  - by rewrite list_insert_insert_eq.
  - apply find_index_none in Hi as [-> _].
    rewrite insert_app_r_alt by lia. by rewrite Nat.sub_diag.
Qed.

Lemma tracker_ok_nil refT : tracker_ok refT [].
Proof. repeat split; [constructor|done|intros; unfold live_count; simpl; lia]. Qed.

(** Registering a frame that is not in use. *)
Lemma tracker_ok_trackFrame refT id k frames :
  tracker_ok refT frames -> ~ live frames id -> 0 < k <= refCount_max refT ->
  tracker_ok refT (trackFrame refT id k frames) /\
  forall id', live_count (trackFrame refT id k frames) id'
              = (live_count frames id' + indicator (id' = id))%nat.
Proof.
  intros (Hrange & Hfirst & Huniq) Hdead Hk.
  assert (Hdead0 : live_count frames id = 0%nat) by (unfold live in Hdead; lia).
  set (new := {| frameId := id; refCount := wrap_ref refT k |}).
  assert (Hnew : in_use id new).
  { unfold in_use, new; simpl. rewrite wrap_ref_small by lia. split; [done|lia]. }
  set (p := find_index (fun rec => refCount rec =? 0) frames).
  assert (Hlookup : forall j rec, trackFrame refT id k frames !! j = Some rec ->
            (j = p /\ rec = new) \/ (j <> p /\ frames !! j = Some rec)).
  { intros j rec. rewrite trackFrame_eq. fold p new.
    destruct (frames !! p) as [old|] eqn:Hp.
    - destruct (decide (j = p)) as [->|Hne].
      + rewrite list_lookup_insert_eq by (by eapply lookup_lt_Some). intros [= <-]. by left.
      + rewrite list_lookup_insert_ne by done. by right.
    - apply find_index_none in Hp as [Hp _]. fold p in Hp.
      destruct (decide (j = p)) as [->|Hne].
      + rewrite Hp, lookup_app_r, Nat.sub_diag by lia. intros [= <-]. by left.
      + intros Hj. right. split; [done|].
        apply lookup_app_Some in Hj as [Hj|[Hge Hj]]; [done|].
        apply list_lookup_singleton_Some in Hj as [Hj _]. lia. }
  assert (Hat_p : trackFrame refT id k frames !! p = Some new).
  { rewrite trackFrame_eq. fold p new.
    destruct (frames !! p) as [old|] eqn:Hp.
    - apply list_lookup_insert_eq. by eapply lookup_lt_Some.
    - apply find_index_none in Hp as [Hp _]. fold p in Hp.
      by rewrite Hp, lookup_app_r, Nat.sub_diag by lia. }
  assert (Hcount : forall id', live_count (trackFrame refT id k frames) id'
              = (live_count frames id' + indicator (id' = id))%nat).
  { intros id'. rewrite trackFrame_eq. fold p new.
    assert (Hind : indicator (in_use id' new) = indicator (id' = id)).
    { unfold indicator. destruct (decide (id' = id)) as [->|Hne].
      - by rewrite decide_True.
      - rewrite decide_False; [done|]. unfold in_use, new; simpl. intros [? _]. congruence. }
    destruct (frames !! p) as [old|] eqn:Hp.
    - pose proof (live_count_insert frames p old new id' Hp) as Hins.
      assert (indicator (in_use id' old) = 0%nat).
      { unfold indicator. rewrite decide_False; [done|]. intros [_ Hpos].
        apply find_index_lookup in Hp. simpl in Hp. lia. }
      lia.
    - rewrite live_count_app. f_equal.
      rewrite live_count_cons, Hind. unfold live_count. simpl. lia. }
  split; [|exact Hcount].
  split; [|split].
  - rewrite trackFrame_eq. fold p new.
    assert (Hn : 0 <= refCount new <= refCount_max refT).
    { unfold new; simpl. rewrite wrap_ref_small by lia. lia. }
    destruct (frames !! p) as [old|] eqn:Hp.
    + apply Forall_insert; done.
    + apply Forall_app. split; [done|]. by constructor.
  - intros j rec Hj Hpos.
    apply find_index_first with rec; [done|apply Z.eqb_refl|].
    intros i y Hi Hy. apply Z.eqb_neq. intros Heq.
    destruct (Hlookup _ _ Hj) as [[-> ->]|[Hjp Hjold]];
      destruct (Hlookup _ _ Hy) as [[-> ->]|[Hip Hiold]].
    + lia.
    + (* a record before the chosen slot is in use, so it is not frame [id] *)
      assert (Hy0 : (refCount y =? 0) = false)
        by exact (find_index_before (fun rec => refCount rec =? 0) frames i y Hi Hiold).
      apply Z.eqb_neq in Hy0.
      rewrite Forall_forall in Hrange.
      pose proof (Hrange y (proj2 (list_elem_of_lookup _ _) (ex_intro _ _ Hiold))).
      assert (0 < live_count frames id)%nat; [|lia].
      apply live_count_pos with i y; [done|]. split; [done|lia].
    + (* the new record sits before a record in use: that one is not frame [id] *)
      simpl in Heq.
      assert (0 < live_count frames id)%nat; [|lia].
      apply live_count_pos with j rec; [done|]. split; [done|lia].
    + pose proof (Hfirst j rec Hjold Hpos) as Hfj.
      assert (Hb : (frameId y =? frameId rec) = false).
      { apply (find_index_before (fun r => frameId r =? frameId rec) frames i y); [|done].
        rewrite Hfj. done. }
      apply Z.eqb_neq in Hb. done.
  - intros id'. rewrite Hcount. unfold indicator.
    destruct (decide (id' = id)) as [->|_]; [lia|]. specialize (Huniq id'). lia.
Qed.

Lemma find_index_insert_same {A} (p : A -> bool) v i x x' :
  v !! i = Some x -> p x' = p x -> find_index p (<[i := x']> v) = find_index p v.
Proof.
  revert i. induction v as [|y v IH]; intros i; [done|].
  destruct i as [|i]; simpl.
  - intros [= ->] ->. done.
  - intros Hi Hp. by rewrite (IH i Hi Hp).
Qed.

(** The search of [doneWithFrame] for a frame in use stops at its one
    record in use; taking one reference off keeps the tracker in order. *)
Lemma tracker_ok_release refT id frames :
  tracker_ok refT frames -> live frames id ->
  exists rec,
    frames !! find_index (fun r => frameId r =? id) frames = Some rec /\
    frameId rec = id /\ 0 < refCount rec /\
    wrap_ref refT (refCount rec - 1) = refCount rec - 1 /\
    let frames' := <[find_index (fun r => frameId r =? id) frames :=
                       {| frameId := id; refCount := refCount rec - 1 |}]> frames in
    tracker_ok refT frames' /\
    forall id', (live_count frames' id' + indicator (id' = id /\ (refCount rec = 1)%Z)
                 = live_count frames id')%nat.
Proof.
  intros (Hrange & Hfirst & Huniq) Hlive.
  apply live_count_witness in Hlive as (j & rec & Hj & Hid & Hpos).
  pose proof (Hfirst j rec Hj Hpos) as Hfj. rewrite Hid in Hfj. rewrite Hfj.
  exists rec. split; [done|]. split; [done|]. split; [done|].
  pose proof (Hrange' := Hrange). rewrite Forall_forall in Hrange'.
  pose proof (Hrange' rec (proj2 (list_elem_of_lookup _ _) (ex_intro _ _ Hj))) as Hrec.
  split; [apply wrap_ref_small; lia|].
  set (rec' := {| frameId := id; refCount := refCount rec - 1 |}).
  assert (Hcount : forall id', (live_count (<[j := rec']> frames) id'
              + indicator (id' = id /\ (refCount rec = 1)%Z) = live_count frames id')%nat).
  { intros id'. pose proof (live_count_insert frames j rec rec' id' Hj) as Hins.
    unfold indicator in *.
    destruct (decide (id' = id)) as [->|Hne].
    - rewrite (decide_True (P := in_use id rec)) in Hins by done.
      destruct (decide (refCount rec = 1)) as [H1|H1].
      + rewrite decide_True by done.
        rewrite decide_False in Hins; [lia|]. unfold in_use, rec'; simpl. lia.
      + rewrite decide_False by tauto.
        rewrite decide_True in Hins; [lia|]. unfold in_use, rec'; simpl. split; [done|lia].
    - rewrite decide_False by tauto.
      rewrite (decide_False (P := in_use id' rec)) in Hins
        by (unfold in_use; intros [? _]; congruence).
      rewrite decide_False in Hins; [lia|]. unfold in_use, rec'; simpl.
      intros [? _]. congruence. }
  simpl. split; [|exact Hcount].
  split; [|split].
  - apply Forall_insert; [done|]. unfold rec'; simpl. lia.
  - intros i y Hi Hy.
    assert (Hfi : forall q, find_index (fun r => frameId r =? q) (<[j := rec']> frames)
                            = find_index (fun r => frameId r =? q) frames).
    { intros q. apply find_index_insert_same with rec; [done|]. unfold rec'; simpl.
      by rewrite Hid. }
    rewrite Hfi.
    destruct (decide (i = j)) as [->|Hne].
    + rewrite list_lookup_insert_eq in Hi by (by eapply lookup_lt_Some).
      injection Hi as <-. simpl. done.
    + rewrite list_lookup_insert_ne in Hi by done. by apply Hfirst.
  - intros id'. specialize (Hcount id'). specialize (Huniq id'). lia.
Qed.





End TrackerFacts.

(** ** HalCamera *)

Section BrokerFacts.
Import Machine HalCamera.

Lemma doneWithFrame_eq refT b s :
  doneWithFrame refT b s =
  let i := find_index (fun rec => frameId rec =? bufferId b) (mFrames s) in
  match mFrames s !! i with
  | None => (tt, s, [Log ALOGE "We got a frame back with an ID we don't recognize!"])
  | Some rec =>
    let count := wrap_ref refT (refCount rec - 1) in
    (tt,
     set_mFrames (<[i := {| frameId := frameId rec; refCount := count |}]> (mFrames s)) s,
     if count <=? 0 then [Hw_doneWithFrame_1_1 [b]] else [])
  end.
Proof.
  unfold doneWithFrame. unfold_monad. simpl.
  destruct (mFrames s !! _) as [rec|]; [|done].
  unfold_monad. simpl. destruct (_ <=? 0); done.
Qed.


Lemma accepted_app t1 t2 : accepted (t1 ++ t2) = accepted t1 + accepted t2.
Proof.
  unfold accepted, deliveries. rewrite bind_app, filter_app, length_app. lia.
Qed.

Lemma returned_buffers_app t1 t2 :
  returned_buffers (t1 ++ t2) = returned_buffers t1 ++ returned_buffers t2.
Proof. unfold returned_buffers. by rewrite bind_app. Qed.

Lemma accepted_nonneg t : 0 <= accepted t.
Proof. unfold accepted. lia. Qed.

Lemma deliveries_app t1 t2 : deliveries (t1 ++ t2) = deliveries t1 ++ deliveries t2.
Proof. unfold deliveries. by rewrite bind_app. Qed.

Lemma wrap_u32_idem z : wrap_u32 (wrap_u32 z) = wrap_u32 z.
Proof. unfold wrap_u32. by rewrite Z.mod_mod by lia. Qed.

Lemma wrap_u32_add_l a b : wrap_u32 (wrap_u32 a + b) = wrap_u32 (a + b).
Proof. unfold wrap_u32. by rewrite Z.add_mod_idemp_l by lia. Qed.

Lemma wrap_u32_add_r a b : wrap_u32 (a + wrap_u32 b) = wrap_u32 (a + b).
Proof. unfold wrap_u32. by rewrite Z.add_mod_idemp_r by lia. Qed.

Lemma recipients_app t1 t2 : recipients (t1 ++ t2) = recipients t1 ++ recipients t2.
Proof. unfold recipients. by rewrite deliveries_app, fmap_app. Qed.

(** The request loop: what it counts, whom it calls, what it puts back. *)
Lemma forwardToRequesters_eq W b reqs : forall n k s,
  exists tr,
    forwardToRequesters W b (wrap_u32 n) k reqs s =
      ((wrap_u32 (n + accepted tr),
        (k + length (filter (fun req => due W b req = true) reqs))%nat),
       set_requests (mCurrentRequests s)
         (mNextRequests s ++ filter (fun req => deferred W b req = true) reqs) s, tr)
    /\ returned_buffers tr = []
    /\ recipients tr = client <$> filter (fun req => due W b req = true) reqs.
Proof.
  induction reqs as [|req reqs IH]; intros n k s.
  - exists []. simpl. rewrite Z.add_0_r, Nat.add_0_r, app_nil_r. by destruct s.
  - cbn [forwardToRequesters]. unfold promote.
    destruct (vc_alive W (client req)) eqn:Halive.
    + destruct (wrap_i64 (timestamp b - req_timestamp req) <? kThreshold) eqn:Hearly.
      * assert (Hd : deferred W b req = true) by (unfold deferred; by rewrite Halive, Hearly).
        assert (Hu : due W b req <> true) by (unfold due; by rewrite Halive, Hearly).
        rewrite (filter_cons_True (fun r => deferred W b r = true) req reqs Hd),
          (filter_cons_False (fun r => due W b r = true) req reqs Hu).
        destruct (IH n k (set_requests (mCurrentRequests s) (mNextRequests s ++ [req]) s))
          as (tr & Heq & Hret & Hdel).
        exists (Log ALOGD "Skips a frame from %s" :: tr).
        unfold_monad. cbn [app].
        rewrite Heq. simpl. rewrite <- app_assoc. simpl.
        split; [|split]; [|done|done].
        f_equal.
      * assert (Hd : deferred W b req <> true) by (unfold deferred; by rewrite Halive, Hearly).
        assert (Hu : due W b req = true) by (unfold due; by rewrite Halive, Hearly).
        rewrite (filter_cons_False (fun r => deferred W b r = true) req reqs Hd),
          (filter_cons_True (fun r => due W b r = true) req reqs Hu).
        cbn [length]. rewrite Nat.add_succ_r.
        destruct (vc_deliverFrame W k (client req) b) eqn:Hacc.
        -- destruct (IH (n + 1) (S k) s) as (tr & Heq & Hret & Hdel).
           rewrite <- wrap_u32_add_l in Heq.
           exists ([Vc_deliverFrame (client req) b true;
                    Log ALOGD "%s forwarded the buffer #%d";
                    Timeline_BumpTimelineEventCounter (client req)] ++ tr).
           unfold_monad. cbn [app].
           rewrite Heq. cbn [app].
           split; [|split]; [|done|].
           ++ f_equal. f_equal. f_equal.
              change (accepted (?x :: ?y :: ?z :: tr)) with (accepted ([x; y; z] ++ tr)).
              rewrite accepted_app. f_equal. unfold accepted at 2. simpl. lia.
           ++ rewrite fmap_cons, <- Hdel. done.
        -- destruct (IH n (S k) s) as (tr & Heq & Hret & Hdel).
           exists (Vc_deliverFrame (client req) b false :: tr).
           unfold_monad. cbn [app].
           rewrite Heq. cbn [app].
           split; [|split]; [|done|].
           ++ f_equal.
           ++ rewrite fmap_cons, <- Hdel. done.
    + assert (Hd : deferred W b req <> true) by (unfold deferred; by rewrite Halive).
      assert (Hu : due W b req <> true) by (unfold due; by rewrite Halive).
      rewrite (filter_cons_False (fun r => deferred W b r = true) req reqs Hd),
        (filter_cons_False (fun r => due W b r = true) req reqs Hu).
      destruct (IH n k s) as (tr & Heq & Hret & Hdel). exists tr. done.
Qed.

(** The loop for the v1.0 clients: it changes no state. *)
Lemma forwardToLegacy_eq W b clients : forall n k s,
  exists tr,
    forwardToLegacy W b (wrap_u32 n) k clients s = (wrap_u32 (n + accepted tr), s, tr)
    /\ returned_buffers tr = []
    /\ recipients tr = filter (fun vCam => legacy W vCam = true) clients.
Proof.
  induction clients as [|c clients IH]; intros n k s.
  - exists []. simpl. by rewrite Z.add_0_r.
  - cbn [forwardToLegacy]. unfold promote.
    destruct (vc_alive W c) eqn:Halive.
    + destruct (0 <? vc_getVersion W c) eqn:Hver.
      * assert (Hl : legacy W c <> true) by (unfold legacy; by rewrite Halive, Hver).
        rewrite (filter_cons_False (fun v => legacy W v = true) c clients Hl).
        destruct (IH n k s) as (tr & Heq & Hret & Hdel). exists tr. done.
      * assert (Hl : legacy W c = true) by (unfold legacy; by rewrite Halive, Hver).
        rewrite (filter_cons_True (fun v => legacy W v = true) c clients Hl).
        destruct (vc_deliverFrame W k c b) eqn:Hacc.
        -- destruct (IH (n + 1) (S k) s) as (tr & Heq & Hret & Hdel).
           rewrite <- wrap_u32_add_l in Heq.
           exists ([Vc_deliverFrame c b true] ++ tr).
           unfold_monad. cbn [app].
           rewrite Heq. cbn [app].
           split; [|split]; [|done|].
           ++ f_equal. f_equal.
              change (accepted (?x :: tr)) with (accepted ([x] ++ tr)).
              rewrite accepted_app. f_equal. unfold accepted at 2. simpl. lia.
           ++ rewrite <- Hdel. done.
        -- destruct (IH n (S k) s) as (tr & Heq & Hret & Hdel).
           exists (Vc_deliverFrame c b false :: tr).
           unfold_monad. cbn [app].
           rewrite Heq. cbn [app].
           split; [|split]; [|done|].
           ++ f_equal.
           ++ rewrite <- Hdel. done.
    + assert (Hl : legacy W c <> true) by (unfold legacy; by rewrite Halive).
      rewrite (filter_cons_False (fun v => legacy W v = true) c clients Hl).
      destruct (IH n k s) as (tr & Heq & Hret & Hdel). exists tr. done.
Qed.

(** One delivered frame, start to end. *)
Lemma deliverFrame_1_1_eq refT W b rest s :
  exists tr,
    deliverFrame_1_1 refT W b rest s =
      (tt,
       set_mFrames
         (if wrap_u32 (accepted tr) <? 1 then mFrames s
          else trackFrame refT (bufferId b) (wrap_u32 (accepted tr)) (mFrames s))
         (set_requests []
            (mCurrentRequests s ++
               filter (fun req => deferred W b req = true) (mNextRequests s)) s),
       tr)
    /\ returned_buffers tr = (if wrap_u32 (accepted tr) <? 1 then b :: rest else [])
    /\ recipients tr =
         (client <$> filter (fun req => due W b req = true) (mNextRequests s)) ++
         filter (fun vCam => legacy W vCam = true) (mClients s).
Proof.
  destruct (forwardToRequesters_eq W b (mNextRequests s) 0 0
              (set_requests [] (mCurrentRequests s) s)) as (t1 & H1 & Hr1 & Hd1).
  destruct (forwardToLegacy_eq W b (mClients s) 0
              (0 + length (filter (fun req => due W b req = true) (mNextRequests s)))
              (set_requests [] (mCurrentRequests s ++
                 filter (fun req => deferred W b req = true) (mNextRequests s)) s))
    as (t2 & H2 & Hr2 & Hd2).
  change (wrap_u32 0) with 0 in H1, H2. rewrite Z.add_0_l in H1, H2.
  assert (Hn : wrap_u32 (wrap_u32 (accepted t2) + wrap_u32 (accepted t1))
               = wrap_u32 (accepted t1 + accepted t2)).
  { rewrite wrap_u32_add_l, wrap_u32_add_r. f_equal. lia. }
  destruct (wrap_u32 (accepted t1 + accepted t2) <? 1) eqn:Hzero.
  - exists (Log ALOGV "Received a frame" :: t1 ++ t2 ++
            [Log ALOGI "Trivially rejecting frame (%d) from %s with no acceptance";
             Hw_doneWithFrame_1_1 (b :: rest)]).
    assert (Hacc : accepted (Log ALOGV "Received a frame" :: t1 ++ t2 ++
            [Log ALOGI "Trivially rejecting frame (%d) from %s with no acceptance";
             Hw_doneWithFrame_1_1 (b :: rest)]) = accepted t1 + accepted t2).
    { change (accepted (?x :: ?l)) with (accepted ([x] ++ l)).
      rewrite !accepted_app. unfold accepted at 1 4. simpl. lia. }
    rewrite Hacc, Hzero.
    split; [|split].
    + unfold deliverFrame_1_1.
      unfold_monad. cbn [app].
      cbn [mCurrentRequests mNextRequests set_requests].
      rewrite H1. unfold set_requests, set_mFrames in H2 |- *.
      cbn [fst snd mClients mStreamState mFrames mMaster mCurrentRequests mNextRequests]
        in H2 |- *.
      rewrite H2.
      rewrite Hn, Hzero. cbn [app]. rewrite ?app_nil_r, <- ?app_assoc. done.
    + change (returned_buffers (?x :: ?l)) with (returned_buffers ([x] ++ l)).
      rewrite !returned_buffers_app, Hr1, Hr2. simpl. by rewrite app_nil_r.
    + change (recipients (?x :: ?l)) with (recipients ([x] ++ l)).
      rewrite !recipients_app, Hd1, Hd2. simpl. by rewrite app_nil_r.
  - exists (Log ALOGV "Received a frame" :: t1 ++ t2).
    assert (Hacc : accepted (Log ALOGV "Received a frame" :: t1 ++ t2)
                   = accepted t1 + accepted t2).
    { change (accepted (?x :: ?l)) with (accepted ([x] ++ l)).
      rewrite !accepted_app. unfold accepted at 1. simpl. lia. }
    rewrite Hacc, Hzero.
    split; [|split].
    + unfold deliverFrame_1_1.
      unfold_monad. cbn [app].
      cbn [mCurrentRequests mNextRequests set_requests].
      rewrite H1. unfold set_requests, set_mFrames in H2 |- *.
      cbn [fst snd mClients mStreamState mFrames mMaster mCurrentRequests mNextRequests]
        in H2 |- *.
      rewrite H2.
      rewrite Hn, Hzero. cbn [app mFrames]. rewrite ?app_nil_r, <- ?app_assoc. done.
    + change (returned_buffers (?x :: ?l)) with (returned_buffers ([x] ++ l)).
      rewrite !returned_buffers_app, Hr1, Hr2. done.
    + change (recipients (?x :: ?l)) with (recipients ([x] ++ l)).
      rewrite !recipients_app, Hd1, Hd2. done.
Qed.

Lemma countRequiredFrames_from W clients : forall n,
  wrap_u32
    (fold_left
       (fun bufferCount client =>
          match promote W client with
          | Some virtCam => wrap_u32 (bufferCount + wrap_u32 (vc_getAllowedBuffers W virtCam))
          | None => bufferCount
          end) clients n)
  = wrap_u32 (n + allowed_total W clients).
Proof.
  unfold allowed_total.
  induction clients as [|c clients IH]; intros n; simpl.
  - by rewrite Z.add_0_r.
  - rewrite IH. unfold promote.
    destruct (vc_alive W c) eqn:Halive.
    + rewrite (filter_cons_True (fun v => vc_alive W v = true) c clients Halive).
      rewrite fmap_cons. simpl. rewrite wrap_u32_add_l. f_equal. lia.
    + rewrite (filter_cons_False (fun v => vc_alive W v = true) c clients); [done|].
      by rewrite Halive.
Qed.

Lemma countRequiredFrames_range W clients :
  wrap_u32 (countRequiredFrames W clients) = countRequiredFrames W clients.
Proof.
  unfold countRequiredFrames.
  induction clients as [|c clients IH] using rev_ind; [done|].
  rewrite fold_left_app. simpl. destruct (promote W c); [|done].
  apply wrap_u32_idem.
Qed.

Lemma countRequiredFrames_eq W clients :
  countRequiredFrames W clients = wrap_u32 (allowed_total W clients).
Proof.
  rewrite <- countRequiredFrames_range. unfold countRequiredFrames.
  by rewrite countRequiredFrames_from.
Qed.

(** [changeFramesInFlight] in full: what it asks of the hardware camera,
    its result, and what becomes of the frame records.  The count asked
    for is [max 1 (total + delta)] as long as that sum is an [unsigned]. *)
Lemma changeFramesInFlight_eq W delta s :
  let bufferCount :=
    if wrap_u32 (allowed_total W (mClients s) + delta) <? 1 then 1
    else wrap_u32 (allowed_total W (mClients s) + delta) in
  let success := bool_decide (hw_setMaxFramesInFlight W bufferCount = Some OK) in
  let live_records := filter (fun rec => 0 < refCount rec) (mFrames s) in
  (0 <= allowed_total W (mClients s) + delta <= UINT32_MAX ->
     bufferCount = Z.max 1 (allowed_total W (mClients s) + delta))
  /\ requested (changeFramesInFlight W delta s).2 = [bufferCount]
  /\ (changeFramesInFlight W delta s).1.1 = success
  /\ (changeFramesInFlight W delta s).1.2
     = (if success then set_mFrames live_records s else s)
  /\ (changeFramesInFlight W delta s).2
     = Hw_setMaxFramesInFlight bufferCount ::
       (if success && (bufferCount <? Z.of_nat (length live_records))
        then [Log ALOGW "We found more frames in use than requested."] else []).
Proof.
  cbv zeta. split.
  - intros Hrange. rewrite wrap_u32_small by done.
    destruct (Z.ltb_spec (allowed_total W (mClients s) + delta) 1); lia.
  - unfold changeFramesInFlight.
    unfold_monad. cbn [app].
    rewrite countRequiredFrames_eq, wrap_u32_add_l.
    destruct (bool_decide (hw_setMaxFramesInFlight W _ = Some OK)); cbn [andb].
    + destruct (_ <? Z.of_nat _); cbn [app fst snd requested mbind list_bind mret]; done.
    + cbn [app fst snd]. done.
Qed.






Lemma run_cons_trace refT o ops s :
  (run refT (o :: ops) s).2 = (step refT o s).2 ++ (run refT ops (step refT o s).1.2).2.
Proof.
  cbn [run]. cbv [mbind M_bind].
  destruct (step refT o s) as [[[] s1] t1]. simpl.
  destruct (run refT ops s1) as [[[] s2] t2]. done.
Qed.


(** The effect of one delivery on the tracker and on the hardware camera. *)
Lemma deliver_step refT W b s :
  tracker_ok refT (mFrames s) ->
  ~ live (mFrames s) (bufferId b) ->
  accepted (deliverFrame_1_1 refT W b [] s).2 <= refCount_max refT ->
  tracker_ok refT (mFrames (deliverFrame_1_1 refT W b [] s).1.2) /\
  returned_buffers (deliverFrame_1_1 refT W b [] s).2
    = (if accepted (deliverFrame_1_1 refT W b [] s).2 =? 0 then [b] else []) /\
  mFrames (deliverFrame_1_1 refT W b [] s).1.2
    = (if accepted (deliverFrame_1_1 refT W b [] s).2 =? 0 then mFrames s
       else trackFrame refT (bufferId b) (accepted (deliverFrame_1_1 refT W b [] s).2)
              (mFrames s)) /\
  forall id,
    (returns_of id (deliverFrame_1_1 refT W b [] s).2
     + live_count (mFrames (deliverFrame_1_1 refT W b [] s).1.2) id
     = indicator (id = bufferId b) + live_count (mFrames s) id)%nat.
Proof.
  intros Hok Hdead.
  destruct (deliverFrame_1_1_eq refT W b [] s) as (tr & -> & Hret & _).
  cbn [fst snd]. intros Hmax.
  pose proof (accepted_nonneg tr) as H0.
  pose proof (refCount_max_u32 refT) as Hu.
  rewrite wrap_u32_small in Hret |- * by lia.
  assert (Hz : (accepted tr <? 1) = (accepted tr =? 0)).
  { destruct (Z.ltb_spec (accepted tr) 1), (Z.eqb_spec (accepted tr) 0); lia. }
  rewrite Hz in Hret |- *.
  unfold returns_of. rewrite Hret.
  destruct (Z.eqb_spec (accepted tr) 0) as [Hn|Hn]; cbn [mFrames set_mFrames].
  - repeat split; [apply Hok..|].
    intros id. unfold indicator. rewrite filter_cons, filter_nil.
    destruct (decide (id = bufferId b)) as [->|Hne].
    + by rewrite decide_True.
    + by rewrite decide_False by congruence.
  - destruct (tracker_ok_trackFrame refT (bufferId b) (accepted tr) (mFrames s))
      as [Hok' Hcount]; [done|done|lia|].
    repeat split; [apply Hok'..|].
    intros id. rewrite Hcount. simpl. lia.
Qed.

(** The effect of a frame coming back from a client that held it. *)
Lemma done_step refT b s :
  tracker_ok refT (mFrames s) ->
  live (mFrames s) (bufferId b) ->
  exists i rec,
    mFrames s !! i = Some rec /\ in_use (bufferId b) rec /\
    mFrames (doneWithFrame refT b s).1.2
      = <[i := {| frameId := bufferId b; refCount := refCount rec - 1 |}]> (mFrames s) /\
    returned_buffers (doneWithFrame refT b s).2 = (if refCount rec =? 1 then [b] else []) /\
    tracker_ok refT (mFrames (doneWithFrame refT b s).1.2) /\
    forall id,
      (returns_of id (doneWithFrame refT b s).2
       + live_count (mFrames (doneWithFrame refT b s).1.2) id
       = live_count (mFrames s) id)%nat.
Proof.
  intros Hok Hlive.
  destruct (tracker_ok_release refT (bufferId b) (mFrames s) Hok Hlive)
    as (rec & Hi & Hid & Hpos & Hwrap & Hok' & Hcount).
  exists (find_index (fun r => frameId r =? bufferId b) (mFrames s)), rec.
  rewrite doneWithFrame_eq. cbv zeta. rewrite Hi, Hwrap, Hid.
  cbn [fst snd mFrames set_mFrames].
  split; [done|]. split; [done|]. split; [done|].
  assert (Hz : (refCount rec - 1 <=? 0) = (refCount rec =? 1)).
  { destruct (Z.leb_spec (refCount rec - 1) 0), (Z.eqb_spec (refCount rec) 1); lia. }
  rewrite Hz.
  split; [by destruct (refCount rec =? 1)|]. split; [done|].
  intros id. rewrite <- (Hcount id). unfold returns_of, indicator.
  destruct (Z.eqb_spec (refCount rec) 1) as [H1|H1]; simpl.
  - rewrite filter_cons, filter_nil.
    destruct (decide (bufferId b = id)) as [<-|Hne].
    + rewrite decide_True by done. simpl. lia.
    + rewrite decide_False by (intros [? _]; congruence). simpl. lia.
  - rewrite decide_False by tauto. lia.
Qed.








(** C3, as stated, fails.  Client 1 has two requests pending, one after a
    frame of time 0 and one after a frame of time 90000; a frame of time
    100000 arrives.  The second request is too early by the threshold and
    is put back, and yet client 1 gets the frame, for its first request. *)
Lemma deferred_request_client_still_served :
  {| client := 1%nat; req_timestamp := 90000 |}
    ∈ mNextRequests (run RefUInt32 [Request 1%nat 0; Request 1%nat 90000] (broker_with [])).1.2
  /\ vc_alive (willing_world 1) 1%nat = true
  /\ timestamp (frame 5 100000) - 90000 < kThreshold
  /\ mNextRequests
       (run RefUInt32
          [Request 1%nat 0; Request 1%nat 90000; Deliver (willing_world 1) (frame 5 100000)]
          (broker_with [])).1.2
     = [{| client := 1%nat; req_timestamp := 90000 |}]
  /\ recipients
       (run RefUInt32
          [Request 1%nat 0; Request 1%nat 90000; Deliver (willing_world 1) (frame 5 100000)]
          (broker_with [])).2
     = [1%nat].
Proof.
  split; [apply list_elem_of_In; right; left; reflexivity|].
  split; [reflexivity|].
  split; [reflexivity|].
  split; vm_compute; reflexivity.
Qed.

(** C3, amended.  The pending requests are those of [mNextRequests] when
    the frame arrives (the call exchanges the deques first).  A pending
    request of a live client for which the frame's time is less than 16000
    microseconds after the request's time is put back unchanged: after the
    call the current deque is empty and the next deque is what the current
    one held followed by the deferred requests, in their order.  No
    delivery is made for that request: the deliveries of the call are one
    per due request and one per v1.0 client, and this request is not due.
    The client gets no frame in this call provided none of its pending
    requests is due and it is not a v1.0 client of [mClients]. *)
Theorem early_request_is_deferred refT W b rest s req :
  req ∈ mNextRequests s ->
  vc_alive W (client req) = true ->
  - 2 ^ 63 <= timestamp b - req_timestamp req < kThreshold ->
  mCurrentRequests (deliverFrame_1_1 refT W b rest s).1.2 = []
  /\ mNextRequests (deliverFrame_1_1 refT W b rest s).1.2
     = mCurrentRequests s ++ filter (fun q => deferred W b q = true) (mNextRequests s)
  /\ req ∈ mNextRequests (deliverFrame_1_1 refT W b rest s).1.2
  /\ due W b req = false
  /\ recipients (deliverFrame_1_1 refT W b rest s).2 =
       (client <$> filter (fun q => due W b q = true) (mNextRequests s)) ++
       filter (fun vCam => legacy W vCam = true) (mClients s)
  /\ ((forall q, q ∈ mNextRequests s -> client q = client req -> due W b q = false) ->
      (client req ∈ mClients s -> 0 < vc_getVersion W (client req)) ->
      client req ∉ recipients (deliverFrame_1_1 refT W b rest s).2).
Proof.
  intros Hin Halive Hearly.
  destruct (deliverFrame_1_1_eq refT W b rest s) as (tr & -> & _ & Hdel).
  cbn [fst snd mCurrentRequests mNextRequests set_mFrames set_requests].
  assert (Hdef : deferred W b req = true).
  { unfold deferred. rewrite Halive, wrap_i64_small by (unfold kThreshold in *; lia).
    simpl. apply Z.ltb_lt. lia. }
  split; [done|]. split; [done|]. split; [|split; [|split; [exact Hdel|]]].
  - apply elem_of_app. right. by apply list_elem_of_filter.
  - unfold deferred, due in *. rewrite Halive in Hdef |- *. simpl in Hdef |- *.
    by rewrite Hdef.
  - intros Hnone Hversion. rewrite Hdel. intros Hd.
    apply elem_of_app in Hd as [Hd|Hd].
    + apply list_elem_of_fmap in Hd as (q & Hc & Hq).
      apply list_elem_of_filter in Hq as [Hdue Hq].
      rewrite (Hnone q Hq (eq_sym Hc)) in Hdue. done.
    + apply list_elem_of_filter in Hd as [Hleg Hmember]. specialize (Hversion Hmember).
      unfold legacy in Hleg. apply andb_true_iff in Hleg as [_ Hleg].
      apply negb_true_iff, Z.ltb_ge in Hleg. lia.
Qed.

Lemma early_request_is_deferred_witness :
  mNextRequests
    (deliverFrame_1_1 RefUInt32 (willing_world 1) (frame 5 10000) []
       (run RefUInt32 [Request 1%nat 0] (broker_with [1%nat])).1.2).1.2
  = [{| client := 1%nat; req_timestamp := 0 |}]
  /\ recipients
       (deliverFrame_1_1 RefUInt32 (willing_world 1) (frame 5 10000) []
          (run RefUInt32 [Request 1%nat 0] (broker_with [1%nat])).1.2).2 = [].
Proof.
  destruct (early_request_is_deferred RefUInt32 (willing_world 1) (frame 5 10000) []
              (run RefUInt32 [Request 1%nat 0] (broker_with [1%nat])).1.2
              {| client := 1%nat; req_timestamp := 0 |})
    as (_ & Hnext & _ & _ & _ & _).
  - vm_compute. left.
  - reflexivity.
  - unfold kThreshold, frame; simpl; lia.
  - split; [rewrite Hnext|]; reflexivity.
Defined.



(** C4 at the input where the code leaves the claim: no client, a delta of
    -1.  The sum is -1 and the claim clamps it to 1; the [unsigned]
    [bufferCount] wraps to 4294967295, passes the test [bufferCount < 1]
    and is what the hardware camera is asked for. *)
Theorem changeFramesInFlight_below_zero_wraps W state frames master current next :
  allowed_total W [] + -1 = -1
  /\ Z.max 1 (allowed_total W [] + -1) = 1
  /\ requested
       (changeFramesInFlight W (-1)
          {| mClients := []; mStreamState := state; mFrames := frames; mMaster := master;
             mCurrentRequests := current; mNextRequests := next |}).2
     = [4294967295].
Proof.
  split; [reflexivity|]. split; [reflexivity|].
  destruct (changeFramesInFlight_eq W (-1)
              {| mClients := []; mStreamState := state; mFrames := frames; mMaster := master;
                 mCurrentRequests := current; mNextRequests := next |}) as (_ & -> & _).
  reflexivity.
Qed.

Lemma notified_app t1 t2 : notified (t1 ++ t2) = notified t1 ++ notified t2.
Proof. unfold notified. by rewrite bind_app. Qed.



(** C10.  In [makeVirtualCamera] the vector has capacity 1 and size 0 when
    element 0 is assigned: the assignment names no element, on every call,
    whatever the state and the world, and the method goes no further. *)
Theorem makeVirtualCamera_assigns_out_of_bounds W this s :
  Vector.size (Vector.reserve 1 (Vector.empty (A := option HalCameraRef))) = 0%nat
  /\ Vector.capacity (Vector.reserve 1 (Vector.empty (A := option HalCameraRef))) = 1%nat
  /\ Vector.assign (Vector.reserve 1 (Vector.empty (A := option HalCameraRef))) 0 (Some this)
     = inl (Vector.OutOfBounds 0 0)
  /\ makeVirtualCamera W this s = (inl (Vector.OutOfBounds 0 0), s, []).
Proof.
  split; [reflexivity|]. split; [reflexivity|].
  assert (Hassign : Vector.assign (Vector.reserve 1 (Vector.empty (A := option HalCameraRef)))
                      0 (Some this) = inl (Vector.OutOfBounds 0 0)).
  { unfold Vector.assign, Vector.at_index. simpl. reflexivity. }
  split; [exact Hassign|].
  unfold makeVirtualCamera. rewrite Hassign. reflexivity.
Qed.

End BrokerFacts.

(** ** HalCamera: clients, stream and parameters *)

Section BrokerClientFacts.
Import Machine HalCamera.

Lemma allowed_total_nonneg W clients : 0 <= allowed_total W clients.
Proof.
  unfold allowed_total.
  induction (filter (fun vCam => vc_alive W vCam = true) clients) as [|c l IH]; [done|].
  rewrite fmap_cons. simpl. pose proof (wrap_u32_range (vc_getAllowedBuffers W c)). lia.
Qed.

Lemma foldr_add_from a l : foldr Z.add a l = foldr Z.add 0 l + a.
Proof. induction l as [|x l IH]; simpl; lia. Qed.

Lemma allowed_total_snoc W clients vCam :
  allowed_total W (clients ++ [vCam])
  = allowed_total W clients
    + (if vc_alive W vCam then wrap_u32 (vc_getAllowedBuffers W vCam) else 0).
Proof.
  unfold allowed_total. rewrite filter_app, fmap_app, foldr_app.
  destruct (vc_alive W vCam) eqn:Halive.
  - rewrite (filter_cons_True (fun v => vc_alive W v = true) vCam [] Halive).
    rewrite filter_nil. simpl. rewrite foldr_add_from. lia.
  - rewrite (filter_cons_False (fun v => vc_alive W v = true) vCam []) by (by rewrite Halive).
    rewrite filter_nil. simpl. lia.
Qed.

Lemma wrap_u32_add_i32 a b : wrap_u32 (a + wrap_i32 b) = wrap_u32 (a + b).
Proof.
  unfold wrap_u32, wrap_i32.
  replace (a + ((b + 2 ^ 31) mod 2 ^ 32 - 2 ^ 31))
    with ((b + 2 ^ 31) mod 2 ^ 32 + (a - 2 ^ 31)) by lia.
  rewrite Z.add_mod_idemp_l by lia. f_equal. lia.
Qed.

(** What [changeFramesInFlight] asks for when a client with allowance [a]
    is about to join: the allowances of the live clients and [a], or 1. *)
Lemma changeFramesInFlight_joining W a s :
  0 <= allowed_total W (mClients s) + wrap_u32 a <= UINT32_MAX ->
  let bufferCount := Z.max 1 (allowed_total W (mClients s) + wrap_u32 a) in
  let success := bool_decide (hw_setMaxFramesInFlight W bufferCount = Some OK) in
  requested (changeFramesInFlight W (wrap_i32 (wrap_u32 a)) s).2 = [bufferCount]
  /\ (changeFramesInFlight W (wrap_i32 (wrap_u32 a)) s).1.1 = success
  /\ (changeFramesInFlight W (wrap_i32 (wrap_u32 a)) s).1.2
     = (if success
        then set_mFrames (filter (fun rec => 0 < refCount rec) (mFrames s)) s else s).
Proof.
  intros Hrange. cbv zeta.
  destruct (changeFramesInFlight_eq W (wrap_i32 (wrap_u32 a)) s)
    as (_ & Hreq & Hres & Hstate & _).
  rewrite wrap_u32_add_i32 in Hreq, Hres, Hstate.
  rewrite (wrap_u32_small _ Hrange) in Hreq, Hres, Hstate.
  assert (Hmax : (if allowed_total W (mClients s) + wrap_u32 a <? 1 then 1
                  else allowed_total W (mClients s) + wrap_u32 a)
                 = Z.max 1 (allowed_total W (mClients s) + wrap_u32 a)).
  { destruct (Z.ltb_spec (allowed_total W (mClients s) + wrap_u32 a) 1); lia. }
  rewrite Hmax in Hreq, Hres, Hstate. done.
Qed.

Lemma requested_app t1 t2 : requested (t1 ++ t2) = requested t1 ++ requested t2.
Proof. unfold requested. by rewrite bind_app. Qed.

(** Attaching a client.  A null client is refused at once.  For a live
    client the hardware camera is asked, once, for the allowances of the
    live clients with the new one among them (1 at least); the client is
    appended to [mClients] exactly when the camera answers OK, and a refusal
    leaves the broker as it was. *)
Theorem ownVirtualCamera_spec W vCam s :
  vc_alive W vCam = true ->
  allowed_total W (mClients s ++ [vCam]) <= UINT32_MAX ->
  ownVirtualCamera W None s
  = (false, s, [Log ALOGE "Failed to create virtualCamera camera object"])
  /\ requested (ownVirtualCamera W (Some vCam) s).2
     = [Z.max 1 (allowed_total W (mClients s ++ [vCam]))]
  /\ (ownVirtualCamera W (Some vCam) s).1.1
     = bool_decide (hw_setMaxFramesInFlight W
                      (Z.max 1 (allowed_total W (mClients s ++ [vCam]))) = Some OK)
  /\ ((ownVirtualCamera W (Some vCam) s).1.1 = false ->
        (ownVirtualCamera W (Some vCam) s).1.2 = s)
  /\ ((ownVirtualCamera W (Some vCam) s).1.1 = true ->
        (ownVirtualCamera W (Some vCam) s).1.2
        = set_mClients (mClients s ++ [vCam])
            (set_mFrames (filter (fun rec => 0 < refCount rec) (mFrames s)) s)).
Proof.
  intros Halive Hmax. split; [reflexivity|].
  rewrite allowed_total_snoc, Halive in Hmax |- *.
  pose proof (allowed_total_nonneg W (mClients s)) as H0.
  pose proof (wrap_u32_range (vc_getAllowedBuffers W vCam)) as Ha.
  destruct (changeFramesInFlight_joining W (vc_getAllowedBuffers W vCam) s)
    as (Hreq & Hres & Hstate); [lia|].
  unfold ownVirtualCamera. unfold_monad.
  destruct (changeFramesInFlight W _ s) as [[enough s1] t1]. cbn [fst snd] in *.
  subst enough s1.
  destruct (bool_decide (hw_setMaxFramesInFlight W _ = Some OK)); cbn [fst snd].
  - rewrite !requested_app, Hreq. cbn. split; [done|]. split; [done|].
    split; [done|]. intros _. reflexivity.
  - rewrite app_nil_r. done.
Qed.

Lemma ownVirtualCamera_spec_witness :
  (ownVirtualCamera (willing_world 1) (Some 3%nat) (broker_with [1%nat; 2%nat])).1.2
  = broker_with [1%nat; 2%nat; 3%nat].
Proof.
  destruct (ownVirtualCamera_spec (willing_world 1) 3%nat (broker_with [1%nat; 2%nat]))
    as (_ & _ & Hres & _ & Hstate).
  - reflexivity.
  - vm_compute. discriminate.
  - etrans; [apply Hstate; rewrite Hres; reflexivity|reflexivity].
Defined.

Lemma disownVirtualCamera_eq W vCam s :
  disownVirtualCamera W (Some vCam) s =
  let clients := filter (fun client => client <> vCam) (mClients s) in
  let resized := changeFramesInFlight W 0 (set_mClients clients s) in
  (tt, resized.1.2,
   (if negb (wrap_u32 (Z.of_nat (length (mClients s))) =? Z.of_nat (length clients) + 1)
    then [Log ALOGE "Couldn't find camera in our client list to remove it"] else [])
   ++ resized.2
   ++ (if negb resized.1.1
       then [Log ALOGE "Error when trying to reduce the in flight buffer count"] else [])).
Proof.
  unfold disownVirtualCamera. unfold_monad. cbn [app].
  destruct (negb (_ =? _));
    destruct (changeFramesInFlight W 0 _) as [[reduced s1] t1];
    destruct reduced; cbn [fst snd negb app]; by rewrite ?app_nil_r.
Qed.

Lemma length_filter_split {A} (P : A -> Prop) `{forall x, Decision (P x)} (l : list A) :
  (length (filter P l) + length (filter (fun x => ~ P x) l) = length l)%nat.
Proof.
  induction l as [|x l IH]; [done|].
  rewrite !filter_cons. destruct (decide (P x)).
  - rewrite decide_False by tauto. simpl. lia.
  - rewrite decide_True by done. simpl. lia.
Qed.

(** Detaching a client.  A null client is ignored.  Otherwise every entry
    of the client leaves [mClients], the other entries stay in their order,
    and the hardware camera is asked for the allowances of the live clients
    that remain (1 at least).  The client is detached whatever the camera
    answers; the frame records are compacted when it answers OK; the master
    and the pending requests are not touched.  The error about a camera
    that was not found is logged exactly when the list did not hold the
    client exactly once. *)
Theorem disownVirtualCamera_spec W vCam s :
  Z.of_nat (length (mClients s)) <= UINT32_MAX ->
  allowed_total W (filter (fun client => client <> vCam) (mClients s)) <= UINT32_MAX ->
  disownVirtualCamera W None s
  = (tt, s, [Log ALOGW "Ignoring disownVirtualCamera call with null pointer"])
  /\ mClients (disownVirtualCamera W (Some vCam) s).1.2
     = filter (fun client => client <> vCam) (mClients s)
  /\ (vCam ∉ mClients (disownVirtualCamera W (Some vCam) s).1.2)
  /\ requested (disownVirtualCamera W (Some vCam) s).2
     = [Z.max 1 (allowed_total W (mClients (disownVirtualCamera W (Some vCam) s).1.2))]
  /\ mFrames (disownVirtualCamera W (Some vCam) s).1.2
     = (if bool_decide
             (hw_setMaxFramesInFlight W
                (Z.max 1 (allowed_total W (mClients (disownVirtualCamera W (Some vCam) s).1.2)))
              = Some OK)
        then filter (fun rec => 0 < refCount rec) (mFrames s) else mFrames s)
  /\ mMaster (disownVirtualCamera W (Some vCam) s).1.2 = mMaster s
  /\ mNextRequests (disownVirtualCamera W (Some vCam) s).1.2 = mNextRequests s
  /\ ((Log ALOGE "Couldn't find camera in our client list to remove it"
         ∈ (disownVirtualCamera W (Some vCam) s).2)
      <-> length (filter (fun client => client = vCam) (mClients s)) <> 1%nat).
Proof.
  intros Hlen Hmax. split; [reflexivity|].
  rewrite disownVirtualCamera_eq. cbv zeta.
  set (clients := filter (fun client => client <> vCam) (mClients s)) in *.
  pose proof (allowed_total_nonneg W clients) as H0.
  destruct (changeFramesInFlight_eq W 0 (set_mClients clients s))
    as (Hcount & Hreq & Hres & Hstate & Htrace).
  cbn [mClients set_mClients mFrames] in *. rewrite Z.add_0_r in *.
  rewrite Hcount in Hreq, Hres, Hstate, Htrace by lia.
  cbn [fst snd]. rewrite Hstate, Hres, Htrace.
  assert (Hkept : mClients
                    (if bool_decide (hw_setMaxFramesInFlight W (Z.max 1 (allowed_total W clients))
                                     = Some OK)
                     then set_mFrames (filter (fun rec => 0 < refCount rec) (mFrames s))
                            (set_mClients clients s)
                     else set_mClients clients s) = clients)
    by (by destruct (bool_decide _)).
  rewrite Hkept.
  split; [done|]. split.
  { subst clients. intros Hin. apply list_elem_of_filter in Hin as [Hne _]. done. }
  split.
  { rewrite !requested_app.
    destruct (negb (_ =? _)), (bool_decide _); cbn [negb andb];
      try destruct (_ <? Z.of_nat _); reflexivity. }
  split; [by destruct (bool_decide _)|].
  split; [by destruct (bool_decide _)|].
  split; [by destruct (bool_decide _)|].
  assert (Hsplit : (length (filter (fun client => client = vCam) (mClients s))
                    + length clients = length (mClients s))%nat)
    by apply (length_filter_split (fun client => client = vCam)).
  rewrite wrap_u32_small by lia.
  destruct (Z.eqb_spec (Z.of_nat (length (mClients s))) (Z.of_nat (length clients) + 1))
    as [Heq|Hne]; cbn [negb app].
  - split; [|lia]. intros Hin. exfalso.
    destruct (bool_decide _); cbn [negb andb] in Hin;
      try destruct (_ <? Z.of_nat _);
      repeat (apply elem_of_cons in Hin as [Hin|Hin]; [discriminate|]);
      by apply elem_of_nil in Hin.
  - split; [lia|]. intros _. left.
Qed.

Lemma disownVirtualCamera_spec_witness :
  mClients (disownVirtualCamera (willing_world 1) (Some 2%nat)
              (broker_with [1%nat; 2%nat; 3%nat])).1.2 = [1%nat; 3%nat].
Proof.
  destruct (disownVirtualCamera_spec (willing_world 1) 2%nat (broker_with [1%nat; 2%nat; 3%nat]))
    as (_ & Hclients & _).
  - vm_compute. discriminate.
  - vm_compute. discriminate.
  - etrans; [exact Hclients|reflexivity].
Defined.

(** A client that is attached and then detached leaves the client list as
    it was before, whatever the hardware camera answers to the detaching. *)
Theorem own_then_disown_restores_clients W1 W2 vCam s :
  vCam ∉ mClients s ->
  (ownVirtualCamera W1 (Some vCam) s).1.1 = true ->
  mClients (disownVirtualCamera W2 (Some vCam) (ownVirtualCamera W1 (Some vCam) s).1.2).1.2
  = mClients s.
Proof.
  intros Hnew Howned.
  rewrite disownVirtualCamera_eq. cbv zeta. cbn [fst snd].
  destruct (changeFramesInFlight_eq W2 0
              (set_mClients
                 (filter (fun client => client <> vCam)
                    (mClients (ownVirtualCamera W1 (Some vCam) s).1.2))
                 (ownVirtualCamera W1 (Some vCam) s).1.2))
    as (_ & _ & _ & -> & _).
  assert (Hclients : mClients (ownVirtualCamera W1 (Some vCam) s).1.2 = mClients s ++ [vCam]).
  { revert Howned. unfold ownVirtualCamera. unfold_monad.
    destruct (changeFramesInFlight_eq W1 (wrap_i32 (wrap_u32 (vc_getAllowedBuffers W1 vCam))) s)
      as (_ & _ & _ & Hstate & _).
    destruct (changeFramesInFlight W1 _ s) as [[enough s1] t1]. cbn [fst snd] in *.
    destruct enough; cbn [fst snd]; [intros _|done].
    subst s1. by destruct (bool_decide _). }
  assert (Hrest : filter (fun client => client <> vCam) (mClients s ++ [vCam]) = mClients s).
  { rewrite filter_app, filter_cons, decide_False, filter_nil, app_nil_r by tauto.
    clear -Hnew. induction (mClients s) as [|c l IH]; [done|].
    rewrite filter_cons, decide_True by (intros ->; apply Hnew; left).
    f_equal. apply IH. intros Hin. apply Hnew. by right. }
  destruct (bool_decide _); cbn [mClients set_mFrames set_mClients]; by rewrite Hclients.
Qed.

Lemma own_then_disown_restores_clients_witness :
  mClients
    (disownVirtualCamera (willing_world 1) (Some 3%nat)
       (ownVirtualCamera (willing_world 1) (Some 3%nat) (broker_with [1%nat; 2%nat])).1.2).1.2
  = [1%nat; 2%nat].
Proof.
  apply (own_then_disown_restores_clients (willing_world 1) (willing_world 1) 3%nat
           (broker_with [1%nat; 2%nat])).
  - apply (bool_decide_unpack _). vm_compute. exact I.
  - reflexivity.
Defined.

(** The search loops with an erase after them. *)
Lemma find_index_erase {A} (p : A -> bool) (l : list A) :
  match l !! find_index p l with
  | Some x =>
    exists pre post,
      l = pre ++ x :: post /\ Forall (fun y => p y = false) pre /\ p x = true
      /\ delete (find_index p l) l = pre ++ post
  | None => Forall (fun y => p y = false) l
  end.
Proof.
  induction l as [|y l IH]; [constructor|].
  cbn [find_index]. destruct (p y) eqn:Hy.
  - exists [], l. done.
  - cbn [lookup list_lookup]. change (list_lookup (find_index p l) l) with (l !! find_index p l).
    destruct (l !! find_index p l) as [x|].
    + destruct IH as (pre & post & Hl & Hpre & Hx & Hdel).
      exists (y :: pre), post. rewrite Hl at 1. split; [done|].
      split; [by constructor|]. split; [done|]. simpl. by rewrite Hdel.
    + by constructor.
Qed.

Lemma find_index_first_removed {A} (p : A -> bool) (P : A -> Prop) (l : list A) :
  (forall x, p x = true <-> P x) ->
  first_removed P l
    (match l !! find_index p l with Some _ => delete (find_index p l) l | None => l end).
Proof.
  intros Hp. pose proof (find_index_erase p l) as Hfind.
  destruct (l !! find_index p l) as [x|].
  - destruct Hfind as (pre & post & Hl & Hpre & Hx & Hdel).
    right. exists pre, x, post. split; [done|]. split; [|split; [by apply Hp|done]].
    eapply Forall_impl; [exact Hpre|]. simpl. intros y Hy HP. apply Hp in HP. congruence.
  - left. split; [|done].
    eapply Forall_impl; [exact Hfind|]. simpl. intros y Hy HP. apply Hp in HP. congruence.
Qed.

Lemma stillRunning_from W H clients : forall running,
  fold_left
    (fun running client =>
       match promote W client with
       | Some virtCam => running || vc_isStreaming H virtCam
       | None => running
       end) clients running
  = running || bool_decide (Exists (fun v => vc_alive W v = true /\ vc_isStreaming H v = true)
                              clients).
Proof.
  induction clients as [|c clients IH]; intros running.
  - cbn [fold_left]. rewrite bool_decide_eq_false_2 by (by intros ?%Exists_nil).
    by rewrite orb_false_r.
  - cbn [fold_left]. rewrite IH. unfold promote.
    destruct (vc_alive W c) eqn:Halive, (vc_isStreaming H c) eqn:Hstream.
    + rewrite (bool_decide_eq_true_2 (Exists _ (c :: clients)))
        by (by apply Exists_cons_hd).
      by rewrite !orb_true_r.
    + rewrite orb_false_r. f_equal. apply bool_decide_ext. rewrite Exists_cons.
      split; [tauto|]. intros [[_ ?]|?]; [congruence|done].
    + f_equal. apply bool_decide_ext. rewrite Exists_cons.
      split; [tauto|]. intros [[? _]|?]; [congruence|done].
    + f_equal. apply bool_decide_ext. rewrite Exists_cons.
      split; [tauto|]. intros [[? _]|?]; [congruence|done].
Qed.

Lemma stillRunning_spec W H clients :
  stillRunning W H clients = true
  <-> exists v, v ∈ clients /\ vc_alive W v = true /\ vc_isStreaming H v = true.
Proof.
  unfold stillRunning. rewrite stillRunning_from. cbn [orb].
  rewrite bool_decide_eq_true, Exists_exists. done.
Qed.

Lemma clientStreamEnding_eq W H client s :
  clientStreamEnding W H client s =
  let itReq := find_index (fun req => bool_decide (Some (HalCamera.client req) = client))
                 (mNextRequests s) in
  let itCam := find_index (fun entry => bool_decide (promote W entry = client)) (mClients s) in
  let next := match mNextRequests s !! itReq with
              | Some _ => delete itReq (mNextRequests s)
              | None => mNextRequests s
              end in
  let clients := match mClients s !! itCam with
                 | Some _ => delete itCam (mClients s)
                 | None => mClients s
                 end in
  let timeline := match mNextRequests s !! itReq with
                  | Some req => [Base (Timeline_BumpTimelineEventCounter (HalCamera.client req));
                                 Timeline_erase (HalCamera.client req)]
                  | None => []
                  end in
  let s' := set_mClients clients (set_requests (mCurrentRequests s) next s) in
  if stillRunning W H clients then (tt, s', timeline)
  else (tt, set_mStreamState STOPPING s', timeline ++ [Hw_stopVideoStream]).
Proof.
  unfold clientStreamEnding. cbv zeta.
  cbv [mbind Method_bind mret Method_ret lift out gets modify call].
  cbn [fmap list_fmap app mNextRequests mClients mCurrentRequests].
  destruct (mNextRequests s !! _) as [req|];
    cbn [fmap list_fmap app mNextRequests mClients mCurrentRequests set_requests];
    (destruct (mClients s !! _) as [entry|];
     cbn [fmap list_fmap app mNextRequests mClients mCurrentRequests set_requests set_mClients];
     [|destruct s; cbn [mNextRequests mClients mCurrentRequests mStreamState mFrames mMaster]];
     destruct (stillRunning W H _); reflexivity).
Qed.

(** A client ends its stream.  Its first pending request, if it has one,
    leaves the next-cycle deque (later requests of the same client stay),
    and only then is its timeline signalled and erased.  The first entry of
    [mClients] that promotes to the client is removed.  If a live client
    that remains is streaming nothing else happens; if none is, the stream
    state becomes STOPPING and the hardware camera is told, once, to stop.
    The frame records and the master are not touched, and the buffer count
    of the hardware camera is not changed. *)
Theorem clientStreamEnding_spec W H c s :
  first_removed (fun req => client req = c) (mNextRequests s)
    (mNextRequests (clientStreamEnding W H (Some c) s).1.2)
  /\ first_removed (fun entry => promote W entry = Some c) (mClients s)
       (mClients (clientStreamEnding W H (Some c) s).1.2)
  /\ mCurrentRequests (clientStreamEnding W H (Some c) s).1.2 = mCurrentRequests s
  /\ mFrames (clientStreamEnding W H (Some c) s).1.2 = mFrames s
  /\ mMaster (clientStreamEnding W H (Some c) s).1.2 = mMaster s
  /\ requested (base_calls (clientStreamEnding W H (Some c) s).2) = []
  /\ ((Timeline_erase c ∈ (clientStreamEnding W H (Some c) s).2)
      <-> exists req, req ∈ mNextRequests s /\ client req = c)
  /\ ((exists v, v ∈ mClients (clientStreamEnding W H (Some c) s).1.2
                 /\ vc_alive W v = true /\ vc_isStreaming H v = true) ->
        mStreamState (clientStreamEnding W H (Some c) s).1.2 = mStreamState s
        /\ hardware_calls (clientStreamEnding W H (Some c) s).2 = [])
  /\ ((forall v, v ∈ mClients (clientStreamEnding W H (Some c) s).1.2 ->
                 vc_alive W v = true -> vc_isStreaming H v = false) ->
        mStreamState (clientStreamEnding W H (Some c) s).1.2 = STOPPING
        /\ hardware_calls (clientStreamEnding W H (Some c) s).2 = [Hw_stopVideoStream]).
Proof.
  rewrite clientStreamEnding_eq. cbv zeta.
  set (itReq := find_index _ (mNextRequests s)).
  set (itCam := find_index _ (mClients s)).
  set (clients := match mClients s !! itCam with
                  | Some _ => delete itCam (mClients s)
                  | None => mClients s
                  end).
  assert (Hreq : first_removed (fun req => client req = c) (mNextRequests s)
                   (match mNextRequests s !! itReq with
                    | Some _ => delete itReq (mNextRequests s)
                    | None => mNextRequests s
                    end)).
  { apply find_index_first_removed. intros req. rewrite bool_decide_eq_true.
    split; [by intros [= ->]|by intros ->]. }
  assert (Hcam : first_removed (fun entry => promote W entry = Some c) (mClients s) clients).
  { apply find_index_first_removed. intros entry. by rewrite bool_decide_eq_true. }
  assert (Herase : (exists req, mNextRequests s !! itReq = Some req /\ client req = c)
                   <-> exists req, req ∈ mNextRequests s /\ client req = c).
  { pose proof (find_index_erase
                  (fun req => bool_decide (Some (client req) = Some c)) (mNextRequests s))
      as Hfind.
    fold itReq in Hfind. split.
    - intros (req & Hi & Hc). exists req. split; [|done]. by eapply list_elem_of_lookup_2.
    - intros (req & Hin & Hc). destruct (mNextRequests s !! itReq) as [x|].
      + destruct Hfind as (_ & _ & _ & _ & Hx & _). exists x. split; [done|].
        apply bool_decide_eq_true in Hx. congruence.
      + exfalso. rewrite Forall_forall in Hfind. specialize (Hfind req Hin).
        apply bool_decide_eq_false in Hfind. congruence. }
  pose proof (stillRunning_spec W H clients) as Hrun.
  destruct (stillRunning W H clients) eqn:Hstill;
    cbn [fst snd mNextRequests mClients mCurrentRequests mFrames mMaster mStreamState
         set_mClients set_requests set_mStreamState].
  - split; [done|]. split; [done|]. split; [done|]. split; [done|]. split; [done|].
    split; [by destruct (mNextRequests s !! itReq)|].
    split.
    { rewrite <- Herase. destruct (mNextRequests s !! itReq) as [req|].
      - split.
        + intros Hin. exists req. split; [done|].
          apply elem_of_cons in Hin as [Hin|Hin]; [discriminate|].
          apply elem_of_cons in Hin as [Hin|Hin]; [congruence|by apply elem_of_nil in Hin].
        + intros (req' & [= <-] & ->). right. left.
      - split; [by intros ?%elem_of_nil|by intros (? & ? & _)]. }
    split.
    + intros _. split; [done|]. by destruct (mNextRequests s !! itReq).
    + intros Hnone. exfalso. destruct Hrun as [Hrun _].
      destruct (Hrun eq_refl) as (v & Hin & Halive & Hstream).
      rewrite (Hnone v Hin Halive) in Hstream. done.
  - split; [done|]. split; [done|]. split; [done|]. split; [done|]. split; [done|].
    split; [by destruct (mNextRequests s !! itReq)|].
    split.
    { rewrite <- Herase. destruct (mNextRequests s !! itReq) as [req|]; cbn [app].
      - split.
        + intros Hin. exists req. split; [done|].
          apply elem_of_cons in Hin as [Hin|Hin]; [discriminate|].
          apply elem_of_cons in Hin as [Hin|Hin]; [congruence|].
          apply elem_of_cons in Hin as [Hin|Hin]; [discriminate|by apply elem_of_nil in Hin].
        + intros (req' & [= <-] & ->). right. left.
      - split; [|by intros (? & ? & _)].
        intros Hin. apply elem_of_cons in Hin as [Hin|Hin]; [discriminate|].
        by apply elem_of_nil in Hin. }
    split.
    + intros Hsome. apply Hrun in Hsome. congruence.
    + intros _. split; [done|]. by destruct (mNextRequests s !! itReq).
Qed.

(** Starting the stream for a client.  The hardware camera is contacted
    only in the state STOPPED, and the state is RUNNING from then on,
    whatever the camera answers; in any other state the answer is OK and
    nothing happens.  So a second call is answered OK without a word to the
    hardware camera, also when the first start was refused. *)
Theorem clientStreamStarting_contacts_hardware_once H H' s :
  (mStreamState s = STOPPED ->
     clientStreamStarting H s
     = (hw_startVideoStream H, set_mStreamState RUNNING s, [Hw_startVideoStream]))
  /\ (mStreamState s <> STOPPED -> clientStreamStarting H s = (Some OK, s, []))
  /\ clientStreamStarting H' (clientStreamStarting H s).1.2
     = (Some OK, (clientStreamStarting H s).1.2, []).
Proof.
  assert (Hstopped : mStreamState s = STOPPED ->
            clientStreamStarting H s
            = (hw_startVideoStream H, set_mStreamState RUNNING s, [Hw_startVideoStream])).
  { intros Hs. unfold clientStreamStarting.
    cbv [mbind Method_bind mret Method_ret lift out gets modify]. by rewrite Hs. }
  assert (Hother : forall G t, mStreamState t <> STOPPED ->
            clientStreamStarting G t = (Some OK, t, [])).
  { intros G t Hs. unfold clientStreamStarting.
    cbv [mbind Method_bind mret Method_ret lift out gets modify].
    by rewrite bool_decide_eq_false_2. }
  split; [exact Hstopped|]. split; [apply Hother|].
  apply Hother.
  destruct (decide (mStreamState s = STOPPED)) as [Hs|Hs].
  - by rewrite (Hstopped Hs).
  - by rewrite (Hother H s Hs).
Qed.


(** Forwarding an event: every live client of the list gets the event as
    it came, in the order of the list. *)
Lemma forwardEvent_notifications W event clients : forall k s,
  notifications (forwardEvent W event k clients s).2
  = (fun vCam => (vCam, event)) <$> filter (fun vCam => vc_alive W vCam = true) clients
  /\ (forwardEvent W event k clients s).1.2 = s
  /\ returned_buffers (forwardEvent W event k clients s).2 = []
  /\ requested (forwardEvent W event k clients s).2 = []
  /\ Forall (fun c => match c with Log ALOGW _ => False | _ => True end)
       (forwardEvent W event k clients s).2.
Proof.
  induction clients as [|c clients IH]; intros k s.
  - cbn. repeat split; constructor.
  - cbn [forwardEvent]. unfold promote.
    destruct (vc_alive W c) eqn:Halive.
    + rewrite (filter_cons_True (fun v => vc_alive W v = true) c clients Halive).
      destruct (IH (S k) s) as (Hn & Hs & Hr & Hq & Hw).
      unfold_monad.
      destruct (vc_notify W k c event); cbn [negb app fst snd];
        destruct (forwardEvent W event (S k) clients s) as [[[] s1] t1];
        cbn [fst snd app] in *; rewrite fmap_cons, <- Hn.
      * split; [done|]. split; [done|]. split; [done|]. split; [done|]. by constructor.
      * split; [done|]. split; [done|]. split; [done|]. split; [done|]. by repeat constructor.
    + rewrite (filter_cons_False (fun v => vc_alive W v = true) c clients)
        by (by rewrite Halive).
      apply IH.
Qed.

Lemma notify_eq W event s :
  exists tr,
    notify W event s
    = (tt,
       (if bool_decide (aType event = STREAM_STOPPED) then set_mStreamState STOPPED s else s),
       Log ALOGD "Received an event id: %u"
       :: (if bool_decide (aType event = STREAM_STOPPED)
              && negb (bool_decide (mStreamState s = STOPPING))
           then [Log ALOGW "Stream stopped unexpectedly"] else [])
       ++ tr)
    /\ notifications tr
       = (fun vCam => (vCam, event)) <$> filter (fun vCam => vc_alive W vCam = true) (mClients s)
    /\ returned_buffers tr = [] /\ requested tr = []
    /\ Forall (fun c => match c with Log ALOGW _ => False | _ => True end) tr.
Proof.
  unfold notify. unfold_monad.
  destruct (bool_decide (aType event = STREAM_STOPPED)); cbn [andb].
  - destruct (forwardEvent_notifications W event (mClients s) 0 (set_mStreamState STOPPED s))
      as (Hn & Hs & Hrest).
    destruct (forwardEvent W event 0 (mClients s) (set_mStreamState STOPPED s))
      as [[[] s1] t1] eqn:Hrun.
    cbn [fst snd] in *. subst s1. exists t1.
    destruct (bool_decide (mStreamState s = STOPPING)); cbn [negb app mClients set_mStreamState];
      rewrite ?Hrun; cbn [app]; done.
  - destruct (forwardEvent_notifications W event (mClients s) 0 s) as (Hn & Hs & Hrest).
    destruct (forwardEvent W event 0 (mClients s) s) as [[[] s1] t1] eqn:Hrun.
    cbn [fst snd] in *. subst s1. exists t1. cbn [app]. done.
Qed.


(** Taking the master role by force.  The answer is always OK and the
    caller is the master afterwards, so that its [unsetMaster] is accepted.
    A live previous master other than the caller is told MASTER_RELEASED,
    once, and nobody else is told anything; no client of [mClients] hears
    of the change.  Nothing but [mMaster] changes. *)
Theorem forceMaster_spec W virtualCamera s :
  (forall vCam, virtualCamera = Some vCam -> vc_alive W vCam = true) ->
  (forceMaster W virtualCamera s).1.1 = OK
  /\ mMaster (forceMaster W virtualCamera s).1.2 ≫= promote W = virtualCamera
  /\ (forceMaster W virtualCamera s).1.2
     = set_mMaster (mMaster (forceMaster W virtualCamera s).1.2) s
  /\ notifications (forceMaster W virtualCamera s).2
     = match mMaster s ≫= promote W with
       | Some prevMaster =>
         if bool_decide (Some prevMaster = virtualCamera) then []
         else [(prevMaster, {| aType := MASTER_RELEASED; payload := [] |})]
       | None => []
       end
  /\ (unsetMaster W virtualCamera (forceMaster W virtualCamera s).1.2).1.1 = OK.
Proof.
  intros Halive.
  assert (Hcaller : virtualCamera ≫= promote W = virtualCamera).
  { destruct virtualCamera as [vCam|]; [|done]. simpl. unfold promote.
    by rewrite (Halive vCam eq_refl). }
  assert (Hrun : (forceMaster W virtualCamera s).1.1 = OK
                 /\ mMaster (forceMaster W virtualCamera s).1.2 ≫= promote W = virtualCamera
                 /\ (forceMaster W virtualCamera s).1.2
                    = set_mMaster (mMaster (forceMaster W virtualCamera s).1.2) s
                 /\ notifications (forceMaster W virtualCamera s).2
                    = match mMaster s ≫= promote W with
                      | Some prevMaster =>
                        if bool_decide (Some prevMaster = virtualCamera) then []
                        else [(prevMaster, {| aType := MASTER_RELEASED; payload := [] |})]
                      | None => []
                      end).
  { unfold forceMaster.
    destruct (decide (mMaster s ≫= promote W = virtualCamera)) as [Hsame|Hother].
    - unfold_monad. rewrite bool_decide_eq_true_2 by exact Hsame.
      change (option_bind _ _ (promote W) (mMaster s)) with (mMaster s ≫= promote W).
      cbn [fst snd app mMaster]. split; [done|]. split; [done|].
      split; [by destruct s|].
      destruct (mMaster s ≫= promote W) as [prev|]; [|done].
      by rewrite bool_decide_eq_true_2.
    - unfold_monad. rewrite bool_decide_eq_false_2 by exact Hother.
      change (option_bind _ _ (promote W) (mMaster s)) with (mMaster s ≫= promote W).
      destruct (mMaster s ≫= promote W) as [prev|] eqn:Hprev.
      + rewrite (bool_decide_eq_false_2 (Some prev = virtualCamera)) by done.
        destruct (vc_notify W 0 prev _); cbn [negb app fst snd mMaster set_mMaster]; done.
      + cbn [app fst snd mMaster set_mMaster]. done. }
  destruct Hrun as (Hres & Hmaster & Hstate & Hnote).
  split; [done|]. split; [done|]. split; [done|]. split; [done|].
  unfold unsetMaster. unfold_monad.
  rewrite (bool_decide_eq_true_2 _ Hmaster).
  by destruct (notify W _ _) as [[[] s1] t1].
Qed.

Lemma forceMaster_spec_witness :
  notifications
    (forceMaster (willing_world 1) (Some 2%nat)
       (set_mMaster (Some 1%nat) (broker_with [1%nat; 2%nat]))).2
  = [(1%nat, {| aType := MASTER_RELEASED; payload := [] |})]
  /\ mMaster
       (forceMaster (willing_world 1) (Some 2%nat)
          (set_mMaster (Some 1%nat) (broker_with [1%nat; 2%nat]))).1.2 = Some 2%nat.
Proof.
  destruct (forceMaster_spec (willing_world 1) (Some 2%nat)
              (set_mMaster (Some 1%nat) (broker_with [1%nat; 2%nat])))
    as (_ & _ & _ & Hnote & _).
  - intros vCam _. reflexivity.
  - split; [etrans; [exact Hnote|reflexivity]|reflexivity].
Defined.

Lemma base_calls_app t1 t2 : base_calls (t1 ++ t2) = base_calls t1 ++ base_calls t2.
Proof. unfold base_calls. by rewrite bind_app. Qed.

Lemma hardware_calls_app t1 t2 :
  hardware_calls (t1 ++ t2) = hardware_calls t1 ++ hardware_calls t2.
Proof. unfold hardware_calls. by rewrite bind_app. Qed.

Lemma base_calls_Base tr : base_calls (Base <$> tr) = tr.
Proof. induction tr as [|c tr IH]; [done|]. cbn. by rewrite <- IH at 2. Qed.

Lemma hardware_calls_Base tr : hardware_calls (Base <$> tr) = [].
Proof. induction tr as [|c tr IH]; [done|]. cbn. exact IH. Qed.

(** Setting a camera parameter.  A caller that is not the master is
    declined with INVALID_ARG: the hardware camera is asked for the current
    value only, never told to set one, and the value handed back is the one
    it reports with OK (the caller's own value otherwise).  For the master
    the hardware camera is told to set the value, once; the answer is its
    status (INVALID_ARG if the transaction failed) with the value it read
    back, and exactly when the status is OK every live client of [mClients]
    is sent PARAMETER_CHANGED carrying the parameter and the value read
    back.  The broker's own state does not change either way. *)
Theorem setParameter_spec W H virtualCamera id value s :
  (virtualCamera <> mMaster s ≫= promote W ->
     (setParameter W H virtualCamera id value s).1.1
     = (INVALID_ARG,
        match hw_getIntParameter H id with
        | Some (OK, readValue0) => readValue0
        | _ => value
        end)
     /\ (setParameter W H virtualCamera id value s).1.2 = s
     /\ hardware_calls (setParameter W H virtualCamera id value s).2 = [Hw_getIntParameter id]
     /\ notifications (base_calls (setParameter W H virtualCamera id value s).2) = [])
  /\ (virtualCamera = mMaster s ≫= promote W ->
        (setParameter W H virtualCamera id value s).1.1
        = match hw_setIntParameter H id value with
          | Some answer => answer
          | None => (INVALID_ARG, value)
          end
        /\ (setParameter W H virtualCamera id value s).1.2 = s
        /\ hardware_calls (setParameter W H virtualCamera id value s).2
           = [Hw_setIntParameter id value]
        /\ notifications (base_calls (setParameter W H virtualCamera id value s).2)
           = match hw_setIntParameter H id value with
             | Some (OK, readValue0) =>
               (fun vCam => (vCam, {| aType := PARAMETER_CHANGED;
                                      payload := [wrap_u32 id; wrap_u32 readValue0] |}))
                 <$> filter (fun vCam => vc_alive W vCam = true) (mClients s)
             | _ => []
             end).
Proof.
  split.
  - intros Hother. unfold setParameter, getParameter.
    cbv [mbind Method_bind mret Method_ret lift out gets modify call].
    rewrite bool_decide_eq_false_2 by done. cbn [fmap list_fmap app].
    destruct (hw_getIntParameter H id) as [[status readValue0]|]; cbn [fst snd app]; [|done].
    by destruct status.
  - intros Hmaster. unfold setParameter.
    cbv [mbind Method_bind mret Method_ret lift out gets modify call].
    rewrite bool_decide_eq_true_2 by done.
    destruct (hw_setIntParameter H id value) as [[status readValue0]|]; cbn [fst snd].
    + destruct (bool_decide_reflect (status = OK)) as [->|Hstatus].
      * destruct (notify_eq W {| aType := PARAMETER_CHANGED;
                                 payload := [wrap_u32 id; wrap_u32 readValue0] |} s)
          as (tr & -> & Hn & _).
        cbn [aType]. rewrite bool_decide_eq_false_2 by discriminate.
        cbn [andb app fst snd]. rewrite app_nil_r.
        split; [done|]. split; [done|].
        change ((Base <$> []) ++ ?t) with t.
        change (hardware_calls (Hw_setIntParameter id value :: ?t))
          with (Hw_setIntParameter id value :: hardware_calls t).
        change (base_calls (Hw_setIntParameter id value :: ?t)) with (base_calls t).
        rewrite hardware_calls_Base, base_calls_Base.
        split; [done|].
        change (notifications (Log ALOGD ?m :: tr)) with (notifications tr). exact Hn.
      * cbn [app fst snd]. split; [done|]. split; [done|]. split; [done|].
        by destruct status.
    + rewrite bool_decide_eq_false_2 by discriminate. cbn [app fst snd]. done.
Qed.

(** Releases of a frame whose record in use holds [m] references: nothing
    goes back to the hardware camera before the [m]-th release. *)
Lemma releases_until_last refT b k : forall s m i,
  tracker_ok refT (mFrames s) ->
  mFrames s !! i = Some {| frameId := bufferId b; refCount := m |} ->
  0 < m -> Z.of_nat k <= m ->
  returned_buffers (run refT (replicate k (Done b)) s).2
  = (if Z.of_nat k =? m then [b] else []).
Proof.
  induction k as [|k IH]; intros s m i Hok Hi Hm Hk.
  - cbn. destruct (Z.eqb_spec (Z.of_nat 0) m); [lia|done].
  - cbn [replicate]. rewrite run_cons_trace, returned_buffers_app. cbn [step].
    assert (Hused : in_use (bufferId b) {| frameId := bufferId b; refCount := m |})
      by (by split).
    pose proof (live_count_pos _ _ _ _ Hi Hused) as Hlive.
    destruct (done_step refT b s Hok Hlive) as (j & rec & Hj & Hu & Hf & Hret & Hok' & _).
    assert (Hsame : j = i).
    { destruct Hok as (_ & Hfirst & _).
      pose proof (Hfirst j rec Hj (proj2 Hu)) as H1.
      pose proof (Hfirst i _ Hi Hm) as H2. cbn [frameId] in H2.
      destruct Hu as [Hid _]. rewrite Hid in H1. congruence. }
    subst j. rewrite Hi in Hj. injection Hj as <-. cbn [refCount] in *.
    rewrite Hret.
    destruct (Z.eqb_spec m 1) as [->|Hmore].
    + destruct k as [|k]; [|lia]. cbn. done.
    + rewrite (IH _ (m - 1) i Hok'); [| |lia|lia].
      * cbn [app]. destruct (Z.eqb_spec (Z.of_nat k) (m - 1)), (Z.eqb_spec (Z.of_nat (S k)) m);
          try done; lia.
      * rewrite Hf. apply list_lookup_insert_eq. by eapply lookup_lt_Some.
Qed.

(** A frame that [n] clients accepted goes back to the hardware camera on
    their [n]-th [doneWithFrame], and not before: after the delivery and [k]
    releases, [k] up to [n], the frame has been returned exactly when [k] is
    [n].  The frame is one the tracker does not hold as in use at its
    delivery, and [n] fits the record's counter. *)
Theorem shared_frame_returns_on_last_release refT W b s k :
  tracker_ok refT (mFrames s) ->
  ~ live (mFrames s) (bufferId b) ->
  0 < accepted (deliverFrame_1_1 refT W b [] s).2 <= refCount_max refT ->
  Z.of_nat k <= accepted (deliverFrame_1_1 refT W b [] s).2 ->
  returned_buffers (run refT (Deliver W b :: replicate k (Done b)) s).2
  = (if Z.of_nat k =? accepted (deliverFrame_1_1 refT W b [] s).2 then [b] else []).
Proof.
  intros Hok Hdead Hn Hk.
  rewrite run_cons_trace, returned_buffers_app. cbn [step].
  destruct (deliver_step refT W b s Hok Hdead (proj2 Hn)) as (Hok' & Hret & Hf & _).
  destruct (Z.eqb_spec (accepted (deliverFrame_1_1 refT W b [] s).2) 0) as [H0|_]; [lia|].
  rewrite Hret. cbn [app].
  rewrite trackFrame_eq, wrap_ref_small in Hf by lia.
  destruct (mFrames s !! find_index (fun rec => refCount rec =? 0) (mFrames s))
    as [old|] eqn:Hslot.
  - apply (releases_until_last refT b k _ _
             (find_index (fun rec => refCount rec =? 0) (mFrames s))); [done| |lia|done].
    rewrite Hf. apply list_lookup_insert_eq. by eapply lookup_lt_Some.
  - apply (releases_until_last refT b k _ _ (length (mFrames s))); [done| |lia|done].
    rewrite Hf. by rewrite lookup_app_r, Nat.sub_diag by lia.
Qed.

Lemma shared_frame_returns_on_last_release_witness :
  returned_buffers
    (run RefInt32
       [Deliver (willing_world 0) (frame 7 0); Done (frame 7 0)]
       (broker_with [1%nat; 2%nat])).2 = []
  /\ returned_buffers
       (run RefInt32
          [Deliver (willing_world 0) (frame 7 0); Done (frame 7 0); Done (frame 7 0)]
          (broker_with [1%nat; 2%nat])).2 = [frame 7 0].
Proof.
  split.
  - refine (shared_frame_returns_on_last_release RefInt32 (willing_world 0) (frame 7 0)
              (broker_with [1%nat; 2%nat]) 1 _ _ _ _).
    + apply tracker_ok_nil.
    + unfold live, live_count. simpl. lia.
    + vm_compute. split; [reflexivity|discriminate].
    + vm_compute. discriminate.
  - reflexivity.
Defined.

End BrokerClientFacts.

(** ** EvsV4lCamera *)

Section DriverFacts.
Import Machine EvsV4lCamera.

(** The loop of [Create] when no configuration matches exactly: the area it
    ends with bounds every smaller configuration of the format, and the id
    it ends with is the one it started from or that of a smaller
    configuration of exactly that area. *)
Lemma selectStream_no_exact req cfgs : forall streamId a,
  Forall plain cfgs ->
  Forall (fun ic => ~ exact_match req ic.2) cfgs ->
  a <= (selectStream req cfgs streamId a).2
  /\ (forall ic, ic ∈ cfgs -> smaller req ic.2 -> area ic.2 <= (selectStream req cfgs streamId a).2)
  /\ (selectStream req cfgs streamId a = (streamId, a)
      \/ exists cfg,
           ((selectStream req cfgs streamId a).1, cfg) ∈ cfgs /\ smaller req cfg /\
           area cfg = (selectStream req cfgs streamId a).2 /\ a < area cfg).
Proof.
  induction cfgs as [|[id cfg] cfgs IH]; intros streamId a Hplain Hexact.
  - simpl. split; [lia|]. split; [|by left]. intros ic Hic. by apply elem_of_nil in Hic.
  - apply Forall_cons in Hplain as [(Hid & Hw & Hh & Harea) Hplain].
    apply Forall_cons in Hexact as [Hne Hexact]. simpl in Hid, Hw, Hh, Harea, Hne.
    assert (Hwrap : wrap_i32 (cfg_width cfg * cfg_height cfg) = area cfg).
    { apply wrap_i32_small. unfold area, INT32_MIN, INT32_MAX in *. nia. }
    cbn [selectStream]. rewrite Hwrap.
    destruct (Z.eqb_spec (wrap_u32 (cfg_format cfg)) (wrap_u32 (stream_format req)))
      as [Hfmt|Hfmt].
    + destruct ((wrap_u32 (cfg_width cfg) =? stream_width req) &&
                (wrap_u32 (cfg_height cfg) =? stream_height req)) eqn:Hex.
      { exfalso. apply Hne. apply andb_true_iff in Hex as [H1 H2].
        apply Z.eqb_eq in H1, H2. by repeat split. }
      destruct ((wrap_u32 (cfg_width cfg) <? stream_width req) &&
                (wrap_u32 (cfg_height cfg) <? stream_height req) &&
                (a <? area cfg)) eqn:Hbetter.
      * (* this configuration becomes the choice *)
        apply andb_true_iff in Hbetter as [Hdims Ha].
        apply andb_true_iff in Hdims as [Hw' Hh'].
        apply Z.ltb_lt in Hw', Hh', Ha.
        assert (Hsm : smaller req cfg) by (by repeat split).
        destruct (IH id (area cfg) Hplain Hexact) as (Hle & Hmax & Hsel).
        split; [lia|]. split.
        -- intros ic Hic Hs. apply elem_of_cons in Hic as [->|Hic]; [simpl; lia|auto].
        -- right. destruct Hsel as [Hsame|(cfg' & Hin & Hs' & Ha' & Hgt)].
           ++ rewrite Hsame. exists cfg. simpl.
              split; [by left|]. split; [done|]. split; [done|lia].
           ++ exists cfg'. split; [by right|]. split; [done|]. split; [done|lia].
      * (* it is not smaller, or not larger than the choice so far *)
        destruct (IH streamId a Hplain Hexact) as (Hle & Hmax & Hsel).
        split; [done|]. split.
        -- intros ic Hic Hs. apply elem_of_cons in Hic as [->|Hic]; [|auto].
           simpl in Hs. destruct Hs as (_ & Hw' & Hh').
           apply andb_false_iff in Hbetter as [Hdims|Ha].
           ++ apply andb_false_iff in Hdims as [Hd|Hd]; apply Z.ltb_ge in Hd; lia.
           ++ apply Z.ltb_ge in Ha. simpl. lia.
        -- destruct Hsel as [Hsame|(cfg' & Hin & Hs' & Ha' & Hgt)]; [by left|].
           right. exists cfg'. split; [by right|]. done.
    + destruct (IH streamId a Hplain Hexact) as (Hle & Hmax & Hsel).
      split; [done|]. split.
      * intros ic Hic Hs. apply elem_of_cons in Hic as [->|Hic]; [|auto].
        destruct Hs as (Hf & _). simpl in Hf. done.
      * destruct Hsel as [Hsame|(cfg' & Hin & Hs' & Ha' & Hgt)]; [by left|].
        right. exists cfg'. split; [by right|]. done.
Qed.

(** In a map the id finds its configuration. *)
Lemma configOf_elem cfgs id cfg :
  NoDup cfgs.*1 -> (id, cfg) ∈ cfgs -> configOf cfgs id = Some cfg.
Proof.
  unfold configOf. induction cfgs as [|[id' cfg'] cfgs IH]; intros Hnd Hin.
  - by apply elem_of_nil in Hin.
  - rewrite fmap_cons in Hnd. apply NoDup_cons in Hnd as [Hfresh Hnd]. simpl in Hfresh.
    cbn [list_find]. simpl.
    apply elem_of_cons in Hin as [[= <- <-]|Hin].
    + by rewrite decide_True.
    + rewrite decide_False.
      * specialize (IH Hnd Hin). destruct (list_find _ cfgs) as [[k found]|]; simpl in *; done.
      * intros <-. apply Hfresh. apply list_elem_of_fmap. by exists (id', cfg).
Qed.

Lemma Create_absent drv alloc name camInfo req :
  camInfo = None \/ req = None ->
  opened_by_default drv name (Create drv alloc name camInfo req).
Proof.
  intros Habsent. unfold opened_by_default, Create.
  assert (Hpre : (match camInfo, req with
                  | Some info, Some r =>
                    let '(streamId, _) :=
                      selectStream r (streamConfigurations info) (-1) INT32_MIN in
                    match (if 0 <=? streamId
                           then configOf (streamConfigurations info) streamId else None) with
                    | Some cfg =>
                      (video_open drv name (cfg_width cfg) (cfg_height cfg),
                       set_opened (construct alloc)
                         (video_open drv name (cfg_width cfg) (cfg_height cfg))
                         (wrap_u32 (cfg_format cfg)),
                       [LogI "Try to open a video with width: %d, height: %d, format: %d";
                        Video_open name (cfg_width cfg) (cfg_height cfg)
                          (video_open drv name (cfg_width cfg) (cfg_height cfg))])
                    | None => (false, construct alloc, [])
                    end
                  | _, _ => (false, construct alloc, [])
                  end) = (false, construct alloc, [])).
  { destruct Habsent as [-> | ->]; [done|]. by destruct camInfo. }
  cbv zeta. rewrite Hpre. cbn [kDefaultResolution fst snd app].
  destruct (video_open drv name 640 480) eqn:Hopen; cbn [fst snd]; by rewrite ?Hopen.
Qed.

(** C8, as the spec words it, fails.  The request is 1280 x 720 in format
    1; the camera has one configuration of that format, 1280 x 480.  It is
    no exact match and it fits within the requested bounds, yet [Create]
    passes it over, as it is not narrower than the request, and opens the
    device at the default 640 x 480. *)
Lemma Create_skips_configuration_of_equal_width :
  spec_fits_within {| stream_width := 1280; stream_height := 720; stream_format := 1 |}
    (stream_config 0 1280 480 1).2
  /\ ~ exact_match {| stream_width := 1280; stream_height := 720; stream_format := 1 |}
         (stream_config 0 1280 480 1).2
  /\ opens
       (Create obliging_driver [] "/dev/video0"
          (Some {| streamConfigurations := [stream_config 0 1280 480 1] |})
          (Some {| stream_width := 1280; stream_height := 720; stream_format := 1 |})).2
     = [(640, 480)].
Proof.
  split; [|split].
  - unfold spec_fits_within, same_format. simpl. repeat split; lia.
  - intros (_ & _ & Hheight). vm_compute in Hheight. discriminate.
  - vm_compute. reflexivity.
Qed.

(** C8, amended.  The configurations form a map of plain entries, none of
    which matches the request exactly.  If some configuration has the
    requested format and is narrower and lower than the request, [Create]
    first tries to open the device at the resolution of one of them whose
    area no other of them exceeds, and when that succeeds the camera is
    open with that configuration's format and nothing else was tried.  If
    there is none, or no camera information or no request was given,
    [Create] goes for the default: 640 x 480 and RGBA. *)
Theorem Create_takes_largest_smaller_configuration drv alloc name info req :
  NoDup (streamConfigurations info).*1 ->
  Forall plain (streamConfigurations info) ->
  Forall (fun ic => ~ exact_match req ic.2) (streamConfigurations info) ->
  ((exists ic, ic ∈ streamConfigurations info /\ smaller req ic.2) ->
     exists id cfg,
       (id, cfg) ∈ streamConfigurations info /\ smaller req cfg /\
       (forall ic, ic ∈ streamConfigurations info -> smaller req ic.2 -> area ic.2 <= area cfg) /\
       head (opens (Create drv alloc name (Some info) (Some req)).2)
       = Some (cfg_width cfg, cfg_height cfg) /\
       (video_open drv name (cfg_width cfg) (cfg_height cfg) = true ->
          opens (Create drv alloc name (Some info) (Some req)).2
          = [(cfg_width cfg, cfg_height cfg)] /\
          exists cam,
            (Create drv alloc name (Some info) (Some req)).1 = Some cam /\
            mVideo_isOpen cam = true /\ mFormat cam = wrap_u32 (cfg_format cfg)))
  /\ ((forall ic, ic ∈ streamConfigurations info -> ~ smaller req ic.2) ->
        opened_by_default drv name (Create drv alloc name (Some info) (Some req)))
  /\ (forall req', opened_by_default drv name (Create drv alloc name None req'))
  /\ (forall info', opened_by_default drv name (Create drv alloc name info' None)).
Proof.
  intros Hnd Hplain Hexact.
  destruct (selectStream_no_exact req (streamConfigurations info) (-1) INT32_MIN Hplain Hexact)
    as (Hle & Hmax & Hsel).
  split; [|split; [|split]].
  - intros (ic0 & Hin0 & Hs0).
    assert (Hpos : 0 <= area ic0.2).
    { rewrite Forall_forall in Hplain. destruct (Hplain ic0 Hin0) as (_ & Hw & Hh & _).
      unfold area. nia. }
    pose proof (Hmax ic0 Hin0 Hs0) as Hbound.
    destruct Hsel as [Hsame|(cfg & Hin & Hs & Ha & Hgt)].
    { rewrite Hsame in Hbound. simpl in Hbound. unfold INT32_MIN in Hbound. lia. }
    destruct (selectStream req (streamConfigurations info) (-1) INT32_MIN)
      as [streamId a] eqn:Hrun. simpl in Hin, Ha, Hmax.
    exists streamId, cfg.
    split; [done|]. split; [done|]. split; [intros ic Hic Hsm; rewrite Ha; auto|].
    assert (Hid : 0 <= streamId).
    { rewrite Forall_forall in Hplain. by destruct (Hplain _ Hin) as (? & _). }
    assert (Hcfg : configOf (streamConfigurations info) streamId = Some cfg)
      by (by apply configOf_elem).
    unfold Create. rewrite Hrun.
    apply Z.leb_le in Hid. rewrite Hid, Hcfg.
    destruct (video_open drv name (cfg_width cfg) (cfg_height cfg)) eqn:Hopen.
    + cbn [fst snd]. split; [done|]. intros _. split; [done|].
      eexists. split; [done|]. done.
    + cbn [fst snd kDefaultResolution app].
      split; [|done].
      destruct (video_open drv name 640 480); done.
  - intros Hnone.
    destruct Hsel as [Hsame|(cfg & Hin & Hs & _)]; [|by destruct (Hnone _ Hin)].
    unfold opened_by_default, Create. rewrite Hsame.
    cbn [kDefaultResolution fst snd app Z.leb Z.compare].
    destruct (video_open drv name 640 480) eqn:Hopen; cbn [fst snd]; by rewrite ?Hopen.
  - intros req'. apply Create_absent. by left.
  - intros info'. apply Create_absent. by right.
Qed.

Lemma Create_takes_largest_smaller_configuration_witness :
  exists id cfg,
    (id, cfg) ∈ [stream_config 0 320 240 1; stream_config 1 1280 480 1;
                 stream_config 2 800 600 1; stream_config 3 1024 700 4] /\
    smaller {| stream_width := 1280; stream_height := 720; stream_format := 1 |} cfg /\
    (forall ic,
       ic ∈ [stream_config 0 320 240 1; stream_config 1 1280 480 1;
             stream_config 2 800 600 1; stream_config 3 1024 700 4] ->
       smaller {| stream_width := 1280; stream_height := 720; stream_format := 1 |} ic.2 ->
       area ic.2 <= area cfg) /\
    head (opens
            (Create obliging_driver [] "/dev/video0"
               (Some {| streamConfigurations :=
                          [stream_config 0 320 240 1; stream_config 1 1280 480 1;
                           stream_config 2 800 600 1; stream_config 3 1024 700 4] |})
               (Some {| stream_width := 1280; stream_height := 720; stream_format := 1 |})).2)
    = Some (cfg_width cfg, cfg_height cfg).
Proof.
  destruct (Create_takes_largest_smaller_configuration obliging_driver [] "/dev/video0"
              {| streamConfigurations :=
                   [stream_config 0 320 240 1; stream_config 1 1280 480 1;
                    stream_config 2 800 600 1; stream_config 3 1024 700 4] |}
              {| stream_width := 1280; stream_height := 720; stream_format := 1 |})
    as (Hbest & _).
  - apply (bool_decide_unpack _). vm_compute. exact I.
  - repeat constructor; unfold INT32_MAX, area; simpl; lia.
  - repeat constructor; intros (Hf & Hw & Hh); vm_compute in Hf, Hw, Hh; discriminate.
  - destruct Hbest as (id & cfg & Hin & Hsm & Hmax & Hhead & _).
    + exists (stream_config 0 320 240 1). split; [by left|].
      unfold smaller, same_format. simpl. repeat split; lia.
    + exists id, cfg. done.
Defined.

(** C9 at the input where the code leaves the claim.  A camera opened with
    default parameters gets one buffer (handle 11); a request for two
    buffers then meets an allocator that refuses.  Nothing was added, so
    the roll-back calls [decreaseAvailableFrames_Locked(0)], whose loop
    tests [removed == numToRemove] only after counting a buffer: it frees
    the idle buffer 11 and takes [mFramesAllowed] from 1 to 0.  The answer
    is BUFFER_NOT_AVAILABLE, as the claim says, but the count is not the
    one before the call and the buffer freed is not one of the attempt. *)
Theorem failed_growth_frees_an_older_buffer :
  match Create obliging_driver [grants 11; refuses] "/dev/video0" None None with
  | (Some camera, _) =>
    let '(r1, s1, _) := setMaxFramesInFlight 1 camera in
    let '(r2, s2, evs) := setMaxFramesInFlight 2 s1 in
    r1 = OK
    /\ mFramesAllowed s1 = 1
    /\ mBuffers s1 = [{| handle := Some 11; inUse := false |}]
    /\ r2 = BUFFER_NOT_AVAILABLE
    /\ mFramesAllowed s2 = 0
    /\ mBuffers s2 = [{| handle := None; inUse := false |}]
    /\ evs = [LogI "Allocating %d buffers for camera frames";
              Alloc_allocate refuses;
              LogE "Error %d allocating %d x %d graphics buffer";
              LogE "Rolling back to previous frame queue size";
              Alloc_free 11]
  | (None, _) => False
  end.
Proof.
  vm_compute. repeat split; reflexivity.
Qed.

Lemma idle_count_cons rec bufs :
  idle_count (rec :: bufs) = ((if idle rec then 1 else 0) + idle_count bufs)%nat.
Proof.
  unfold idle_count. rewrite filter_cons.
  destruct (idle rec); [by rewrite decide_True|by rewrite decide_False].
Qed.

Lemma storeHandle_idle_count h bufs :
  idle_count (storeHandle h bufs) = S (idle_count bufs).
Proof.
  induction bufs as [|rec bufs IH]; [done|].
  cbn [storeHandle]. destruct (handle rec) eqn:Hh.
  - rewrite !idle_count_cons, IH. lia.
  - rewrite !idle_count_cons. unfold idle at 2. rewrite Hh. done.
Qed.

Lemma wrap_u32_sub_l a b : wrap_u32 (wrap_u32 a - b) = wrap_u32 (a - b).
Proof. unfold wrap_u32. by rewrite Zminus_mod_idemp_l. Qed.

(** The growing loop adds [k] buffers, for some [k] up to [todo]; it stops
    short only when the allocator gives none. *)
Lemma increaseLoop_spec todo : forall added s,
  0 <= added -> added + Z.of_nat todo <= UINT32_MAX ->
  0 <= mFramesAllowed s <= UINT32_MAX ->
  exists k : nat,
    (k <= todo)%nat
    /\ (increaseLoop todo added s).1.1 = added + Z.of_nat k
    /\ mFramesAllowed (increaseLoop todo added s).1.2
       = wrap_u32 (mFramesAllowed s + Z.of_nat k)
    /\ idle_count (mBuffers (increaseLoop todo added s).1.2)
       = (idle_count (mBuffers s) + k)%nat
    /\ mVideo_isOpen (increaseLoop todo added s).1.2 = mVideo_isOpen s
    /\ freed (increaseLoop todo added s).2 = []
    /\ ((0 < todo)%nat -> (exists a, head (gralloc s) = Some a /\ granted a) -> (0 < k)%nat).
Proof.
  induction todo as [|todo IH]; intros added s Ha Hmax Hrange.
  - exists 0%nat. cbn [increaseLoop fst snd]. rewrite !Z.add_0_r, wrap_u32_small by done.
    repeat split; try done; try lia.
  - cbn [increaseLoop].
    set (answer := match gralloc s with
                   | a :: _ => a
                   | [] => {| alloc_status := NO_MEMORY; alloc_memHandle := None;
                              alloc_pixelsPerLine := 0 |}
                   end).
    destruct (negb (alloc_status answer =? NO_ERROR)) eqn:Hstatus.
    { exists 0%nat. cbn [fst snd with_buffers mFramesAllowed mBuffers mVideo_isOpen].
      rewrite !Z.add_0_r, wrap_u32_small by done.
      split; [lia|]. split; [lia|]. split; [lia|]. split; [lia|]. split; [done|].
      split; [done|]. intros _ (a & Hhead & Hst & _). exfalso.
      destruct (gralloc s) as [|a' g]; [done|]. injection Hhead as ->.
      subst answer. cbn in Hstatus. rewrite Hst in Hstatus. done. }
    destruct (alloc_memHandle answer) as [memHandle|] eqn:Hhandle.
    2:{ exists 0%nat. cbn [fst snd with_buffers mFramesAllowed mBuffers mVideo_isOpen].
        rewrite !Z.add_0_r, wrap_u32_small by done.
        split; [lia|]. split; [lia|]. split; [lia|]. split; [lia|]. split; [done|].
        split; [done|]. intros _ (a & Hhead & _ & Hsome). exfalso.
        destruct (gralloc s) as [|a' g]; [done|]. injection Hhead as ->.
        subst answer. cbn in Hhandle. rewrite Hhandle in Hsome. by destruct Hsome. }
    cbn [with_buffers mStride mFramesAllowed mBuffers gralloc].
    destruct (negb (mStride s =? 0));
      [destruct (negb (mStride s =? alloc_pixelsPerLine answer))|];
      (match goal with
       | |- context [increaseLoop todo ?a ?st] =>
         destruct (IH a st) as (k & Hk & Hadded & Hallowed & Hidle & Hopen & Hfreed & _);
           [pose proof (wrap_u32_range (added + 1)); lia
           |rewrite wrap_u32_small by (unfold UINT32_MAX in *; lia); lia
           |cbn [mFramesAllowed with_buffers]; apply wrap_u32_range|];
           destruct (increaseLoop todo a st) as [[added' s'] evs] eqn:Hrun
       end;
       cbn [fst snd] in *;
       rewrite wrap_u32_small in Hadded by (unfold UINT32_MAX in *; lia);
       exists (S k); split; [lia|]; split; [lia|]; split;
       [rewrite Hallowed; cbn [mFramesAllowed with_buffers];
        rewrite wrap_u32_add_l; f_equal; lia|];
       split;
       [rewrite Hidle; cbn [mBuffers with_buffers]; rewrite storeHandle_idle_count; lia|];
       split; [by rewrite Hopen|]; split; [exact Hfreed|lia]).
Qed.

(** The shrinking loop, asked for at least one buffer and with that many
    idle buffers before it, frees exactly what it was asked for. *)
Lemma decreaseLoop_spec numToRemove bufs : forall removed allowed,
  0 <= removed < numToRemove -> numToRemove <= UINT32_MAX ->
  (Z.to_nat (numToRemove - removed) <= idle_count bufs)%nat ->
  (decreaseLoop numToRemove removed allowed bufs).1.1.2 = numToRemove
  /\ (decreaseLoop numToRemove removed allowed bufs).1.2
     = wrap_u32 (allowed - (numToRemove - removed))
  /\ (idle_count (decreaseLoop numToRemove removed allowed bufs).1.1.1
      + Z.to_nat (numToRemove - removed) = idle_count bufs)%nat
  /\ length (freed (decreaseLoop numToRemove removed allowed bufs).2)
     = Z.to_nat (numToRemove - removed).
Proof.
  induction bufs as [|rec bufs IH]; intros removed allowed Hrem Hmax Hidle.
  - unfold idle_count in Hidle. simpl in Hidle. lia.
  - rewrite idle_count_cons in Hidle. unfold idle in Hidle.
    cbn [decreaseLoop]. revert Hidle.
    destruct (handle rec) as [h|] eqn:Hh.
    + destruct (inUse rec) eqn:Huse; cbn [negb]; intros Hidle.
      * match type of Hidle with (_ <= ?x + _)%nat => change x with 0%nat in Hidle end.
        assert (Hx : (Z.to_nat (numToRemove - removed) <= idle_count bufs)%nat) by lia.
        specialize (IH removed allowed Hrem Hmax Hx).
        destruct (decreaseLoop numToRemove removed allowed bufs) as [[[bufs' r'] a'] evs'].
        cbn [fst snd] in *. rewrite !idle_count_cons. unfold idle. rewrite !Hh, !Huse.
        cbn [negb]. destruct IH as (? & ? & ? & ?). repeat split; try done; lia.
      * rewrite (wrap_u32_small (removed + 1)) by (unfold UINT32_MAX in *; lia).
        destruct (Z.eqb_spec (removed + 1) numToRemove) as [Hlast|Hmore].
        -- cbn [fst snd]. rewrite !idle_count_cons. unfold idle. rewrite !Hh, !Huse. cbn [handle negb].
           replace (numToRemove - removed) with 1 by lia.
           repeat split; try done; lia.
        -- match type of Hidle with (_ <= ?x + _)%nat => change x with 1%nat in Hidle end.
           assert (Hr1 : 0 <= removed + 1 < numToRemove) by lia.
           assert (Hx : (Z.to_nat (numToRemove - (removed + 1)) <= idle_count bufs)%nat) by lia.
           specialize (IH (removed + 1) (wrap_u32 (allowed - 1)) Hr1 Hmax Hx).
           destruct (decreaseLoop numToRemove (removed + 1) (wrap_u32 (allowed - 1)) bufs)
             as [[[bufs' r'] a'] evs'].
           cbn [fst snd] in *. rewrite !idle_count_cons. unfold idle. rewrite !Hh, !Huse. cbn [handle negb].
           destruct IH as (Hr & Ha & Hi & Hf).
           split; [done|]. split; [|split].
           ++ rewrite Ha, wrap_u32_sub_l. f_equal. lia.
           ++ lia.
           ++ change (freed (Alloc_free h :: evs')) with (h :: freed evs').
              cbn [length]. rewrite Hf. lia.
    + intros Hidle.
      assert (Hx : (Z.to_nat (numToRemove - removed) <= idle_count bufs)%nat) by lia.
      specialize (IH removed allowed Hrem Hmax Hx).
      destruct (decreaseLoop numToRemove removed allowed bufs) as [[[bufs' r'] a'] evs'].
      cbn [fst snd] in *. rewrite !idle_count_cons. unfold idle. rewrite !Hh.
      destruct IH as (? & ? & ? & ?). repeat split; try done; lia.
Qed.


(** A growth of the pool that the allocator serves at least once either
    succeeds, or answers BUFFER_NOT_AVAILABLE with the allowed count and the
    number of idle buffers as before the call, as many buffers freed as
    were allocated. *)
Theorem failed_growth_rolls_back bufferCount s :
  mVideo_isOpen s = true ->
  0 <= mFramesAllowed s < bufferCount ->
  bufferCount <= MAX_BUFFERS_IN_FLIGHT ->
  (exists a, head (gralloc s) = Some a /\ granted a) ->
  ((setMaxFramesInFlight bufferCount s).1.1 = OK
   /\ mFramesAllowed (setMaxFramesInFlight bufferCount s).1.2 = bufferCount)
  \/ ((setMaxFramesInFlight bufferCount s).1.1 = BUFFER_NOT_AVAILABLE
      /\ mFramesAllowed (setMaxFramesInFlight bufferCount s).1.2 = mFramesAllowed s
      /\ idle_count (mBuffers (setMaxFramesInFlight bufferCount s).1.2)
         = idle_count (mBuffers s)
      /\ (0 < length (freed (setMaxFramesInFlight bufferCount s).2))%nat).
Proof.
  intros Hopen Hallowed Hmax Hgrant.
  unfold MAX_BUFFERS_IN_FLIGHT in Hmax.
  unfold setMaxFramesInFlight, setAvailableFrames_Locked. rewrite Hopen. cbn [negb].
  assert (H1 : (bufferCount <? 1) = false) by (apply Z.ltb_ge; lia). rewrite H1.
  assert (H2 : (MAX_BUFFERS_IN_FLIGHT <? bufferCount) = false)
    by (apply Z.ltb_ge; unfold MAX_BUFFERS_IN_FLIGHT; lia).
  rewrite H2.
  assert (H3 : (mFramesAllowed s <? bufferCount) = true) by (apply Z.ltb_lt; lia).
  rewrite H3.
  rewrite (wrap_u32_small (bufferCount - mFramesAllowed s)) by (unfold UINT32_MAX; lia).
  unfold increaseAvailableFrames_Locked.
  destruct (increaseLoop_spec (Z.to_nat (bufferCount - mFramesAllowed s)) 0 s)
    as (k & Hk & Hadded & Hal & Hidle & Hop & Hfreed & Hpos);
    [lia|unfold UINT32_MAX; lia|unfold UINT32_MAX; lia|].
  specialize (Hpos ltac:(lia) Hgrant).
  destruct (increaseLoop (Z.to_nat (bufferCount - mFramesAllowed s)) 0 s)
    as [[added s1] evs1]. cbn [fst snd] in *. rewrite Z.add_0_l in Hadded. subst added.
  destruct (Z.eqb_spec (Z.of_nat k) (bufferCount - mFramesAllowed s)) as [Hall|Hpart];
    cbn [negb].
  - left. cbn [fst snd]. split; [done|].
    rewrite Hal, Hall, wrap_u32_small by (unfold UINT32_MAX; lia). lia.
  - right. unfold decreaseAvailableFrames_Locked.
    destruct (decreaseLoop_spec (Z.of_nat k) (mBuffers s1) 0 (mFramesAllowed s1))
      as (_ & Ha & Hi & Hf); [lia|unfold UINT32_MAX; lia|lia|].
    destruct (decreaseLoop (Z.of_nat k) 0 (mFramesAllowed s1) (mBuffers s1))
      as [[[bufs' r'] a'] evs2]. cbn [fst snd mFramesAllowed mBuffers with_buffers] in *.
    split; [done|]. split; [|split].
    + rewrite Ha, Hal, Z.sub_0_r, wrap_u32_sub_l.
      rewrite wrap_u32_small by (unfold UINT32_MAX; lia). lia.
    + lia.
    + change (LogI ?m :: evs1 ++ LogE ?m' :: evs2)
        with ([LogI m] ++ evs1 ++ [LogE m'] ++ evs2).
      unfold freed in *. rewrite !bind_app, Hfreed, !length_app, Hf. simpl. lia.
Qed.

Lemma failed_growth_rolls_back_witness :
  (setMaxFramesInFlight 3
     {| mVideo_isOpen := true; mFormat := 1; mUsage := 306; mStride := 640;
        mFramesAllowed := 1; mFramesInUse := 0;
        mBuffers := [{| handle := Some 11; inUse := false |}];
        gralloc := [grants 12; refuses] |}).1.1 = BUFFER_NOT_AVAILABLE
  /\ mFramesAllowed
       (setMaxFramesInFlight 3
          {| mVideo_isOpen := true; mFormat := 1; mUsage := 306; mStride := 640;
             mFramesAllowed := 1; mFramesInUse := 0;
             mBuffers := [{| handle := Some 11; inUse := false |}];
             gralloc := [grants 12; refuses] |}).1.2 = 1.
Proof.
  destruct (failed_growth_rolls_back 3
              {| mVideo_isOpen := true; mFormat := 1; mUsage := 306; mStride := 640;
                 mFramesAllowed := 1; mFramesInUse := 0;
                 mBuffers := [{| handle := Some 11; inUse := false |}];
                 gralloc := [grants 12; refuses] |})
    as [[Hok _]|(Hres & Hallowed & _)].
  - reflexivity.
  - simpl. lia.
  - unfold MAX_BUFFERS_IN_FLIGHT. lia.
  - exists (grants 12). split; [reflexivity|]. split; [reflexivity|]. by eexists.
  - vm_compute in Hok. discriminate.
  - split; [exact Hres|exact Hallowed].
Defined.

End DriverFacts.
(** ** EvsV4lCamera: the buffer pool with frames in flight *)

Section PoolFacts.
Import Machine EvsV4lCamera.

Lemma handle_count_cons rec bufs :
  handle_count (rec :: bufs)
  = (match handle rec with Some _ => 1 | None => 0 end + handle_count bufs)%nat.
Proof.
  unfold handle_count, has_handle. rewrite filter_cons.
  destruct (handle rec); [by rewrite decide_True|by rewrite decide_False by tauto].
Qed.

Lemma inUse_count_cons rec bufs :
  inUse_count (rec :: bufs) = ((if inUse rec then 1 else 0) + inUse_count bufs)%nat.
Proof.
  unfold inUse_count. rewrite filter_cons.
  destruct (inUse rec); [by rewrite decide_True|by rewrite decide_False].
Qed.

Lemma handle_count_app bufs1 bufs2 :
  handle_count (bufs1 ++ bufs2) = (handle_count bufs1 + handle_count bufs2)%nat.
Proof. unfold handle_count. by rewrite filter_app, length_app. Qed.

Lemma inUse_count_app bufs1 bufs2 :
  inUse_count (bufs1 ++ bufs2) = (inUse_count bufs1 + inUse_count bufs2)%nat.
Proof. unfold inUse_count. by rewrite filter_app, length_app. Qed.

Lemma handle_count_le bufs : (handle_count bufs <= length bufs)%nat.
Proof. unfold handle_count. apply length_filter. Qed.

(** Under [held_ok] the buffers split into those in use and the idle ones. *)
Lemma handle_count_split bufs :
  held_ok bufs -> handle_count bufs = (inUse_count bufs + idle_count bufs)%nat.
Proof.
  induction 1 as [|rec bufs Hrec _ IH]; [done|].
  rewrite handle_count_cons, inUse_count_cons, idle_count_cons, IH.
  unfold idle, has_handle in *.
  destruct (handle rec), (inUse rec); cbn [negb]; try lia.
  exfalso. by apply Hrec.
Qed.

Lemma keeps_held_refl bufs : keeps_held bufs bufs.
Proof. by intros i rec. Qed.

Lemma keeps_held_trans bufs1 bufs2 bufs3 :
  keeps_held bufs1 bufs2 -> keeps_held bufs2 bufs3 -> keeps_held bufs1 bufs3.
Proof. intros H12 H23 i rec Hi Hu. eauto. Qed.

Lemma keeps_held_cons rec bufs bufs' :
  keeps_held bufs bufs' -> keeps_held (rec :: bufs) (rec :: bufs').
Proof. intros Hk [|i] r; simpl; [done|apply Hk]. Qed.

Lemma keeps_held_idle rec rec' bufs bufs' :
  inUse rec = false -> keeps_held bufs bufs' -> keeps_held (rec :: bufs) (rec' :: bufs').
Proof.
  intros Hrec Hk [|i] r; simpl; [|apply Hk].
  intros [= <-] Hu. congruence.
Qed.

(** Storing a new buffer: one more handle, nothing in use is touched. *)
Lemma storeHandle_pool h bufs :
  held_ok bufs ->
  handle_count (storeHandle h bufs) = S (handle_count bufs)
  /\ inUse_count (storeHandle h bufs) = inUse_count bufs
  /\ held_ok (storeHandle h bufs)
  /\ keeps_held bufs (storeHandle h bufs).
Proof.
  induction 1 as [|rec bufs Hrec Hbufs IH].
  - cbn. repeat split; [by repeat constructor|]. by intros i rec.
  - cbn [storeHandle]. destruct (handle rec) as [h'|] eqn:Hh.
    + destruct IH as (Hc & Hu & Hok & Hk).
      rewrite !handle_count_cons, !inUse_count_cons, Hc, Hu, Hh.
      split; [lia|]. split; [done|]. split; [by constructor|by apply keeps_held_cons].
    + assert (Hfree : inUse rec = false).
      { destruct (inUse rec) eqn:Hu; [|done]. exfalso.
        by apply (Hrec eq_refl). }
      rewrite !handle_count_cons, !inUse_count_cons, Hh, Hfree. cbn [handle inUse].
      split; [lia|]. split; [done|].
      split; [constructor; [done|exact Hbufs]|].
      apply keeps_held_idle; [done|apply keeps_held_refl].
Qed.

(** The growing loop on a pool in order: [k] buffers are added, for a [k]
    up to [todo] (all of them when the allocator grants that many); the
    counters follow, and nothing a client holds is touched. *)
Lemma increaseLoop_pool todo : forall added s,
  0 <= added -> added + Z.of_nat todo <= UINT32_MAX ->
  0 <= mFramesAllowed s -> mFramesAllowed s + Z.of_nat todo <= UINT32_MAX ->
  held_ok (mBuffers s) ->
  exists k : nat,
    (k <= todo)%nat
    /\ (increaseLoop todo added s).1.1 = added + Z.of_nat k
    /\ mFramesAllowed (increaseLoop todo added s).1.2 = mFramesAllowed s + Z.of_nat k
    /\ handle_count (mBuffers (increaseLoop todo added s).1.2)
       = (handle_count (mBuffers s) + k)%nat
    /\ inUse_count (mBuffers (increaseLoop todo added s).1.2) = inUse_count (mBuffers s)
    /\ held_ok (mBuffers (increaseLoop todo added s).1.2)
    /\ keeps_held (mBuffers s) (mBuffers (increaseLoop todo added s).1.2)
    /\ mFramesInUse (increaseLoop todo added s).1.2 = mFramesInUse s
    /\ mVideo_isOpen (increaseLoop todo added s).1.2 = mVideo_isOpen s
    /\ mFormat (increaseLoop todo added s).1.2 = mFormat s
    /\ freed (increaseLoop todo added s).2 = []
    /\ ((forall i, (i < todo)%nat -> exists a, gralloc s !! i = Some a /\ granted a) ->
        k = todo).
Proof.
  induction todo as [|todo IH]; intros added s Ha Hmax Hal Halmax Hheld.
  - exists 0%nat. cbn [increaseLoop fst snd]. rewrite !Z.add_0_r, Nat.add_0_r.
    repeat split; try done. apply keeps_held_refl.
  - cbn [increaseLoop].
    set (answer := match gralloc s with
                   | a :: _ => a
                   | [] => {| alloc_status := NO_MEMORY; alloc_memHandle := None;
                              alloc_pixelsPerLine := 0 |}
                   end).
    assert (Hfirst : (forall i, (i < S todo)%nat ->
                        exists a, gralloc s !! i = Some a /\ granted a) ->
                     gralloc s !! 0%nat = Some answer /\ granted answer).
    { intros Hg. destruct (Hg 0%nat ltac:(lia)) as (a & Ha0 & Hgr).
      subst answer. destruct (gralloc s) as [|a' g]; [done|].
      injection Ha0 as ->. done. }
    destruct (negb (alloc_status answer =? NO_ERROR)) eqn:Hstatus.
    { exists 0%nat. cbn [fst snd with_buffers mFramesAllowed mBuffers mVideo_isOpen
                          mFramesInUse mFormat].
      rewrite !Z.add_0_r, Nat.add_0_r.
      repeat split; try done; try lia; try apply keeps_held_refl.
      intros Hg. destruct (Hfirst Hg) as (_ & Hst & _). exfalso.
      rewrite Hst in Hstatus. done. }
    destruct (alloc_memHandle answer) as [memHandle|] eqn:Hhandle.
    2:{ exists 0%nat. cbn [fst snd with_buffers mFramesAllowed mBuffers mVideo_isOpen
                            mFramesInUse mFormat].
        rewrite !Z.add_0_r, Nat.add_0_r.
        repeat split; try done; try lia; try apply keeps_held_refl.
        intros Hg. destruct (Hfirst Hg) as (_ & _ & Hsome). exfalso.
        rewrite Hhandle in Hsome. by destruct Hsome. }
    cbn [with_buffers mStride mFramesAllowed mBuffers gralloc].
    destruct (storeHandle_pool memHandle (mBuffers s) Hheld) as (Hc & Hu & Hok & Hk).
    rewrite (wrap_u32_small (mFramesAllowed s + 1)) by lia.
    rewrite (wrap_u32_small (added + 1)) by lia.
    destruct (negb (mStride s =? 0));
      [destruct (negb (mStride s =? alloc_pixelsPerLine answer))|];
      (match goal with
       | |- context [increaseLoop todo ?a ?st] =>
         destruct (IH a st) as (k & Hk' & Hadded & Hallowed & Hcount & Hused & Hheld'
                                & Hkeeps & Hinuse & Hopen & Hformat & Hfreed & Hall);
           [lia|lia|cbn [mFramesAllowed with_buffers]; lia
           |cbn [mFramesAllowed with_buffers]; lia
           |cbn [mBuffers with_buffers]; exact Hok|];
           destruct (increaseLoop todo a st) as [[added' s'] evs] eqn:Hrun
       end;
       cbn [fst snd mFramesAllowed mBuffers mFramesInUse mVideo_isOpen mFormat gralloc
            with_buffers] in *;
       exists (S k); split; [lia|]; split; [lia|]; split; [lia|];
       split; [lia|]; split; [lia|]; split; [done|];
       split; [by eapply keeps_held_trans|];
       split; [done|]; split; [done|]; split; [done|]; split; [exact Hfreed|];
       intros Hg; f_equal; apply Hall; intros i Hi;
       destruct (Hg (S i) ltac:(lia)) as (a & Hai & Hgr); exists a; split; [|done];
       by rewrite lookup_tail).
Qed.

(** The shrinking loop: it frees idle buffers, in the order of the vector,
    until [removed] meets [numToRemove]; started at or beyond that number
    it frees every idle buffer. *)
Lemma decreaseLoop_frees numToRemove bufs : forall removed allowed,
  0 <= removed -> removed + Z.of_nat (idle_count bufs) <= UINT32_MAX ->
  0 <= allowed <= UINT32_MAX ->
  let k := if removed <? numToRemove
           then Nat.min (Z.to_nat (numToRemove - removed)) (idle_count bufs)
           else idle_count bufs in
  (decreaseLoop numToRemove removed allowed bufs).1.1.2 = removed + Z.of_nat k
  /\ (decreaseLoop numToRemove removed allowed bufs).1.2 = wrap_u32 (allowed - Z.of_nat k)
  /\ (handle_count (decreaseLoop numToRemove removed allowed bufs).1.1.1 + k
      = handle_count bufs)%nat
  /\ (idle_count (decreaseLoop numToRemove removed allowed bufs).1.1.1 + k
      = idle_count bufs)%nat
  /\ inUse_count (decreaseLoop numToRemove removed allowed bufs).1.1.1 = inUse_count bufs
  /\ (held_ok bufs -> held_ok (decreaseLoop numToRemove removed allowed bufs).1.1.1)
  /\ keeps_held bufs (decreaseLoop numToRemove removed allowed bufs).1.1.1
  /\ length (freed (decreaseLoop numToRemove removed allowed bufs).2) = k.
Proof.
  unfold held_ok.
  induction bufs as [|rec bufs IH]; intros removed allowed Hrem Hmax Hallowed.
  - cbv zeta. cbn [decreaseLoop fst snd].
    change (idle_count []) with 0%nat. rewrite Nat.min_0_r.
    destruct (removed <? numToRemove); rewrite Z.add_0_r, Z.sub_0_r, wrap_u32_small by done;
      repeat split; try done; apply keeps_held_refl.
  - cbv zeta. rewrite idle_count_cons in Hmax |- *. unfold idle in Hmax |- *.
    cbn [decreaseLoop]. revert Hmax.
    destruct (handle rec) as [h|] eqn:Hh; [destruct (inUse rec) eqn:Huse|]; cbn [negb];
      intros Hmax.
    + (* in use *)
      assert (Hx : removed + Z.of_nat (idle_count bufs) <= UINT32_MAX) by lia.
      specialize (IH removed allowed Hrem Hx Hallowed). cbv zeta in IH.
      destruct (decreaseLoop numToRemove removed allowed bufs) as [[[bufs' r'] a'] evs'].
      cbn [fst snd] in *.
      destruct IH as (Hr & Ha & Hc & Hi & Hu & Hheld & Hkeep & Hf).
      rewrite !handle_count_cons, !idle_count_cons, !inUse_count_cons. unfold idle.
      rewrite Hh, Huse. cbn [negb Nat.add].
      split; [exact Hr|]. split; [exact Ha|]. split; [lia|]. split; [lia|].
      split; [lia|]. split; [|split; [by apply keeps_held_cons|exact Hf]].
      intros Hall. apply Forall_cons in Hall as [Hrec Hall]. constructor; [done|auto].
    + (* idle: the buffer is freed *)
      rewrite (wrap_u32_small (removed + 1)) by lia.
      destruct (Z.eqb_spec (removed + 1) numToRemove) as [Hlast|Hmore].
      * cbn [fst snd].
        assert (Hlt : (removed <? numToRemove) = true) by (apply Z.ltb_lt; lia).
        rewrite Hlt.
        replace (Nat.min (Z.to_nat (numToRemove - removed)) (1 + idle_count bufs)) with 1%nat
          by lia.
        rewrite !handle_count_cons, !idle_count_cons, !inUse_count_cons. unfold idle.
        rewrite Hh, Huse. cbn [handle inUse negb].
        split; [lia|]. split; [done|]. split; [lia|]. split; [lia|]. split; [done|].
        split; [|split; [|done]].
        -- intros Hall. apply Forall_cons in Hall as [_ Hall]. by constructor.
        -- apply keeps_held_idle; [done|apply keeps_held_refl].
      * assert (Hr1 : 0 <= removed + 1) by lia.
        assert (Hx : removed + 1 + Z.of_nat (idle_count bufs) <= UINT32_MAX) by lia.
        specialize (IH (removed + 1) (wrap_u32 (allowed - 1)) Hr1 Hx (wrap_u32_range _)).
        cbv zeta in IH.
        destruct (decreaseLoop numToRemove (removed + 1) (wrap_u32 (allowed - 1)) bufs)
          as [[[bufs' r'] a'] evs'].
        cbn [fst snd] in *.
        destruct IH as (Hr & Ha & Hc & Hi & Hu & Hheld & Hkeep & Hf).
        rewrite !handle_count_cons, !idle_count_cons, !inUse_count_cons. unfold idle.
        rewrite Hh, Huse. cbn [handle inUse negb].
        change (freed (Alloc_free h :: evs')) with (h :: freed evs'). cbn [length].
        rewrite Hr, Ha, Hf, wrap_u32_sub_l.
        destruct (Z.ltb_spec removed numToRemove), (Z.ltb_spec (removed + 1) numToRemove);
          try lia;
          (split; [lia|]); (split; [f_equal; lia|]); (split; [lia|]); (split; [lia|]);
          (split; [lia|]);
          (split; [intros Hall; apply Forall_cons in Hall as [_ Hall];
                   constructor; [done|auto]|]);
          (split; [by apply keeps_held_idle|lia]).
    + (* no buffer *)
      assert (Hx : removed + Z.of_nat (idle_count bufs) <= UINT32_MAX) by lia.
      specialize (IH removed allowed Hrem Hx Hallowed). cbv zeta in IH.
      destruct (decreaseLoop numToRemove removed allowed bufs) as [[[bufs' r'] a'] evs'].
      cbn [fst snd] in *.
      destruct IH as (Hr & Ha & Hc & Hi & Hu & Hheld & Hkeep & Hf).
      rewrite !handle_count_cons, !idle_count_cons, !inUse_count_cons. unfold idle.
      rewrite Hh. cbn [Nat.add].
      split; [exact Hr|]. split; [exact Ha|]. split; [lia|]. split; [lia|].
      split; [lia|]. split; [|split; [by apply keeps_held_cons|exact Hf]].
      intros Hall. apply Forall_cons in Hall as [Hrec Hall]. constructor; [done|auto].
Qed.

Lemma idle_count_le_handle_count bufs :
  held_ok bufs -> (idle_count bufs <= handle_count bufs)%nat.
Proof. intros Hheld. rewrite (handle_count_split bufs Hheld). lia. Qed.

(** A change of the pool size keeps the pool in order, and touches neither
    the count of the frames in flight nor a buffer that a client holds. *)
Lemma setAvailableFrames_Locked_pool bufferCount s :
  pool_ok s ->
  pool_ok (setAvailableFrames_Locked bufferCount s).1.2
  /\ mFramesInUse (setAvailableFrames_Locked bufferCount s).1.2 = mFramesInUse s
  /\ keeps_held (mBuffers s) (mBuffers (setAvailableFrames_Locked bufferCount s).1.2)
  /\ mVideo_isOpen (setAvailableFrames_Locked bufferCount s).1.2 = mVideo_isOpen s
  /\ mFormat (setAvailableFrames_Locked bufferCount s).1.2 = mFormat s.
Proof.
  intros (Hu & Ha & Hheld & Hmax). unfold MAX_BUFFERS_IN_FLIGHT in Hmax.
  assert (Hsame : pool_ok s /\ mFramesInUse s = mFramesInUse s
                  /\ keeps_held (mBuffers s) (mBuffers s)
                  /\ mVideo_isOpen s = mVideo_isOpen s /\ mFormat s = mFormat s).
  { repeat split; try done. apply keeps_held_refl. }
  unfold setAvailableFrames_Locked.
  destruct (Z.ltb_spec bufferCount 1) as [|H1]; [exact Hsame|].
  destruct (Z.ltb_spec MAX_BUFFERS_IN_FLIGHT bufferCount) as [|H100]; [exact Hsame|].
  unfold MAX_BUFFERS_IN_FLIGHT in H100.
  destruct (Z.ltb_spec (mFramesAllowed s) bufferCount) as [Hgrow|Hnogrow].
  - rewrite (wrap_u32_small (bufferCount - mFramesAllowed s)) by (unfold UINT32_MAX; lia).
    unfold increaseAvailableFrames_Locked.
    destruct (increaseLoop_pool (Z.to_nat (bufferCount - mFramesAllowed s)) 0 s)
      as (k & Hk & Hadded & Hal & Hc & Hiu & Hheld1 & Hkeep1 & Hinuse1 & Hopen1 & Hfmt1 & _);
      [lia|unfold UINT32_MAX; lia|lia|unfold UINT32_MAX; lia|done|].
    destruct (increaseLoop (Z.to_nat (bufferCount - mFramesAllowed s)) 0 s)
      as [[added s1] evs1].
    cbn [fst snd] in *. rewrite Z.add_0_l in Hadded. subst added.
    destruct (Z.eqb_spec (Z.of_nat k) (bufferCount - mFramesAllowed s)) as [Hall|Hpart];
      cbn [negb fst snd].
    + split; [|done]. unfold pool_ok, MAX_BUFFERS_IN_FLIGHT.
      split; [lia|]. split; [lia|]. split; [done|lia].
    + unfold decreaseAvailableFrames_Locked.
      pose proof (idle_count_le_handle_count _ Hheld1) as Hidle.
      destruct (decreaseLoop_frees (Z.of_nat k) (mBuffers s1) 0 (mFramesAllowed s1))
        as (_ & Hal2 & Hc2 & _ & Hiu2 & Hheld2 & Hkeep2 & _);
        [lia|unfold UINT32_MAX; lia|unfold UINT32_MAX; lia|].
      destruct (decreaseLoop (Z.of_nat k) 0 (mFramesAllowed s1) (mBuffers s1))
        as [[[bufs2 r2] a2] evs2].
      cbn [fst snd mFramesAllowed mBuffers mFramesInUse mVideo_isOpen mFormat with_buffers] in *.
      set (k' := if 0 <? Z.of_nat k
                 then Nat.min (Z.to_nat (Z.of_nat k - 0)) (idle_count (mBuffers s1))
                 else idle_count (mBuffers s1)) in *.
      assert (Hk' : (k' <= idle_count (mBuffers s1))%nat)
        by (subst k'; destruct (0 <? Z.of_nat k); lia).
      rewrite wrap_u32_small in Hal2 by (unfold UINT32_MAX; lia).
      split; [|split; [lia|split; [by eapply keeps_held_trans|done]]].
      unfold pool_ok, MAX_BUFFERS_IN_FLIGHT.
      cbn [mFramesAllowed mBuffers mFramesInUse with_buffers].
      split; [lia|]. split; [lia|]. split; [auto|lia].
  - destruct (Z.ltb_spec bufferCount (mFramesAllowed s)) as [Hshrink|_]; [|exact Hsame].
    rewrite (wrap_u32_small (mFramesAllowed s - bufferCount)) by (unfold UINT32_MAX; lia).
    unfold decreaseAvailableFrames_Locked.
    pose proof (idle_count_le_handle_count _ Hheld) as Hidle.
    destruct (decreaseLoop_frees (mFramesAllowed s - bufferCount) (mBuffers s) 0
                (mFramesAllowed s))
      as (_ & Hal2 & Hc2 & _ & Hiu2 & Hheld2 & Hkeep2 & _);
      [lia|unfold UINT32_MAX; lia|unfold UINT32_MAX; lia|].
    destruct (decreaseLoop (mFramesAllowed s - bufferCount) 0 (mFramesAllowed s) (mBuffers s))
      as [[[bufs2 r2] a2] evs2].
    cbn [fst snd mFramesAllowed mBuffers mFramesInUse mVideo_isOpen mFormat with_buffers] in *.
    set (k' := if 0 <? mFramesAllowed s - bufferCount
               then Nat.min (Z.to_nat (mFramesAllowed s - bufferCount - 0))
                      (idle_count (mBuffers s))
               else idle_count (mBuffers s)) in *.
    assert (Hk' : (k' <= idle_count (mBuffers s))%nat)
      by (subst k'; destruct (0 <? mFramesAllowed s - bufferCount); lia).
    rewrite wrap_u32_small in Hal2 by (unfold UINT32_MAX; lia).
    split; [|split; [done|split; [done|done]]].
    unfold pool_ok, MAX_BUFFERS_IN_FLIGHT.
    cbn [mFramesAllowed mBuffers mFramesInUse with_buffers].
    split; [lia|]. split; [lia|]. split; [auto|lia].
Qed.

Lemma length_filter_insert {A} (P : A -> Prop) `{forall x, Decision (P x)}
    (l : list A) (i : nat) (x y : A) :
  l !! i = Some x ->
  (length (filter P (<[i := y]> l)) + (if decide (P x) then 1 else 0)
   = length (filter P l) + (if decide (P y) then 1 else 0))%nat.
Proof.
  revert i. induction l as [|z l IH]; intros i; [done|].
  destruct i as [|i]; simpl.
  - intros [= ->]. rewrite !filter_cons.
    destruct (decide (P x)), (decide (P y)); simpl; lia.
  - intros Hi. specialize (IH i Hi). rewrite !filter_cons.
    destruct (decide (P z)); simpl; lia.
Qed.

Lemma handle_count_insert bufs i rec rec' :
  bufs !! i = Some rec ->
  (handle_count (<[i := rec']> bufs) + match handle rec with Some _ => 1 | None => 0 end
   = handle_count bufs + match handle rec' with Some _ => 1 | None => 0 end)%nat.
Proof.
  intros Hi. pose proof (length_filter_insert has_handle bufs i rec rec' Hi) as Hlen.
  unfold handle_count.
  destruct (decide (has_handle rec)) as [Hr|Hr], (decide (has_handle rec')) as [Hr'|Hr'];
    unfold has_handle in Hr, Hr';
    destruct (handle rec), (handle rec'); try done; try lia;
    exfalso; (by apply Hr) || (by apply Hr').
Qed.

Lemma inUse_count_insert bufs i rec rec' :
  bufs !! i = Some rec ->
  (inUse_count (<[i := rec']> bufs) + (if inUse rec then 1 else 0)
   = inUse_count bufs + (if inUse rec' then 1 else 0))%nat.
Proof.
  intros Hi.
  pose proof (length_filter_insert (fun r => inUse r = true) bufs i rec rec' Hi) as Hlen.
  unfold inUse_count.
  destruct (decide (inUse rec = true)) as [Hr|Hr], (decide (inUse rec' = true)) as [Hr'|Hr'];
    destruct (inUse rec), (inUse rec'); try done; lia.
Qed.

Lemma held_ok_insert bufs i rec :
  held_ok bufs -> (inUse rec = true -> has_handle rec) -> held_ok (<[i := rec]> bufs).
Proof. intros Hheld Hrec. by apply Forall_insert. Qed.

Lemma keeps_held_insert bufs i rec rec' :
  bufs !! i = Some rec -> inUse rec = false -> keeps_held bufs (<[i := rec']> bufs).
Proof.
  intros Hi Hfree j r Hj Hu. destruct (decide (i = j)) as [->|Hne].
  - congruence.
  - by rewrite list_lookup_insert_ne.
Qed.

(** The search of [forwardFrame]: the first idle buffer. *)
Lemma first_idle_buffer bufs :
  match bufs !! HalCamera.find_index
                  (fun rec => negb (inUse rec) && bool_decide (handle rec <> None)) bufs with
  | Some rec => inUse rec = false /\ exists h, handle rec = Some h
  | None => idle_count bufs = 0%nat
  end.
Proof.
  destruct (bufs !! _) as [rec|] eqn:Hi.
  - apply find_index_lookup in Hi. apply andb_true_iff in Hi as [Hu Hh].
    apply negb_true_iff in Hu. apply bool_decide_eq_true in Hh.
    split; [done|]. destruct (handle rec) as [h|]; [by exists h|done].
  - apply find_index_none in Hi as [_ Hall].
    induction Hall as [|rec l Hrec _ IH]; [done|].
    rewrite idle_count_cons, IH. unfold idle.
    by destruct (handle rec), (inUse rec).
Qed.

(** A frame coming back keeps the pool in order, whatever is handed in. *)
Lemma doneWithFrame_impl_pool bufferId memHandle s :
  pool_ok s ->
  pool_ok (doneWithFrame_impl bufferId memHandle s).1.2
  /\ mVideo_isOpen (doneWithFrame_impl bufferId memHandle s).1.2 = mVideo_isOpen s
  /\ mFramesAllowed (doneWithFrame_impl bufferId memHandle s).1.2 = mFramesAllowed s
  /\ mFormat (doneWithFrame_impl bufferId memHandle s).1.2 = mFormat s.
Proof.
  intros Hpool. pose proof Hpool as (Hu & Ha & Hheld & Hmax).
  unfold doneWithFrame_impl.
  destruct (negb (mVideo_isOpen s)); [done|].
  destruct memHandle as [mh|]; [|done].
  destruct (bufferId <? Z.of_nat (length (mBuffers s))); [|done].
  destruct (mBuffers s !! Z.to_nat bufferId) as [rec|] eqn:Hrec; [|done].
  destruct (inUse rec) eqn:Hused; cbn [negb]; [|done].
  cbn [fst snd mVideo_isOpen mFramesAllowed mFormat with_frames].
  split; [|done].
  set (i := Z.to_nat bufferId) in *.
  assert (Hh : exists h, handle rec = Some h).
  { unfold held_ok in Hheld. rewrite Forall_lookup in Hheld.
    pose proof (Hheld i rec Hrec Hused) as Hhas. unfold has_handle in Hhas.
    destruct (handle rec) as [h|]; [by exists h|done]. }
  destruct Hh as [h Hh].
  set (released := {| handle := Some h; inUse := false |}).
  set (bufs1 := <[i := released]> (mBuffers s)).
  assert (Hset : set_inUse i false (mBuffers s) = bufs1)
    by (unfold set_inUse; by rewrite Hrec, Hh).
  rewrite !Hset.
  assert (Hi1 : bufs1 !! i = Some released)
    by (apply list_lookup_insert_eq; by eapply lookup_lt_Some).
  pose proof (inUse_count_insert (mBuffers s) i rec released Hrec) as Hcount1.
  pose proof (handle_count_insert (mBuffers s) i rec released Hrec) as Hhandles1.
  rewrite Hused, Hh in *. cbn [handle inUse released] in Hcount1, Hhandles1.
  fold bufs1 in Hcount1, Hhandles1.
  assert (Hheld1 : held_ok bufs1) by (by apply held_ok_insert).
  assert (Hwrap : wrap_u32 (mFramesInUse s - 1) = Z.of_nat (inUse_count bufs1)).
  { rewrite wrap_u32_small; [lia|]. unfold UINT32_MAX.
    pose proof (handle_count_split _ Hheld). unfold MAX_BUFFERS_IN_FLIGHT in Hmax. lia. }
  destruct (mFramesAllowed s <=? bufferId).
  2:{ unfold pool_ok. cbn [mFramesInUse mFramesAllowed mBuffers with_frames].
      split; [done|]. split; [lia|]. done. }
  set (j := HalCamera.find_index (fun r => bool_decide (handle r = None)) bufs1).
  destruct (bufs1 !! j) as [empty|] eqn:Hj.
  2:{ unfold pool_ok. cbn [mFramesInUse mFramesAllowed mBuffers with_frames].
      split; [done|]. split; [lia|]. done. }
  pose proof (find_index_lookup _ _ _ Hj) as Hempty. apply bool_decide_eq_true in Hempty.
  assert (Hne : j <> i) by (intros ->; rewrite Hi1 in Hj; injection Hj as <-; done).
  assert (Hfree : inUse empty = false).
  { destruct (inUse empty) eqn:Hue; [|done]. exfalso.
    unfold held_ok in Hheld1. rewrite Forall_lookup in Hheld1.
    by apply (Hheld1 j empty Hj Hue). }
  rewrite Hi1. cbn [mbind option_bind handle released].
  unfold set_handle at 2. rewrite Hj.
  set (bufs2 := <[j := {| handle := Some h; inUse := inUse empty |}]> bufs1).
  assert (Hi2 : bufs2 !! i = Some released)
    by (subst bufs2; by rewrite list_lookup_insert_ne).
  unfold set_handle. rewrite Hi2. cbn [inUse released].
  pose proof (inUse_count_insert bufs1 j empty {| handle := Some h; inUse := inUse empty |} Hj)
    as Hcount2.
  pose proof (handle_count_insert bufs1 j empty {| handle := Some h; inUse := inUse empty |} Hj)
    as Hhandles2.
  pose proof (inUse_count_insert bufs2 i released {| handle := None; inUse := false |} Hi2)
    as Hcount3.
  pose proof (handle_count_insert bufs2 i released {| handle := None; inUse := false |} Hi2)
    as Hhandles3.
  fold bufs2 in Hcount2, Hhandles2.
  rewrite Hempty, Hfree in *. cbn [handle inUse released] in *.
  unfold pool_ok. cbn [mFramesInUse mFramesAllowed mBuffers with_frames].
  split; [lia|]. split; [lia|]. split; [|done].
  apply held_ok_insert; [|done]. apply held_ok_insert; [done|].
  intros _. unfold has_handle. done.
Qed.

Lemma with_frames_same s : with_frames s (mFramesInUse s) (mBuffers s) = s.
Proof. by destruct s. Qed.

Lemma with_pool_same c : with_pool c (pool c) = c.
Proof. by destruct c. Qed.

(** The capture thread has a frame.  With the pool in order there are two
    cases: no buffer may be issued and the frame is skipped, or the first
    idle buffer is issued. *)
Lemma forwardFrame_cases pV4lBuff locked isOk c :
  pool_ok (pool c) ->
  (mFramesAllowed (pool c) <= mFramesInUse (pool c)
   /\ forwardFrame pV4lBuff locked isOk c
      = inr (c, [Pool (LogW "Skipped a frame because too many are in flight");
                 Video_markFrameConsumed]))
  \/ (mFramesInUse (pool c) < mFramesAllowed (pool c)
      /\ exists idx h,
           mBuffers (pool c) !! idx = Some {| handle := Some h; inUse := false |}
           /\ (forall j rec, (j < idx)%nat -> mBuffers (pool c) !! j = Some rec ->
                 inUse rec = true \/ handle rec = None)
           /\ forwardFrame pV4lBuff locked isOk c
              = let frame := {| bufferId := Z.of_nat idx;
                                timestamp := tv_sec pV4lBuff * 1000000 + tv_usec pV4lBuff;
                                nativeHandle := Some h |} in
                match mFillBufferFromVideo c with
                | None => inl NoFillFunction
                | Some fill =>
                  match
                    match mStream_1_1 c with
                    | Some st => Some (Stream_deliverFrame_1_1 st [frame] isOk)
                    | None =>
                      match mStream c with
                      | Some st => Some (Stream_deliverFrame st (Z.of_nat idx) (Some h) isOk)
                      | None => None
                      end
                    end
                  with
                  | None => inl NoStream
                  | Some delivered =>
                    inr (with_pool c
                           (if isOk
                            then with_frames (pool c) (mFramesInUse (pool c) + 1)
                                   (<[idx := {| handle := Some h; inUse := true |}]>
                                      (mBuffers (pool c)))
                            else pool c),
                         (Mapper_lock (Some h) locked ::
                          (if locked then []
                           else [Pool (LogE "Camera failed to gain access to image buffer for writing")]))
                         ++ [FillBufferFromVideo fill frame; Mapper_unlock (Some h);
                             Video_markFrameConsumed]
                         ++ delivered ::
                            (if isOk then []
                             else [Pool (LogE "Frame delivery call failed in the transport layer.")]))
                  end
                end).
Proof.
  intros (Hu & Ha & Hheld & Hmax). unfold MAX_BUFFERS_IN_FLIGHT in Hmax.
  unfold forwardFrame.
  destruct (Z.leb_spec (mFramesAllowed (pool c)) (mFramesInUse (pool c))) as [Hfull|Hroom];
    [by left|right].
  split; [done|].
  pose proof (first_idle_buffer (mBuffers (pool c))) as Hidle.
  pose proof (handle_count_split _ Hheld) as Hsplit.
  set (idx := HalCamera.find_index _ (mBuffers (pool c))) in *.
  destruct (mBuffers (pool c) !! idx) as [rec|] eqn:Hrec; [|lia].
  destruct Hidle as (Hfree & h & Hh).
  assert (Hrec' : rec = {| handle := Some h; inUse := false |})
    by (destruct rec; cbn in *; congruence).
  subst rec. exists idx, h. split; [done|]. split.
  { intros j rec Hj Hjrec.
    pose proof (find_index_before _ _ _ _ Hj Hjrec) as Hp. cbv beta in Hp.
    apply andb_false_iff in Hp as [Hp|Hp].
    - left. by apply negb_false_iff in Hp.
    - right. apply bool_decide_eq_false in Hp. destruct (handle rec); [|done].
      exfalso. by apply Hp. }
  cbv zeta. cbn [handle].
  destruct (mFillBufferFromVideo c) as [fill|]; [|done].
  assert (Hset : set_inUse idx true (mBuffers (pool c))
                 = <[idx := {| handle := Some h; inUse := true |}]> (mBuffers (pool c)))
    by (unfold set_inUse; by rewrite Hrec).
  assert (Hback : set_inUse idx false
                    (<[idx := {| handle := Some h; inUse := true |}]> (mBuffers (pool c)))
                  = mBuffers (pool c)).
  { unfold set_inUse. rewrite list_lookup_insert_eq by (by eapply lookup_lt_Some).
    cbn [handle]. rewrite list_insert_insert_eq. by apply list_insert_id. }
  assert (Hup : wrap_u32 (mFramesInUse (pool c) + 1) = mFramesInUse (pool c) + 1)
    by (apply wrap_u32_small; unfold UINT32_MAX; lia).
  cbn [mFramesInUse mBuffers with_frames]. rewrite Hset, Hup.
  replace (mFramesInUse (pool c) + 1 - 1) with (mFramesInUse (pool c)) by lia.
  rewrite (wrap_u32_small (mFramesInUse (pool c))) by (unfold UINT32_MAX; lia).
  rewrite Hback.
  destruct (mStream_1_1 c) as [st|]; [|destruct (mStream c) as [st|]; [|done]];
    destruct isOk, locked; cbn [app];
    try reflexivity;
    (f_equal; f_equal; f_equal; by destruct (pool c)).
Qed.

(** A new camera has its pool in order. *)
Lemma Create_pool drv alloc deviceName camInfo requestedStreamCfg camera evs :
  Create drv alloc deviceName camInfo requestedStreamCfg = (Some camera, evs) ->
  pool_ok camera /\ mVideo_isOpen camera = true.
Proof.
  assert (Hnew : forall opened format,
            pool_ok (set_opened (construct alloc) opened format)).
  { intros opened format. unfold pool_ok, MAX_BUFFERS_IN_FLIGHT. cbn.
    repeat split; [constructor|lia]. }
  unfold Create.
  destruct camInfo as [info|], requestedStreamCfg as [req|];
    try (destruct (video_open drv deviceName kDefaultResolution.1 kDefaultResolution.2);
         intros [= <- _]; (split; [apply Hnew|done])).
  destruct (selectStream req (streamConfigurations info) (-1) INT32_MIN) as [streamId a].
  destruct (if 0 <=? streamId then configOf (streamConfigurations info) streamId else None)
    as [cfg|].
  - destruct (video_open drv deviceName (cfg_width cfg) (cfg_height cfg)) eqn:Hopened.
    + intros [= <- _]. split; [apply Hnew|done].
    + destruct (video_open drv deviceName kDefaultResolution.1 kDefaultResolution.2);
        intros [= <- _]. split; [apply Hnew|done].
  - destruct (video_open drv deviceName kDefaultResolution.1 kDefaultResolution.2);
      intros [= <- _]. split; [apply Hnew|done].
Qed.

Lemma doneWithFrames_pool buffers : forall s,
  pool_ok s ->
  pool_ok (doneWithFrames buffers s).1
  /\ mVideo_isOpen (doneWithFrames buffers s).1 = mVideo_isOpen s
  /\ mFramesAllowed (doneWithFrames buffers s).1 = mFramesAllowed s.
Proof.
  induction buffers as [|b buffers IH]; intros s Hpool; [done|].
  cbn [doneWithFrames].
  destruct (doneWithFrame_impl_pool (bufferId b) (nativeHandle b) s Hpool)
    as (Hpool1 & Hopen1 & Hallowed1 & _).
  destruct (doneWithFrame_impl (bufferId b) (nativeHandle b) s) as [[r1 s1] evs1].
  cbn [fst snd] in *.
  destruct (IH s1 Hpool1) as (Hpool2 & Hopen2 & Hallowed2).
  destruct (doneWithFrames buffers s1) as [s2 evs2]. cbn [fst snd] in *.
  split; [done|]. split; congruence.
Qed.

Lemma setMaxFramesInFlight_pool bufferCount s :
  pool_ok s ->
  pool_ok (setMaxFramesInFlight bufferCount s).1.2
  /\ mFramesInUse (setMaxFramesInFlight bufferCount s).1.2 = mFramesInUse s
  /\ keeps_held (mBuffers s) (mBuffers (setMaxFramesInFlight bufferCount s).1.2).
Proof.
  intros Hpool. unfold setMaxFramesInFlight.
  destruct (negb (mVideo_isOpen s)); [|destruct (bufferCount <? 1)];
    try (split; [done|split; [done|apply keeps_held_refl]]).
  destruct (setAvailableFrames_Locked_pool bufferCount s Hpool) as (Hp & Hu & Hk & _).
  destruct (setAvailableFrames_Locked bufferCount s) as [[ok s1] evs1]. done.
Qed.

Lemma startVideoStream_pool videoSrcFormat started stream c :
  pool_ok (pool c) ->
  pool_ok (pool (startVideoStream videoSrcFormat started stream c).1.2).
Proof.
  intros Hpool. unfold startVideoStream.
  destruct (negb (mVideo_isOpen (pool c))); [done|].
  destruct (bool_decide (mStream c <> None)); [done|].
  assert (Hgrown : pool_ok
            (if mFramesAllowed (pool c) <? 1 then setAvailableFrames_Locked 1 (pool c)
             else (true, pool c, [])).1.2).
  { destruct (mFramesAllowed (pool c) <? 1); [|done].
    by destruct (setAvailableFrames_Locked_pool 1 (pool c) Hpool). }
  destruct (if mFramesAllowed (pool c) <? 1 then setAvailableFrames_Locked 1 (pool c)
            else (true, pool c, [])) as [[enough p] evs].
  cbn [fst snd] in Hgrown.
  destruct enough; cbn [negb]; [|done].
  destruct (chooseFill (mFormat p) videoSrcFormat) as [fill log].
  by destruct fill, started.
Qed.

Lemma step_pool o c c' evs :
  pool_ok (pool c) -> step o c = inr (c', evs) -> pool_ok (pool c').
Proof.
  intros Hpool. destruct o as [n|fmt started stream|isOk|buf locked isOk|buffers];
    cbn [step].
  - destruct (setMaxFramesInFlight_pool n (pool c) Hpool) as (Hp & _).
    destruct (setMaxFramesInFlight n (pool c)) as [[r p] e]. by intros [= <- _].
  - pose proof (startVideoStream_pool fmt started stream c Hpool) as Hp.
    destruct (startVideoStream fmt started stream c) as [[r c1] e]. by intros [= <- _].
  - unfold stopVideoStream.
    destruct (mStream_1_1 c); [|destruct (mStream c)]; by intros [= <- _].
  - destruct (forwardFrame_cases buf locked isOk c Hpool)
      as [[_ ->]|(Hroom & idx & h & Hidx & _ & ->)]; [by intros [= <- _]|].
    cbv zeta. destruct (mFillBufferFromVideo c); [|done].
    destruct (match mStream_1_1 c with Some _ => _ | None => _ end); [|done].
    intros [= <- _]. cbn [pool with_pool]. destruct isOk; [|done].
    destruct Hpool as (Hu & Ha & Hheld & Hmax).
    pose proof (inUse_count_insert _ idx _ {| handle := Some h; inUse := true |} Hidx) as Hc.
    pose proof (handle_count_insert _ idx _ {| handle := Some h; inUse := true |} Hidx) as Hh.
    cbn [handle inUse] in Hc, Hh.
    unfold pool_ok. cbn [mFramesInUse mFramesAllowed mBuffers with_frames].
    split; [lia|]. split; [lia|]. split; [|done].
    apply held_ok_insert; [done|]. intros _. unfold has_handle. done.
  - unfold doneWithFrame_1_1.
    destruct (doneWithFrames_pool buffers (pool c) Hpool) as (Hp & _).
    destruct (doneWithFrames buffers (pool c)) as [p e]. by intros [= <- _].
Qed.

Lemma run_pool ops : forall c c' evs,
  pool_ok (pool c) -> run ops c = inr (c', evs) -> pool_ok (pool c').
Proof.
  induction ops as [|o ops IH]; intros c c' evs Hpool; cbn [run].
  - by intros [= <- _].
  - destruct (step o c) as [fault|[c1 evs1]] eqn:Hstep; [done|].
    pose proof (step_pool o c c1 evs1 Hpool Hstep) as Hpool1.
    destruct (run ops c1) as [fault|[c2 evs2]] eqn:Hrun; [done|].
    intros [= <- _]. by eapply IH.
Qed.

(** The bookkeeping of the buffer pool.  Take a camera as [Create] gives it
    and any sequence of calls on it: changes of the pool size, starts and
    stops of the stream, frames from the capture thread, frames coming back
    from the client.  As long as no call runs through a missing pointer,
    the pool is in order afterwards: [mFramesInUse] is the number of records
    in use, [mFramesAllowed] the number of records with a buffer, every
    record in use has its buffer, and so the frames in flight never exceed
    the frames allowed, which never exceed the limit of 100. *)
Theorem pool_stays_in_order drv alloc deviceName camInfo requestedStreamCfg camera evs
    ops c evs' :
  Create drv alloc deviceName camInfo requestedStreamCfg = (Some camera, evs) ->
  run ops (camera_of camera) = inr (c, evs') ->
  pool_ok (pool c)
  /\ 0 <= mFramesInUse (pool c) <= mFramesAllowed (pool c)
  /\ mFramesAllowed (pool c) <= MAX_BUFFERS_IN_FLIGHT.
Proof.
  intros Hcreate Hrun.
  destruct (Create_pool _ _ _ _ _ _ _ Hcreate) as [Hnew _].
  pose proof (run_pool ops (camera_of camera) c evs' Hnew Hrun) as Hpool.
  split; [done|]. destruct Hpool as (Hu & Ha & Hheld & Hmax).
  pose proof (handle_count_split _ Hheld). lia.
Qed.

Lemma pool_stays_in_order_witness :
  exists c evs,
    run [SetMaxFramesInFlight 2;
         StartVideoStream V4L2_PIX_FMT_YUYV true (Some {| receiver := 1; implements_1_1 := true |});
         ForwardFrame {| tv_sec := 5; tv_usec := 20 |} true true;
         ForwardFrame {| tv_sec := 5; tv_usec := 40 |} true true;
         ForwardFrame {| tv_sec := 5; tv_usec := 60 |} true true;
         DoneWithFrame_1_1 [{| bufferId := 0; timestamp := 5000020; nativeHandle := Some 11 |}];
         SetMaxFramesInFlight 1]
      (camera_of (set_opened (construct [grants 11; grants 12]) true 1)) = inr (c, evs)
    /\ frames_sent evs = [(0, Some 11); (1, Some 12)]
    /\ pool_ok (pool c).
Proof.
  eexists _, _. split; [vm_compute; reflexivity|]. split; [reflexivity|].
  refine (proj1 (pool_stays_in_order obliging_driver [grants 11; grants 12]
                   "/dev/video0" None None _ _
                   [SetMaxFramesInFlight 2;
                    StartVideoStream V4L2_PIX_FMT_YUYV true
                      (Some {| receiver := 1; implements_1_1 := true |});
                    ForwardFrame {| tv_sec := 5; tv_usec := 20 |} true true;
                    ForwardFrame {| tv_sec := 5; tv_usec := 40 |} true true;
                    ForwardFrame {| tv_sec := 5; tv_usec := 60 |} true true;
                    DoneWithFrame_1_1
                      [{| bufferId := 0; timestamp := 5000020; nativeHandle := Some 11 |}];
                    SetMaxFramesInFlight 1] _ _ _ _)).
  - vm_compute. reflexivity.
  - vm_compute. reflexivity.
Defined.



Lemma set_handle_inUse k h bufs i :
  inUse <$> set_handle k h bufs !! i = inUse <$> bufs !! i.
Proof.
  unfold set_handle. destruct (bufs !! k) as [rec|] eqn:Hk; [|done].
  destruct (decide (k = i)) as [->|Hne].
  - rewrite list_lookup_insert_eq by (by eapply lookup_lt_Some). by rewrite Hk.
  - by rewrite list_lookup_insert_ne.
Qed.

Lemma set_inUse_lookup i b bufs rec :
  bufs !! i = Some rec ->
  set_inUse i b bufs !! i = Some {| handle := handle rec; inUse := b |}.
Proof.
  intros Hi. unfold set_inUse. rewrite Hi.
  apply list_lookup_insert_eq. by eapply lookup_lt_Some.
Qed.

Lemma set_inUse_length i b bufs : length (set_inUse i b bufs) = length bufs.
Proof. unfold set_inUse. destruct (bufs !! i); [apply length_insert|done]. Qed.

Lemma set_handle_length i h bufs : length (set_handle i h bufs) = length bufs.
Proof. unfold set_handle. destruct (bufs !! i); [apply length_insert|done]. Qed.

(** A frame coming back is ignored, with the answer OK and the camera left
    as it is, when the camera is lost, when the handle is null, when the id
    is beyond the vector, and when the record is not in use.  In every case
    the call leaves the record, if there is one, not in use; so the same
    call, made again, changes nothing: a frame returned twice is a frame
    returned once. *)
Theorem doneWithFrame_impl_ignores_bad_calls bufferId memHandle s :
  (doneWithFrame_impl bufferId memHandle s).1.1 = OK
  /\ (mVideo_isOpen s = false -> (doneWithFrame_impl bufferId memHandle s).1.2 = s)
  /\ (memHandle = None -> (doneWithFrame_impl bufferId memHandle s).1.2 = s)
  /\ (Z.of_nat (length (mBuffers s)) <= bufferId ->
        (doneWithFrame_impl bufferId memHandle s).1.2 = s)
  /\ (inUse <$> mBuffers s !! Z.to_nat bufferId = Some false ->
        (doneWithFrame_impl bufferId memHandle s).1.2 = s)
  /\ (doneWithFrame_impl bufferId memHandle (doneWithFrame_impl bufferId memHandle s).1.2).1.2
     = (doneWithFrame_impl bufferId memHandle s).1.2.
Proof.
  assert (Hfree : forall t,
            inUse <$> mBuffers t !! Z.to_nat bufferId = Some false ->
            (doneWithFrame_impl bufferId memHandle t).1.2 = t).
  { intros t Hrec. unfold doneWithFrame_impl.
    destruct (negb (mVideo_isOpen t)); [done|]. destruct memHandle; [|done].
    destruct (bufferId <? Z.of_nat (length (mBuffers t))); [|done].
    destruct (mBuffers t !! Z.to_nat bufferId) as [rec|]; [|done].
    injection Hrec as ->. done. }
  split; [|split; [|split; [|split; [|split; [exact (Hfree s)|]]]]].
  - unfold doneWithFrame_impl.
    destruct (negb (mVideo_isOpen s)); [done|]. destruct memHandle; [|done].
    destruct (if bufferId <? _ then _ else _) as [rec|]; [|done].
    by destruct (negb (inUse rec)).
  - intros Hlost. unfold doneWithFrame_impl. by rewrite Hlost.
  - intros ->. unfold doneWithFrame_impl. by destruct (negb (mVideo_isOpen s)).
  - intros Hid. unfold doneWithFrame_impl.
    destruct (negb (mVideo_isOpen s)); [done|]. destruct memHandle; [|done].
    destruct (Z.ltb_spec bufferId (Z.of_nat (length (mBuffers s)))); [lia|done].
  - assert (Hcases : (doneWithFrame_impl bufferId memHandle s).1.2 = s
                     \/ inUse <$> mBuffers (doneWithFrame_impl bufferId memHandle s).1.2
                                    !! Z.to_nat bufferId = Some false).
    { unfold doneWithFrame_impl.
      destruct (negb (mVideo_isOpen s)); [by left|].
      destruct memHandle as [mh|]; [|by left].
      destruct (bufferId <? Z.of_nat (length (mBuffers s))); [|by left].
      destruct (mBuffers s !! Z.to_nat bufferId) as [rec|] eqn:Hrec; [|by left].
      destruct (inUse rec) eqn:Hused; cbn [negb]; [|by left].
      right. cbn [fst snd mBuffers with_frames].
      pose proof (set_inUse_lookup _ false _ _ Hrec) as Hreleased.
      destruct (mFramesAllowed s <=? bufferId); [|by rewrite Hreleased].
      destruct (set_inUse (Z.to_nat bufferId) false (mBuffers s)
                  !! HalCamera.find_index (fun r => bool_decide (handle r = None))
                       (set_inUse (Z.to_nat bufferId) false (mBuffers s)));
        [|by rewrite Hreleased].
      by rewrite !set_handle_inUse, Hreleased. }
    destruct Hcases as [Hsame|Hreleased]; [by rewrite !Hsame|by apply Hfree].
Qed.

(** As many handles as the first [j] records are, if all of them have one. *)
Lemma handle_count_prefix bufs : forall j,
  (forall k rec, (k < j)%nat -> bufs !! k = Some rec -> handle rec <> None) ->
  (j <= length bufs)%nat -> (j <= handle_count bufs)%nat.
Proof.
  induction bufs as [|rec bufs IH]; intros j Hall Hlen; [simpl in Hlen; lia|].
  destruct j as [|j]; [lia|].
  rewrite handle_count_cons.
  pose proof (Hall 0%nat rec ltac:(lia) eq_refl) as Hrec.
  destruct (handle rec); [|done].
  assert (j <= handle_count bufs)%nat; [|lia].
  apply IH; [|simpl in Hlen; lia].
  intros k r Hk Hr. apply (Hall (S k) r); [lia|done].
Qed.

(** A frame in flight comes back, on an open camera with its pool in
    order.  One frame less is in flight and as many are allowed as before.
    A record below [mFramesAllowed] is marked free where it is.  A record
    at or above [mFramesAllowed] hands its buffer down: a record without a
    buffer exists below it, the first such record takes the buffer, and the
    record of the frame is left empty. *)
Theorem doneWithFrame_impl_releases bufferId memHandle s rec :
  pool_ok s -> mVideo_isOpen s = true -> 0 <= bufferId ->
  mBuffers s !! Z.to_nat bufferId = Some rec -> inUse rec = true ->
  mFramesInUse (doneWithFrame_impl bufferId (Some memHandle) s).1.2 = mFramesInUse s - 1
  /\ mFramesAllowed (doneWithFrame_impl bufferId (Some memHandle) s).1.2 = mFramesAllowed s
  /\ (doneWithFrame_impl bufferId (Some memHandle) s).2 = []
  /\ (bufferId < mFramesAllowed s ->
        mBuffers (doneWithFrame_impl bufferId (Some memHandle) s).1.2
        = <[Z.to_nat bufferId := {| handle := handle rec; inUse := false |}]> (mBuffers s))
  /\ (mFramesAllowed s <= bufferId ->
        exists j,
          (j < Z.to_nat bufferId)%nat
          /\ mBuffers s !! j = Some {| handle := None; inUse := false |}
          /\ (forall k r, (k < j)%nat -> mBuffers s !! k = Some r -> handle r <> None)
          /\ mBuffers (doneWithFrame_impl bufferId (Some memHandle) s).1.2
             = <[Z.to_nat bufferId := {| handle := None; inUse := false |}]>
                 (<[j := {| handle := handle rec; inUse := false |}]> (mBuffers s))).
Proof.
  intros (Hu & Ha & Hheld & Hmax) Hopen Hid Hrec Hused.
  unfold MAX_BUFFERS_IN_FLIGHT in Hmax.
  set (i := Z.to_nat bufferId) in *.
  pose proof (lookup_lt_Some _ _ _ Hrec) as Hlen.
  assert (Hh : exists h, handle rec = Some h).
  { unfold held_ok in Hheld. rewrite Forall_lookup in Hheld.
    pose proof (Hheld i rec Hrec Hused) as Hhas. unfold has_handle in Hhas.
    destruct (handle rec) as [h|]; [by exists h|done]. }
  destruct Hh as [h Hh].
  set (released := {| handle := Some h; inUse := false |}).
  set (bufs1 := <[i := released]> (mBuffers s)).
  assert (Hset : set_inUse i false (mBuffers s) = bufs1)
    by (unfold set_inUse; by rewrite Hrec, Hh).
  assert (Hi1 : bufs1 !! i = Some released) by (by apply list_lookup_insert_eq).
  pose proof (inUse_count_insert (mBuffers s) i rec released Hrec) as Hcount1.
  rewrite Hused in Hcount1. cbn [inUse released] in Hcount1.
  pose proof (handle_count_split _ Hheld) as Hsplit.
  assert (Hwrap : wrap_u32 (mFramesInUse s - 1) = mFramesInUse s - 1)
    by (apply wrap_u32_small; unfold UINT32_MAX; lia).
  unfold doneWithFrame_impl. rewrite Hopen. cbn [negb].
  destruct (Z.ltb_spec bufferId (Z.of_nat (length (mBuffers s)))) as [_|Hout]; [|lia].
  fold i. rewrite Hrec, Hused. cbn [negb fst snd mFramesInUse mFramesAllowed mBuffers with_frames].
  rewrite !Hset, Hwrap, Hh.
  split; [done|]. split; [done|]. split; [done|].
  destruct (Z.leb_spec (mFramesAllowed s) bufferId) as [Hhigh|Hlow].
  2:{ split; [done|]. intros; lia. }
  split; [intros; lia|]. intros _.
  set (j := HalCamera.find_index (fun r => bool_decide (handle r = None)) bufs1).
  assert (Hbefore : forall k r, (k < j)%nat -> mBuffers s !! k = Some r -> handle r <> None).
  { intros k r Hk Hr.
    destruct (decide (k = i)) as [->|Hne]; [congruence|].
    assert (Hr1 : bufs1 !! k = Some r) by (subst bufs1; by rewrite list_lookup_insert_ne).
    pose proof (find_index_before _ _ _ _ Hk Hr1) as Hp. cbv beta in Hp.
    by apply bool_decide_eq_false in Hp. }
  assert (Hj : (j < i)%nat).
  { destruct (decide (j < i)%nat) as [|Hge]; [done|]. exfalso.
    assert (Hpre : (S i <= handle_count (mBuffers s))%nat); [|lia].
    apply handle_count_prefix; [|lia].
    intros k r Hk Hr. destruct (decide (k = i)) as [->|Hne]; [congruence|].
    apply (Hbefore k r); [lia|done]. }
  destruct (bufs1 !! j) as [empty|] eqn:Hempty.
  2:{ apply lookup_ge_None in Hempty. subst bufs1. rewrite length_insert in Hempty. lia. }
  pose proof (find_index_lookup _ _ _ Hempty) as Hnone. apply bool_decide_eq_true in Hnone.
  assert (Hempty0 : mBuffers s !! j = Some empty)
    by (subst bufs1; rewrite list_lookup_insert_ne in Hempty by lia; done).
  assert (Hfree : inUse empty = false).
  { destruct (inUse empty) eqn:Hue; [|done]. exfalso.
    unfold held_ok in Hheld. rewrite Forall_lookup in Hheld.
    by apply (Hheld j empty Hempty0 Hue). }
  assert (Hshape : empty = {| handle := None; inUse := false |})
    by (destruct empty; cbn in *; congruence).
  subst empty. exists j. split; [done|]. split; [done|]. split; [done|].
  rewrite Hi1. cbn [mbind option_bind handle released].
  unfold set_handle at 2. rewrite Hempty. cbn [inUse].
  unfold set_handle. rewrite list_lookup_insert_ne by lia. rewrite Hi1. cbn [inUse released].
  subst bufs1.
  rewrite (list_insert_insert_ne (mBuffers s) j i _ released) by lia.
  by rewrite list_insert_insert_eq.
Qed.

Lemma doneWithFrame_impl_releases_witness :
  mBuffers
    (doneWithFrame_impl 2 (Some 12)
       {| mVideo_isOpen := true; mFormat := 1; mUsage := 306; mStride := 640;
          mFramesAllowed := 2; mFramesInUse := 2;
          mBuffers := [{| handle := Some 11; inUse := true |};
                       {| handle := None; inUse := false |};
                       {| handle := Some 12; inUse := true |}];
          gralloc := [] |}).1.2
  = [{| handle := Some 11; inUse := true |};
     {| handle := Some 12; inUse := false |};
     {| handle := None; inUse := false |}].
Proof.
  destruct (doneWithFrame_impl_releases 2 12
              {| mVideo_isOpen := true; mFormat := 1; mUsage := 306; mStride := 640;
                 mFramesAllowed := 2; mFramesInUse := 2;
                 mBuffers := [{| handle := Some 11; inUse := true |};
                              {| handle := None; inUse := false |};
                              {| handle := Some 12; inUse := true |}];
                 gralloc := [] |} {| handle := Some 12; inUse := true |})
    as (_ & _ & _ & _ & Hmove).
  - unfold pool_ok, held_ok, MAX_BUFFERS_IN_FLIGHT. cbn.
    split; [reflexivity|]. split; [reflexivity|]. split; [|lia].
    repeat constructor; unfold has_handle; cbn; congruence.
  - reflexivity.
  - lia.
  - reflexivity.
  - reflexivity.
  - destruct Hmove as (j & _ & _ & _ & Hbufs); [cbn; lia|].
    reflexivity.
Defined.

Lemma doneWithFrame_impl_frame bufferId memHandle s :
  (doneWithFrame_impl bufferId memHandle s).1.2
  = with_frames s (mFramesInUse (doneWithFrame_impl bufferId memHandle s).1.2)
      (mBuffers (doneWithFrame_impl bufferId memHandle s).1.2).
Proof.
  unfold doneWithFrame_impl.
  destruct (negb (mVideo_isOpen s)); [by rewrite with_frames_same|].
  destruct memHandle; [|by rewrite with_frames_same].
  destruct (if bufferId <? _ then _ else _) as [rec|]; [|by rewrite with_frames_same].
  destruct (negb (inUse rec)); [by rewrite with_frames_same|done].
Qed.

(** A frame goes out and comes back.  When the capture thread has issued
    a buffer to the client and the client returns the frame it was sent,
    the counters are what they were before the frame, the pool is in
    order, and if the buffer sat below [mFramesAllowed] the camera is
    exactly what it was. *)
Theorem forwardFrame_then_doneWithFrame pV4lBuff locked c c' evs id h :
  pool_ok (pool c) -> mVideo_isOpen (pool c) = true ->
  forwardFrame pV4lBuff locked true c = inr (c', evs) ->
  frames_sent evs = [(id, Some h)] ->
  mFramesInUse (doneWithFrame_impl id (Some h) (pool c')).1.2 = mFramesInUse (pool c)
  /\ mFramesAllowed (doneWithFrame_impl id (Some h) (pool c')).1.2 = mFramesAllowed (pool c)
  /\ pool_ok (doneWithFrame_impl id (Some h) (pool c')).1.2
  /\ (id < mFramesAllowed (pool c) ->
        (doneWithFrame_impl id (Some h) (pool c')).1.2 = pool c).
Proof.
  intros Hpool Hopen Hrun Hsent.
  pose proof (step_pool (ForwardFrame pV4lBuff locked true) c c' evs Hpool Hrun) as Hpool'.
  destruct (forwardFrame_cases pV4lBuff locked true c Hpool)
    as [[_ Hskip]|(Hroom & idx & h' & Hidx & _ & Hissue)].
  { rewrite Hskip in Hrun. injection Hrun as <- <-. done. }
  rewrite Hissue in Hrun. cbv zeta in Hrun.
  destruct (mFillBufferFromVideo c) as [fill|]; [|done].
  assert (Hframe : id = Z.of_nat idx /\ h = h'
                   /\ pool c' = with_frames (pool c) (mFramesInUse (pool c) + 1)
                                  (<[idx := {| handle := Some h'; inUse := true |}]>
                                     (mBuffers (pool c)))).
  { destruct (mStream_1_1 c) as [st|]; [|destruct (mStream c) as [st|]; [|done]];
      injection Hrun as <- <-; unfold frames_sent in Hsent;
      destruct locked; cbn in Hsent;
      injection Hsent as <- <-; done. }
  destruct Hframe as (-> & -> & Hpool_c').
  pose proof (lookup_lt_Some _ _ _ Hidx) as Hlen.
  destruct (doneWithFrame_impl_releases (Z.of_nat idx) h' (pool c')
              {| handle := Some h'; inUse := true |} Hpool')
    as (Hu & Ha & _ & Hlow & _).
  { by rewrite Hpool_c'. }
  { lia. }
  { rewrite Hpool_c', Nat2Z.id. cbn [mBuffers with_frames].
    by apply list_lookup_insert_eq. }
  { done. }
  rewrite Hpool_c' in Hu, Ha, Hlow, Hpool' |- *.
  cbn [mFramesInUse mFramesAllowed mBuffers with_frames] in Hu, Ha, Hlow.
  split; [lia|]. split; [done|].
  split; [by apply doneWithFrame_impl_pool|].
  intros Hbelow. rewrite doneWithFrame_impl_frame, Hu, (Hlow Hbelow), Nat2Z.id.
  cbn [handle]. rewrite list_insert_insert_eq.
  rewrite (list_insert_id (mBuffers (pool c)) idx {| handle := Some h'; inUse := false |} Hidx).
  replace (mFramesInUse (pool c) + 1 - 1) with (mFramesInUse (pool c)) by lia.
  by destruct (pool c).
Qed.

Lemma forwardFrame_then_doneWithFrame_witness :
  exists c' evs,
    forwardFrame {| tv_sec := 1; tv_usec := 500 |} true true
      {| pool := {| mVideo_isOpen := true; mFormat := 1; mUsage := 306;
                    mStride := 640; mFramesAllowed := 2; mFramesInUse := 1;
                    mBuffers := [{| handle := Some 11; inUse := true |};
                                 {| handle := Some 12; inUse := false |}];
                    gralloc := [] |};
         mStream := Some {| receiver := 1; implements_1_1 := true |};
         mStream_1_1 := Some {| receiver := 1; implements_1_1 := true |};
         mFillBufferFromVideo := Some fillRGBAFromYUYV |} = inr (c', evs)
    /\ (doneWithFrame_impl 1 (Some 12) (pool c')).1.2
       = {| mVideo_isOpen := true; mFormat := 1; mUsage := 306;
            mStride := 640; mFramesAllowed := 2; mFramesInUse := 1;
            mBuffers := [{| handle := Some 11; inUse := true |};
                         {| handle := Some 12; inUse := false |}];
            gralloc := [] |}.
Proof.
  eexists _, _. split; [vm_compute; reflexivity|].
  refine (proj2 (proj2 (proj2
            (forwardFrame_then_doneWithFrame {| tv_sec := 1; tv_usec := 500 |} true
               {| pool := {| mVideo_isOpen := true; mFormat := 1; mUsage := 306;
                             mStride := 640; mFramesAllowed := 2; mFramesInUse := 1;
                             mBuffers := [{| handle := Some 11; inUse := true |};
                                          {| handle := Some 12; inUse := false |}];
                             gralloc := [] |};
                  mStream := Some {| receiver := 1; implements_1_1 := true |};
                  mStream_1_1 := Some {| receiver := 1; implements_1_1 := true |};
                  mFillBufferFromVideo := Some fillRGBAFromYUYV |}
               _ _ 1 12 _ _ _ _))) _).
  - unfold pool_ok, held_ok, MAX_BUFFERS_IN_FLIGHT. cbn.
    split; [reflexivity|]. split; [reflexivity|]. split; [|lia].
    repeat constructor; unfold has_handle; cbn; congruence.
  - reflexivity.
  - vm_compute. reflexivity.
  - reflexivity.
  - cbn. lia.
Defined.

(** Changing the number of frames allowed, on an open camera with its pool
    in order.  A count below 1 is answered INVALID_ARG and a count above 100
    BUFFER_NOT_AVAILABLE, both without touching the camera or the allocator.
    A count within the limits never touches a buffer that the client holds
    nor the count of frames in flight.  A smaller count is always answered
    OK: idle buffers are freed, and [mFramesAllowed] ends at the count asked
    for or at the number of frames in flight, whichever is larger.  A larger
    count, when the allocator grants the buffers that are missing, is
    answered OK with exactly that count allowed and nothing freed. *)
Theorem setMaxFramesInFlight_resizes bufferCount s :
  pool_ok s -> mVideo_isOpen s = true ->
  (bufferCount < 1 ->
     setMaxFramesInFlight bufferCount s
     = (INVALID_ARG, s,
        [LogE "Ignoring setMaxFramesInFlight with less than one buffer requested"]))
  /\ (MAX_BUFFERS_IN_FLIGHT < bufferCount ->
        setMaxFramesInFlight bufferCount s
        = (BUFFER_NOT_AVAILABLE, s,
           [LogE "Rejecting buffer request in excess of internal limit"]))
  /\ (1 <= bufferCount <= MAX_BUFFERS_IN_FLIGHT ->
        mFramesInUse (setMaxFramesInFlight bufferCount s).1.2 = mFramesInUse s
        /\ keeps_held (mBuffers s) (mBuffers (setMaxFramesInFlight bufferCount s).1.2)
        /\ (bufferCount = mFramesAllowed s -> setMaxFramesInFlight bufferCount s = (OK, s, []))
        /\ (bufferCount < mFramesAllowed s ->
              (setMaxFramesInFlight bufferCount s).1.1 = OK
              /\ mFramesAllowed (setMaxFramesInFlight bufferCount s).1.2
                 = Z.max bufferCount (mFramesInUse s)
              /\ Z.of_nat (length (freed (setMaxFramesInFlight bufferCount s).2))
                 = mFramesAllowed s - Z.max bufferCount (mFramesInUse s))
        /\ (mFramesAllowed s < bufferCount ->
            (forall i, (i < Z.to_nat (bufferCount - mFramesAllowed s))%nat ->
                       exists a, gralloc s !! i = Some a /\ granted a) ->
              (setMaxFramesInFlight bufferCount s).1.1 = OK
              /\ mFramesAllowed (setMaxFramesInFlight bufferCount s).1.2 = bufferCount
              /\ freed (setMaxFramesInFlight bufferCount s).2 = [])).
Proof.
  intros Hpool Hopen. pose proof Hpool as (Hu & Ha & Hheld & Hmax).
  unfold MAX_BUFFERS_IN_FLIGHT in *.
  split; [|split].
  - intros Hlow. unfold setMaxFramesInFlight. rewrite Hopen. cbn [negb].
    by destruct (Z.ltb_spec bufferCount 1); [|lia].
  - intros Hhigh. unfold setMaxFramesInFlight, setAvailableFrames_Locked, MAX_BUFFERS_IN_FLIGHT.
    rewrite Hopen. cbn [negb].
    destruct (Z.ltb_spec bufferCount 1); [lia|].
    by destruct (Z.ltb_spec 100 bufferCount); [|lia].
  - intros Hrange.
    destruct (setMaxFramesInFlight_pool bufferCount s Hpool) as (_ & Hinuse & Hkeeps).
    split; [done|]. split; [done|].
    unfold setMaxFramesInFlight, setAvailableFrames_Locked, MAX_BUFFERS_IN_FLIGHT.
    rewrite Hopen. cbn [negb].
    destruct (Z.ltb_spec bufferCount 1); [lia|].
    destruct (Z.ltb_spec 100 bufferCount); [lia|].
    pose proof (handle_count_split _ Hheld) as Hsplit.
    split; [|split].
    + intros ->. rewrite Z.ltb_irrefl. done.
    + intros Hshrink.
      destruct (Z.ltb_spec (mFramesAllowed s) bufferCount); [lia|].
      destruct (Z.ltb_spec bufferCount (mFramesAllowed s)); [|lia].
      rewrite (wrap_u32_small (mFramesAllowed s - bufferCount)) by (unfold UINT32_MAX; lia).
      unfold decreaseAvailableFrames_Locked.
      destruct (decreaseLoop_frees (mFramesAllowed s - bufferCount) (mBuffers s) 0
                  (mFramesAllowed s))
        as (_ & Hal2 & _ & _ & _ & _ & _ & Hfreed);
        [lia|unfold UINT32_MAX; lia|unfold UINT32_MAX; lia|].
      destruct (decreaseLoop (mFramesAllowed s - bufferCount) 0 (mFramesAllowed s) (mBuffers s))
        as [[[bufs2 r2] a2] evs2].
      cbn [fst snd mFramesAllowed with_buffers] in *.
      destruct (Z.ltb_spec 0 (mFramesAllowed s - bufferCount)); [|lia].
      rewrite wrap_u32_small in Hal2 by (unfold UINT32_MAX; lia).
      split; [done|]. split; [lia|].
      change (LogI ?m :: evs2 ++ ?l) with ([LogI m] ++ evs2 ++ l).
      unfold freed in *. rewrite !bind_app, !length_app, Hfreed.
      destruct (negb _); cbn; lia.
    + intros Hgrow Hgrants.
      destruct (Z.ltb_spec (mFramesAllowed s) bufferCount); [|lia].
      rewrite (wrap_u32_small (bufferCount - mFramesAllowed s)) by (unfold UINT32_MAX; lia).
      unfold increaseAvailableFrames_Locked.
      destruct (increaseLoop_pool (Z.to_nat (bufferCount - mFramesAllowed s)) 0 s)
        as (k & _ & Hadded & Hal & _ & _ & _ & _ & _ & _ & _ & Hfreed & Hall);
        [lia|unfold UINT32_MAX; lia|lia|unfold UINT32_MAX; lia|done|].
      specialize (Hall Hgrants). subst k.
      destruct (increaseLoop (Z.to_nat (bufferCount - mFramesAllowed s)) 0 s)
        as [[added s1] evs1].
      cbn [fst snd] in *. rewrite Hadded.
      destruct (Z.eqb_spec (0 + Z.of_nat (Z.to_nat (bufferCount - mFramesAllowed s)))
                  (bufferCount - mFramesAllowed s)); [|lia].
      cbn [negb fst snd]. split; [done|]. split; [lia|].
      change (LogI ?m :: evs1) with ([LogI m] ++ evs1).
      unfold freed in *. by rewrite bind_app, Hfreed.
Qed.

Lemma setMaxFramesInFlight_resizes_witness :
  mFramesAllowed
    (setMaxFramesInFlight 1
       {| mVideo_isOpen := true; mFormat := 1; mUsage := 306; mStride := 640;
          mFramesAllowed := 3; mFramesInUse := 2;
          mBuffers := [{| handle := Some 11; inUse := true |};
                       {| handle := Some 12; inUse := false |};
                       {| handle := Some 13; inUse := true |}];
          gralloc := [] |}).1.2 = 2.
Proof.
  destruct (setMaxFramesInFlight_resizes 1
              {| mVideo_isOpen := true; mFormat := 1; mUsage := 306; mStride := 640;
                 mFramesAllowed := 3; mFramesInUse := 2;
                 mBuffers := [{| handle := Some 11; inUse := true |};
                              {| handle := Some 12; inUse := false |};
                              {| handle := Some 13; inUse := true |}];
                 gralloc := [] |})
    as (_ & _ & Hin).
  - unfold pool_ok, held_ok, MAX_BUFFERS_IN_FLIGHT. cbn.
    split; [reflexivity|]. split; [reflexivity|]. split; [|lia].
    repeat constructor; unfold has_handle; cbn; congruence.
  - reflexivity.
  - destruct Hin as (_ & _ & _ & Hshrink & _); [unfold MAX_BUFFERS_IN_FLIGHT; lia|].
    destruct Hshrink as (_ & Hallowed & _); [cbn; lia|].
    etrans; [exact Hallowed|reflexivity].
Defined.

(** Starting the stream.  A lost camera answers OWNERSHIP_LOST and a camera
    with a stream STREAM_ALREADY_RUNNING, and nothing changes.  Otherwise,
    with at least one frame allowed, the answer depends on the video device
    alone: OK with the receiver recorded (as a v1.1 receiver too if it is
    one) when the device starts, UNDERLYING_SERVICE_ERROR with no receiver
    recorded when it does not.  The copy function is the one for the two
    formats if there is one; if there is none the start goes on all the
    same, with the copy function left as it was. *)
Theorem startVideoStream_spec videoSrcFormat started stream c :
  (mVideo_isOpen (pool c) = false ->
     (startVideoStream videoSrcFormat started stream c).1 = (OWNERSHIP_LOST, c))
  /\ (mVideo_isOpen (pool c) = true -> mStream c <> None ->
        (startVideoStream videoSrcFormat started stream c).1 = (STREAM_ALREADY_RUNNING, c))
  /\ (mVideo_isOpen (pool c) = true -> mStream c = None -> 1 <= mFramesAllowed (pool c) ->
        (startVideoStream videoSrcFormat started stream c).1
        = (if started then OK else UNDERLYING_SERVICE_ERROR,
           {| pool := pool c;
              mStream := if started then stream else None;
              mStream_1_1 :=
                if started
                then stream ≫= fun st => if implements_1_1 st then Some st else None
                else None;
              mFillBufferFromVideo :=
                match (chooseFill (mFormat (pool c)) videoSrcFormat).1 with
                | Some fill => Some fill
                | None => mFillBufferFromVideo c
                end |})).
Proof.
  split; [|split].
  - intros Hlost. unfold startVideoStream. by rewrite Hlost.
  - intros Hopen Hrunning. unfold startVideoStream. rewrite Hopen. cbn [negb].
    by rewrite bool_decide_eq_true_2.
  - intros Hopen Hnone Hallowed. unfold startVideoStream. rewrite Hopen. cbn [negb].
    rewrite bool_decide_eq_false_2 by (by rewrite Hnone; intros ?).
    destruct (Z.ltb_spec (mFramesAllowed (pool c)) 1); [lia|]. cbn [negb].
    destruct (chooseFill (mFormat (pool c)) videoSrcFormat) as [[fill|] log];
      destruct started; cbn [fst snd]; by destruct c.
Qed.

(** Stopping the stream.  The video device is told to stop; a v1.1
    receiver is then sent the event STREAM_STOPPED, a v1.0 receiver the
    null frame, once; and no receiver is recorded any more, so that the
    next start is not answered STREAM_ALREADY_RUNNING.  The pool is not
    touched: frames the client holds stay in flight. *)
Theorem stopVideoStream_spec isOk c :
  mStream (stopVideoStream isOk c).1 = None
  /\ mStream_1_1 (stopVideoStream isOk c).1 = None
  /\ pool (stopVideoStream isOk c).1 = pool c
  /\ mFillBufferFromVideo (stopVideoStream isOk c).1 = mFillBufferFromVideo c
  /\ head (stopVideoStream isOk c).2 = Some Video_stopStream
  /\ (forall st, mStream_1_1 c = Some st ->
        (stopVideoStream isOk c).2 !! 1%nat
        = Some (Stream_notify st {| aType := STREAM_STOPPED; payload := [] |} isOk)
        /\ frames_sent (stopVideoStream isOk c).2 = [])
  /\ (forall st, mStream_1_1 c = None -> mStream c = Some st ->
        frames_sent (stopVideoStream isOk c).2 = [(0, None)])
  /\ (forall videoSrcFormat started stream,
        mVideo_isOpen (pool c) = true ->
        (startVideoStream videoSrcFormat started stream (stopVideoStream isOk c).1).1.1
        <> STREAM_ALREADY_RUNNING).
Proof.
  assert (Hgone : mStream (stopVideoStream isOk c).1 = None
                  /\ pool (stopVideoStream isOk c).1 = pool c).
  { unfold stopVideoStream. destruct (mStream_1_1 c); [done|].
    by destruct (mStream c) eqn:Hs. }
  destruct Hgone as [Hgone Hpool].
  split; [done|]. split.
  { unfold stopVideoStream. destruct (mStream_1_1 c) eqn:H11; [done|].
    by destruct (mStream c). }
  split; [done|]. split.
  { unfold stopVideoStream. destruct (mStream_1_1 c); [done|]. by destruct (mStream c). }
  split.
  { unfold stopVideoStream. destruct (mStream_1_1 c); [done|]. by destruct (mStream c). }
  split.
  { intros st Hst. unfold stopVideoStream. rewrite Hst. by destruct isOk. }
  split.
  { intros st H11 Hst. unfold stopVideoStream. rewrite H11, Hst. by destruct isOk. }
  intros videoSrcFormat started stream Hopen.
  unfold startVideoStream. rewrite Hpool, Hopen, Hgone. cbn [negb].
  rewrite bool_decide_eq_false_2 by (by intros ?).
  destruct (if mFramesAllowed (pool c) <? 1 then _ else _) as [[enough p] evs].
  destruct enough; cbn [negb]; [|done].
  destruct (chooseFill (mFormat p) videoSrcFormat) as [fill log].
  by destruct started.
Qed.

(** The default output format with the format the video device is asked
    for.  [VideoCapture::open] asks the device for UYVY; the constructor
    makes RGBA_8888 the output format.  For that pair [startVideoStream] has
    no copy function: it logs the unhandled format and answers OK all the
    same.  On a camera that was never given a copy function the first frame
    with room in the pool is then forwarded through the unassigned
    pointer. *)
Theorem startVideoStream_without_copy_function started stream pV4lBuff locked isOk c :
  mVideo_isOpen (pool c) = true -> mStream c = None ->
  mFormat (pool c) = HAL_PIXEL_FORMAT_RGBA_8888 ->
  pool_ok (pool c) -> 1 <= mFramesAllowed (pool c) ->
  mFramesInUse (pool c) < mFramesAllowed (pool c) ->
  mFillBufferFromVideo c = None ->
  (startVideoStream V4L2_PIX_FMT_UYVY started stream c).1.1
  = (if started then OK else UNDERLYING_SERVICE_ERROR)
  /\ (Pool (LogE "Unhandled camera format %4.4s")
        ∈ (startVideoStream V4L2_PIX_FMT_UYVY started stream c).2)
  /\ mFillBufferFromVideo (startVideoStream V4L2_PIX_FMT_UYVY started stream c).1.2 = None
  /\ forwardFrame pV4lBuff locked isOk
       (startVideoStream V4L2_PIX_FMT_UYVY started stream c).1.2 = inl NoFillFunction.
Proof.
  intros Hopen Hnone Hformat Hpool Hallowed Hroom Hfill.
  destruct (startVideoStream_spec V4L2_PIX_FMT_UYVY started stream c) as (_ & _ & Hstart).
  specialize (Hstart Hopen Hnone Hallowed).
  assert (Hchoice : chooseFill (mFormat (pool c)) V4L2_PIX_FMT_UYVY
                    = (None, [LogE "Unhandled camera format %4.4s"]))
    by (by rewrite Hformat).
  rewrite Hchoice in Hstart. cbn [fst] in Hstart. rewrite Hfill in Hstart.
  split; [by rewrite Hstart|]. split.
  { unfold startVideoStream. rewrite Hopen. cbn [negb].
    rewrite bool_decide_eq_false_2 by (by rewrite Hnone; intros ?).
    destruct (Z.ltb_spec (mFramesAllowed (pool c)) 1); [lia|]. cbn [negb].
    rewrite Hchoice. destruct started; cbn [snd fmap list_fmap app];
      right; left. }
  rewrite Hstart. cbn [fst snd]. split; [done|].
  match goal with |- forwardFrame _ _ _ ?c1 = _ => set (c' := c1) end.
  destruct (forwardFrame_cases pV4lBuff locked isOk c' Hpool)
    as [[Hfull _]|(_ & idx & h & _ & _ & ->)]; [cbn in Hfull; lia|].
  done.
Qed.

Lemma startVideoStream_without_copy_function_witness :
  forwardFrame {| tv_sec := 1; tv_usec := 0 |} true true
    (startVideoStream V4L2_PIX_FMT_UYVY true (Some {| receiver := 1; implements_1_1 := true |})
       (camera_of
          {| mVideo_isOpen := true; mFormat := 1; mUsage := 306; mStride := 640;
             mFramesAllowed := 1; mFramesInUse := 0;
             mBuffers := [{| handle := Some 11; inUse := false |}];
             gralloc := [] |})).1.2 = inl NoFillFunction.
Proof.
  refine (proj2 (proj2 (proj2
            (startVideoStream_without_copy_function true
               (Some {| receiver := 1; implements_1_1 := true |})
               {| tv_sec := 1; tv_usec := 0 |} true true
               (camera_of
                  {| mVideo_isOpen := true; mFormat := 1; mUsage := 306; mStride := 640;
                     mFramesAllowed := 1; mFramesInUse := 0;
                     mBuffers := [{| handle := Some 11; inUse := false |}];
                     gralloc := [] |}) _ _ _ _ _ _ _)))).
  - reflexivity.
  - reflexivity.
  - reflexivity.
  - unfold pool_ok, held_ok, MAX_BUFFERS_IN_FLIGHT. cbn.
    split; [reflexivity|]. split; [reflexivity|]. split; [|lia].
    repeat constructor; unfold has_handle; cbn; congruence.
  - cbn. lia.
  - cbn. lia.
  - reflexivity.
Defined.

(** Shutting the camera down.  The stream is stopped, the video device
    closed, and every record's handle, null or not, in use or not, is
    passed to the allocator's [free], once, in the order of the vector; no
    record is left.  The two counters stay as they were.  From then on the
    camera answers OWNERSHIP_LOST to [setMaxFramesInFlight] and to
    [startVideoStream], and ignores every frame that comes back. *)
Theorem shutdown_spec isOk c :
  mBuffers (pool (shutdown isOk c).1) = []
  /\ mVideo_isOpen (pool (shutdown isOk c).1) = false
  /\ handles_dropped (shutdown isOk c).2 = handle <$> mBuffers (pool c)
  /\ mStream (shutdown isOk c).1 = None /\ mStream_1_1 (shutdown isOk c).1 = None
  /\ mFramesAllowed (pool (shutdown isOk c).1) = mFramesAllowed (pool c)
  /\ mFramesInUse (pool (shutdown isOk c).1) = mFramesInUse (pool c)
  /\ (forall bufferCount,
        (setMaxFramesInFlight bufferCount (pool (shutdown isOk c).1)).1
        = (OWNERSHIP_LOST, pool (shutdown isOk c).1))
  /\ (forall videoSrcFormat started stream,
        (startVideoStream videoSrcFormat started stream (shutdown isOk c).1).1
        = (OWNERSHIP_LOST, (shutdown isOk c).1))
  /\ (forall bufferId memHandle,
        (doneWithFrame_impl bufferId memHandle (pool (shutdown isOk c).1)).1
        = (OK, pool (shutdown isOk c).1)).
Proof.
  destruct (stopVideoStream_spec isOk c) as (Hs & Hs11 & Hpool & _ & _ & _ & _ & _).
  assert (Hdropped : forall bufs, handles_dropped (bufs ≫= dropBuffer) = handle <$> bufs).
  { induction bufs as [|rec bufs IH]; [done|].
    cbn [mbind list_bind fmap list_fmap]. unfold handles_dropped in *.
    rewrite bind_app, IH. unfold dropBuffer. by destruct (inUse rec). }
  assert (Hstop : handles_dropped (stopVideoStream isOk c).2 = []).
  { unfold stopVideoStream.
    destruct (mStream_1_1 c); [by destruct isOk|].
    destruct (mStream c); [by destruct isOk|done]. }
  unfold shutdown.
  destruct (stopVideoStream isOk c) as [c1 evs1]. cbn [fst snd] in *.
  split; [done|]. split; [done|]. split.
  { unfold handles_dropped in *. rewrite !bind_app, Hstop. cbn [app].
    change ([Video_close] ≫= _) with (@nil (option buffer_handle_t)). cbn [app].
    by rewrite Hdropped, Hpool. }
  split; [done|]. split; [done|]. split; [by rewrite Hpool|]. split; [by rewrite Hpool|].
  split; [done|]. split; [done|]. done.
Qed.

End PoolFacts.

(** ** EvsV4lCamera: the camera parameters *)

Section ParameterFacts.
Import Machine EvsV4lCamera.

Lemma controls_find_keys id (controls : Controls) :
  is_Some (controls_find id controls) <-> id ∈ controls.*1.
Proof.
  unfold controls_find. rewrite fmap_is_Some.
  induction controls as [|[k r] controls IH]; cbn.
  - split; [by intros [? ?]|by intros ?%elem_of_nil].
  - rewrite elem_of_cons. destruct (decide (k = id)) as [->|Hne].
    + split; [by left|by eexists].
    + rewrite fmap_is_Some, IH. split; [by right|by intros [?|?]].
Qed.

Lemma convertToV4l2CID_found id cid0 info :
  (convertToV4l2CID id cid0 info).1.1 = true <-> named id /\ id ∈ getParameterList info.
Proof.
  destruct info as [controls|]; cbn [getParameterList].
  - destruct id; cbn; rewrite ?bool_decide_eq_true, ?controls_find_keys;
      try tauto; split; [done|by intros [[] _]].
  - destruct id; cbn; split; try done; by intros [_ ?%elem_of_nil].
Qed.

Lemma convertToV4l2CID_log id cid0 info :
  device_calls (convertToV4l2CID id cid0 info).2 = [].
Proof. by destruct id. Qed.

Lemma device_calls_app evs1 evs2 :
  device_calls (evs1 ++ evs2) = device_calls evs1 ++ device_calls evs2.
Proof. unfold device_calls. by rewrite bind_app. Qed.

(** A parameter reaches the video device only when it is one of the ten
    the driver can translate and the controls of the camera list it.  For
    every other parameter [setIntParameter] and [getIntParameter] answer
    INVALID_ARG with the value 0 and leave the device alone. *)
Theorem device_contacted_only_for_listed_parameters V id value info :
  (device_calls (setIntParameter V id value info).2 <> []
   <-> named id /\ id ∈ getParameterList info) /\
  (device_calls (getIntParameter V id info).2 <> []
   <-> named id /\ id ∈ getParameterList info) /\
  (~ (named id /\ id ∈ getParameterList info) ->
   (setIntParameter V id value info).1 = (INVALID_ARG, [0]) /\
   (getIntParameter V id info).1 = (INVALID_ARG, [0])).
Proof.
  pose proof (convertToV4l2CID_found id V4L2_CID_BASE info) as Hfound.
  pose proof (convertToV4l2CID_log id V4L2_CID_BASE info) as Hlog.
  unfold setIntParameter, getIntParameter.
  destruct (convertToV4l2CID id V4L2_CID_BASE info) as [[found cid] log].
  cbn [fst snd] in Hfound, Hlog. rewrite <- Hfound. clear Hfound.
  destruct found; cbn [negb].
  - destruct (video_setParameter V cid value) as [status value1].
    destruct (video_getParameter V cid value1) as [status' value2].
    destruct (video_getParameter V cid 0) as [status0 value0].
    repeat split; try done; intros _;
      repeat match goal with |- context [if ?c then _ else _] => destruct c end;
      cbn [fst snd]; rewrite device_calls_app, Hlog; done.
  - cbn [fst snd]. rewrite Hlog. repeat split; try done; by intros [].
Qed.

(** Asking for the range of a parameter adds it to the controls.  Take one
    of the ten parameters the driver can translate that the controls of the
    camera do not have: to set it is refused with INVALID_ARG and the device
    is not asked.  [getIntParameterRange] answers (0, 0, 0) for it, and from
    then on [getParameterList] reports the parameter and both
    [setIntParameter] and [getIntParameter] pass it on to the device. *)
Theorem getIntParameterRange_adds_the_parameter V id value controls :
  named id -> controls_find id controls = None ->
  setIntParameter V id value (Some controls) = (INVALID_ARG, [0], []) /\
  (getIntParameterRange id (Some controls)).1 = (0, 0, 0) /\
  id ∈ getParameterList (getIntParameterRange id (Some controls)).2 /\
  exists cid,
    head (setIntParameter V id value (getIntParameterRange id (Some controls)).2).2
      = Some (Video_setParameter cid value) /\
    (getIntParameter V id (getIntParameterRange id (Some controls)).2).2
      = [Video_getParameter cid 0].
Proof.
  intros Hnamed Hnone.
  assert (Hafter : getIntParameterRange id (Some controls)
                   = ((0, 0, 0), Some (controls ++ [(id, (0, 0, 0))]))).
  { unfold getIntParameterRange, controls_at. by rewrite Hnone. }
  rewrite Hafter. cbn [fst snd].
  assert (Hin : id ∈ getParameterList (Some (controls ++ [(id, (0, 0, 0))]))).
  { cbn. rewrite fmap_app. apply elem_of_app. right. cbn. by left. }
  split; [|split; [done|split; [done|]]].
  - unfold setIntParameter, convertToV4l2CID. rewrite Hnone.
    destruct id; try done; cbn; by rewrite bool_decide_eq_false_2 by by intros [? ?].
  - apply controls_find_keys in Hin.
    unfold setIntParameter, getIntParameter, convertToV4l2CID.
    rewrite (bool_decide_eq_true_2 _ Hin).
    destruct id; try done; cbn [negb app];
      eexists; (split;
        [destruct (video_setParameter V _ value) as [status value1];
         destruct (video_getParameter V _ value1) as [status' value2];
         by destruct (status <? 0)
        |by destruct (video_getParameter V _ 0)]).
Qed.

Lemma getIntParameterRange_adds_the_parameter_witness :
  setIntParameter willing_video ABSOLUTE_ZOOM 3 (Some [(BRIGHTNESS, (0, 255, 1))])
    = (INVALID_ARG, [0], []) /\
  (getIntParameterRange ABSOLUTE_ZOOM (Some [(BRIGHTNESS, (0, 255, 1))])).1 = (0, 0, 0) /\
  ABSOLUTE_ZOOM
    ∈ getParameterList (getIntParameterRange ABSOLUTE_ZOOM (Some [(BRIGHTNESS, (0, 255, 1))])).2 /\
  exists cid,
    head (setIntParameter willing_video ABSOLUTE_ZOOM 3
            (getIntParameterRange ABSOLUTE_ZOOM (Some [(BRIGHTNESS, (0, 255, 1))])).2).2
      = Some (Video_setParameter cid 3) /\
    (getIntParameter willing_video ABSOLUTE_ZOOM
       (getIntParameterRange ABSOLUTE_ZOOM (Some [(BRIGHTNESS, (0, 255, 1))])).2).2
      = [Video_getParameter cid 0].
Proof.
  apply (getIntParameterRange_adds_the_parameter willing_video ABSOLUTE_ZOOM 3
           [(BRIGHTNESS, (0, 255, 1))]); [exact I|reflexivity].
Defined.

End ParameterFacts.

(** ** SurroundViewService: one session at a time *)

Section ServiceFacts.
Import Sv SurroundViewService.

Lemma run_cons o ops s :
  run (o :: ops) s = ((step o s).1 :: (run ops (step o s).2).1, (run ops (step o s).2).2).
Proof. cbn [run]. destruct (step o s) as [a s1]. cbn [fst snd]. by destruct (run ops s1). Qed.

Lemma run_app ops1 ops2 : forall s,
  (run (ops1 ++ ops2) s).2 = (run ops2 (run ops1 s).2).2.
Proof.
  induction ops1 as [|o ops1 IH]; intros s; [done|].
  change ((o :: ops1) ++ ops2) with (o :: (ops1 ++ ops2)).
  rewrite !run_cons. cbn [snd]. apply IH.
Qed.

Lemma honest_app ops1 ops2 : forall known s,
  honest known (ops1 ++ ops2) s ->
  honest (known_after known ops1 s) ops2 (run ops1 s).2.
Proof.
  induction ops1 as [|o ops1 IH]; intros known s Hhonest; [done|].
  destruct Hhonest as [_ Hrest]. rewrite run_cons. cbn [snd known_after].
  by apply IH.
Qed.

Lemma step_occupied k o s :
  sSurroundView3dSession s = Some k -> o <> Stop3d (Some k) ->
  sSurroundView3dSession (step o s).2 = Some k /\ handed3d o s = [] /\
  forall initialize, o = Start3d initialize -> (step o s).1 = (None, INTERNAL_ERROR).
Proof.
  intros Hslot Hne.
  destruct o as [initialize|session|initialize|session];
    cbn [step handed3d]; unfold start2dSession, stop2dSession, start3dSession, stop3dSession.
  - destruct (sSurroundView2dSession s); [|destruct initialize]; cbn; by rewrite ?Hslot.
  - destruct (bool_decide _); cbn; by rewrite ?Hslot.
  - by rewrite Hslot.
  - rewrite Hslot. rewrite bool_decide_eq_false_2; [done|].
    intros [_ ->]. by apply Hne.
Qed.

Lemma occupied_refuses k ops : forall s,
  sSurroundView3dSession s = Some k -> Stop3d (Some k) ∉ ops ->
  sSurroundView3dSession (run ops s).2 = Some k /\
  forall i initialize, ops !! i = Some (Start3d initialize) ->
    (run ops s).1 !! i = Some (None, INTERNAL_ERROR).
Proof.
  induction ops as [|o ops IH]; intros s Hslot Hnot; [done|].
  apply not_elem_of_cons in Hnot as [Hne Hnot].
  destruct (step_occupied k o s Hslot (not_eq_sym Hne)) as (Hslot' & _ & Hstart).
  destruct (IH _ Hslot' Hnot) as [Hend Hanswers].
  rewrite run_cons. cbn [fst snd]. split; [done|].
  intros [|i] initialize Hop; cbn in *.
  - injection Hop as ->. f_equal. by eapply Hstart.
  - by eapply Hanswers.
Qed.

Lemma wedged_stays k ops : forall known s,
  sSurroundView3dSession s = Some k -> k ∉ known -> honest known ops s ->
  Stop3d (Some k) ∉ ops.
Proof.
  induction ops as [|o ops IH]; intros known s Hslot Hnew Hhonest; [apply not_elem_of_nil|].
  destruct Hhonest as [Ho Hrest].
  assert (Hne : o <> Stop3d (Some k)) by (intros ->; by apply Hnew).
  destruct (step_occupied k o s Hslot Hne) as (Hslot' & Hnone & _).
  rewrite Hnone, app_nil_r in Hrest.
  apply not_elem_of_cons. split; [done|]. by eapply IH.
Qed.

Lemma step_made3d o s :
  (made3d s <= made3d (step o s).2)%nat /\
  Forall (fun session => (session < made3d (step o s).2)%nat) (handed3d o s).
Proof.
  destruct o as [initialize|session|initialize|session];
    cbn [step handed3d]; unfold start2dSession, stop2dSession, start3dSession, stop3dSession.
  - destruct (sSurroundView2dSession s); [|destruct initialize]; cbn; split; by try lia.
  - destruct (bool_decide _); cbn; split; by try lia.
  - destruct (sSurroundView3dSession s); [|destruct initialize]; cbn;
      split; try lia; try done. apply Forall_singleton. lia.
  - destruct (bool_decide _); cbn; split; by try lia.
Qed.

Lemma known_below_made ops : forall known s,
  Forall (fun session => (session < made3d s)%nat) known ->
  Forall (fun session => (session < made3d (run ops s).2)%nat) (known_after known ops s).
Proof.
  induction ops as [|o ops IH]; intros known s Hknown; [done|].
  rewrite run_cons. cbn [snd known_after]. apply IH.
  destruct (step_made3d o s) as [Hle Hhanded].
  apply Forall_app. split; [|done].
  eapply Forall_impl; [exact Hknown|]. cbn. lia.
Qed.

(** A start of the 3d session that fails in [initialize] wedges the
    service.  The service keeps the session it made and hands it to no
    one, so callers that stop only sessions they were given cannot remove
    it: every later [start3dSession] answers INTERNAL_ERROR with a null
    session, whatever [initialize] would have said. *)
Theorem failed_start3dSession_wedges_the_service pre post :
  sSurroundView3dSession (run pre initial).2 = None ->
  honest [] (pre ++ Start3d false :: post) initial ->
  forall i initialize, post !! i = Some (Start3d initialize) ->
    (run post (run (pre ++ [Start3d false]) initial).2).1 !! i
    = Some (None, INTERNAL_ERROR).
Proof.
  intros Hfree Hhonest.
  apply honest_app in Hhonest. destruct Hhonest as [_ Hpost].
  pose proof (known_below_made pre [] initial (Forall_nil_2 _)) as Hknown.
  rewrite run_app. cbn [run].
  set (s := (run pre initial).2) in *.
  set (known := known_after [] pre initial) in *.
  assert (Hstep : step (Start3d false) s
                  = (None, INTERNAL_ERROR,
                     {| sSurroundView2dSession := sSurroundView2dSession s;
                        sSurroundView3dSession := Some (made3d s);
                        made2d := made2d s; made3d := S (made3d s) |})).
  { cbn. unfold start3dSession. by rewrite Hfree. }
  assert (Hhanded : handed3d (Start3d false) s = []) by (unfold handed3d; by rewrite Hstep).
  rewrite Hhanded, app_nil_r in Hpost. rewrite Hstep in *. cbn [fst snd] in *.
  assert (Hnew : made3d s ∉ known).
  { intros Hin. rewrite Forall_forall in Hknown. specialize (Hknown _ Hin). lia. }
  eapply occupied_refuses; [reflexivity|].
  refine (wedged_stays (made3d s) post known _ _ Hnew Hpost). reflexivity.
Qed.

Lemma failed_start3dSession_wedges_the_service_witness :
  (run [Stop3d None; Start3d true]
       (run ([Start3d true; Stop3d (Some 0%nat)] ++ [Start3d false]) initial).2).1 !! 1%nat
  = Some (None, INTERNAL_ERROR).
Proof.
  apply (failed_start3dSession_wedges_the_service
           [Start3d true; Stop3d (Some 0%nat)] [Stop3d None; Start3d true]
           eq_refl) with (initialize := true); [|reflexivity].
  cbn. repeat split. apply elem_of_cons. by left.
Defined.

(** One 3d session at a time.  After [start3dSession] has handed out a
    session, every further [start3dSession] answers INTERNAL_ERROR until
    [stop3dSession] is called with that very session; that call answers OK,
    and the next start can succeed again. *)
Theorem one_3d_session_at_a_time s k s1 log ops :
  start3dSession true s = (Some k, OK, s1, log) ->
  Stop3d (Some k) ∉ ops ->
  (forall i initialize, ops !! i = Some (Start3d initialize) ->
     (run ops s1).1 !! i = Some (None, INTERNAL_ERROR)) /\
  (stop3dSession (Some k) (run ops s1).2).1.1 = OK /\
  (start3dSession true (stop3dSession (Some k) (run ops s1).2).1.2).1.1.2 = OK.
Proof.
  intros Hstart Hnot.
  assert (Hslot : sSurroundView3dSession s1 = Some k).
  { unfold start3dSession in Hstart.
    destruct (sSurroundView3dSession s); [done|]. by injection Hstart as <- <- _. }
  destruct (occupied_refuses k ops s1 Hslot Hnot) as [Hend Hanswers].
  split; [done|]. unfold stop3dSession. rewrite Hend.
  rewrite bool_decide_eq_true_2 by done. cbn. done.
Qed.

Lemma one_3d_session_at_a_time_witness :
  (forall i initialize,
     [Start3d true; Stop3d (Some 5%nat); Start2d true] !! i = Some (Start3d initialize) ->
     (run [Start3d true; Stop3d (Some 5%nat); Start2d true]
          (start3dSession true initial).1.2).1 !! i = Some (None, INTERNAL_ERROR)) /\
  (stop3dSession (Some 0%nat)
     (run [Start3d true; Stop3d (Some 5%nat); Start2d true]
          (start3dSession true initial).1.2).2).1.1 = OK /\
  (start3dSession true
     (stop3dSession (Some 0%nat)
        (run [Start3d true; Stop3d (Some 5%nat); Start2d true]
             (start3dSession true initial).1.2).2).1.2).1.1.2 = OK.
Proof.
  apply (one_3d_session_at_a_time initial 0%nat (start3dSession true initial).1.2 []);
    [reflexivity|].
  intros Hin. repeat (apply elem_of_cons in Hin as [Hin|Hin]; [discriminate Hin|]).
  by apply elem_of_nil in Hin.
Defined.

End ServiceFacts.

(** ** SurroundView3dSession: the stream of the cameras *)

Section SessionFacts.
Import Machine SurroundView3dSession.

Lemma encode_lookup cfgs : forall p c j,
  cfgs !! p = Some c -> (j < 6)%nat ->
  encode cfgs !! (6 * p + j)%nat
  = [id c; width c; height c; format c; direction c; framerate c] !! j.
Proof.
  induction cfgs as [|c0 cfgs IH]; intros p c j Hp Hj; [done|].
  change (encode (c0 :: cfgs))
    with ([id c0; width c0; height c0; format c0; direction c0; framerate c0]
          ++ encode cfgs).
  destruct p as [|p]; cbn in Hp.
  - injection Hp as ->. rewrite lookup_app_l by (cbn; lia). done.
  - rewrite lookup_app_r by (cbn; lia). cbn [length].
    replace (6 * S p + j - 6)%nat with (6 * p + j)%nat by lia. by apply IH.
Qed.

Lemma examine_entry cfgs p c t :
  cfgs !! p = Some c -> examine (entry_of cfgs) p t = inr (better t c).
Proof.
  intros Hp. unfold examine, read, better. cbn [data_i32 entry_of].
  rewrite (encode_lookup cfgs p c 4 Hp) by lia. cbn [lookup list_lookup].
  destruct (direction c =? _); cbn [negb andb]; [|done].
  rewrite (encode_lookup cfgs p c 3 Hp) by lia. cbn [lookup list_lookup].
  destruct (format c =? _); cbn [negb andb]; [|done].
  rewrite (encode_lookup cfgs p c 1 Hp) by lia. cbn [lookup list_lookup].
  rewrite (encode_lookup cfgs p c 2 Hp) by lia. cbn [lookup list_lookup].
  destruct (maxArea t <? _); [|done].
  rewrite (encode_lookup cfgs p c 0 Hp) by lia. done.
Qed.

Lemma examined_bounds n :
  (n <= 4 * examined n)%nat /\ (4 * examined n < n + 4)%nat /\ (examined n <= n)%nat.
Proof.
  unfold examined.
  assert (0 <= (Z.of_nat n + 3) / 4) by (apply Z.div_pos; lia).
  assert (Z.of_nat (Z.to_nat ((Z.of_nat n + 3) / 4)) = (Z.of_nat n + 3) / 4) as Heq
    by (apply Z2Nat.id; lia).
  pose proof (Z.div_mod (Z.of_nat n + 3) 4 ltac:(lia)) as Hdiv.
  pose proof (Z.mod_pos_bound (Z.of_nat n + 3) 4 ltac:(lia)) as Hmod.
  lia.
Qed.

Lemma scan_entry cfgs k : forall p t fuel,
  (k < fuel)%nat -> (p + k = examined (length cfgs))%nat ->
  6 * Z.of_nat (length cfgs) <= UINT32_MAX - 24 ->
  scanStreamCfgs fuel (entry_of cfgs) (24 * Z.of_nat p) p t
  = ret (fold_left better (take k (drop p cfgs)) t).
Proof.
  pose proof (examined_bounds (length cfgs)) as (Hlow & Hhigh & Hle).
  induction k as [|k IH]; intros p t fuel Hfuel Hp Hmax;
    (destruct fuel as [|fuel]; [lia|]); cbn [scanStreamCfgs entry_of count].
  - rewrite (proj2 (Z.ltb_ge _ _)) by lia. done.
  - rewrite (proj2 (Z.ltb_lt _ _)) by lia.
    destruct (lookup_lt_is_Some_2 cfgs p ltac:(lia)) as [c Hc].
    change (entry_of cfgs) with {| data_i32 := encode cfgs;
                                   count := 6 * Z.of_nat (length cfgs) |} in IH.
    fold (entry_of cfgs). rewrite (examine_entry cfgs p c t Hc).
    replace (wrap_u32 (24 * Z.of_nat p + kStreamCfgSz)) with (24 * Z.of_nat (S p)).
    + rewrite (IH (S p)) by lia. by rewrite (drop_S _ _ _ Hc).
    + unfold wrap_u32, kStreamCfgSz, UINT32_MAX in *. rewrite Z.mod_small; lia.
Qed.

Lemma chooseStream_entry cfgs :
  6 * Z.of_nat (length cfgs) <= UINT32_MAX - 24 ->
  chooseStream (Some (entry_of cfgs)) = ret (largest (take (examined (length cfgs)) cfgs)).
Proof.
  intros Hmax. unfold chooseStream, largest.
  pose proof (scan_entry cfgs (examined (length cfgs)) 0 noTarget
                (S (Z.to_nat (count (entry_of cfgs))))) as Hscan.
  pose proof (examined_bounds (length cfgs)) as (_ & _ & Hle).
  change (24 * Z.of_nat 0) with 0 in Hscan. cbn [drop] in Hscan.
  rewrite Hscan; [done| |done|done].
  cbn [count entry_of]. lia.
Qed.

(** [setupEvs] looks at one stream configuration in four.  The metadata
    of the camera group holds [n] configurations, six [int32_t] values each,
    and [count] is the number of values.  The loop steps its counter by the
    size of a configuration in bytes and its pointer by one configuration,
    so it ends after the first [n/4] (rounded up) configurations: the stream
    it opens the camera with is the largest RGBA output stream among those,
    and when there is none among those it fails before it opens a camera,
    whatever the later configurations are. *)
Theorem setupEvs_examines_one_configuration_in_four E s desc cfgs :
  getCameraList_1_1 E = [desc] -> cameraId desc = evsGroupId E ->
  streamConfigurations desc = Some (entry_of cfgs) ->
  6 * Z.of_nat (length cfgs) <= UINT32_MAX - 24 ->
  chooseStream (Some (entry_of cfgs)) = ret (largest (take (examined (length cfgs)) cfgs)) /\
  match largest (take (examined (length cfgs)) cfgs) with
  | None => exists s', setupEvs E s = ret (false, s', [])
  | Some target =>
    exists ok s' evs,
      setupEvs E s = ret (ok, s', Evs_openCamera_1_1 (cameraId desc) target :: evs)
  end.
Proof.
  intros Hlist Hid Hcfgs Hmax.
  pose proof (chooseStream_entry cfgs Hmax) as Hchoose. split; [done|].
  unfold setupEvs. rewrite Hlist. cbn [fold_left].
  rewrite (bool_decide_eq_true_2 _ Hid), Hcfgs, Hchoose. cbn [andThen ret].
  destruct (largest _) as [target|]; [|by eexists].
  cbn [app]. destruct (openCamera_1_1 E (cameraId desc) target) as [cam|];
    [|by eexists _, _, _].
  destruct (fetchParams E cam (evsCameraIds E)) as [[] evs]; by eexists _, _, _.
Qed.

Lemma setupEvs_examines_one_configuration_in_four_witness :
  chooseStream (Some (entry_of four_streams))
  = ret (largest (take (examined (length four_streams)) four_streams)) /\
  match largest (take (examined (length four_streams)) four_streams) with
  | None => exists s', setupEvs (obliging_world [group0]) construct = ret (false, s', [])
  | Some target =>
    exists ok s' evs,
      setupEvs (obliging_world [group0]) construct
      = ret (ok, s', Evs_openCamera_1_1 (cameraId group0) target :: evs)
  end.
Proof.
  apply (setupEvs_examines_one_configuration_in_four
           (obliging_world [group0]) construct group0 four_streams);
    [reflexivity|reflexivity|reflexivity|vm_compute; discriminate].
Defined.

Lemma initialize_thread E s ok s1 evs :
  initialize E s = ret (ok, s1, evs) -> mProcessThread s1 = mProcessThread s.
Proof.
  unfold initialize, setupEvs.
  destruct (chooseStream _) as [[f|[target|]]|]; cbn [andThen ret]; try done.
  - destruct (openCamera_1_1 E _ target) as [cam|]; cbn [andThen ret negb].
    + destruct (fetchParams E cam (evsCameraIds E)) as [[] evs0]; cbn [andThen ret negb];
        [destruct (texture_initCheck E)|]; intros [= <- <- <-]; done.
    + intros [= <- <- <-]; done.
  - intros [= <- <- <-]; done.
Qed.

(** What a [startStream] that answers OK leaves behind. *)
Lemma startStream_OK E stream s s1 evs :
  startStream E stream s = ret (Sv.OK, s1, evs) ->
  mIsInitialized s1 = true /\ mStreamState s1 = RUNNING /\ mViews s1 <> [] /\
  is_Some (mStream s1) /\ is_Some (mCamera s1) /\ mProcessThread s1 = Starting.
Proof.
  unfold startStream.
  destruct (if mIsInitialized s then ret (true, s, []) else initialize E s)
    as [[f|[[initialized s0] evs0]]|] eqn:Hinit; cbn [andThen]; try done.
  destruct initialized; cbn [negb]; [|done].
  assert (Hready : mIsInitialized s0 = true).
  { destruct (mIsInitialized s) eqn:Hs; [by injection Hinit as <- _|].
    revert Hinit. unfold initialize.
    destruct (setupEvs E s) as [[f|[[ok s'] evs']]|]; cbn [andThen]; try done.
    destruct ok; cbn [negb]; [|done].
    destruct (texture_initCheck E); [|done]. by intros [= <- _]. }
  destruct (bool_decide (mStreamState s0 = STOPPED)); cbn [negb]; [|done].
  destruct (bool_decide (mViews s0 = [])) eqn:Hviews; [done|].
  apply bool_decide_eq_false in Hviews.
  destruct stream as [client|]; [|done].
  unfold startEvs. cbn [mCamera set_frames set_stream mProcessThread].
  destruct (mCamera s0) as [cam|] eqn:Hcam; cbn [andThen ret]; [|done].
  destruct (mProcessThread s0); try done.
  intros [= <- _]. cbn. rewrite Hcam. repeat split; by try eexists.
Qed.

Lemma startStream_joinable E stream s r s1 evs :
  mProcessThread s <> NoThread ->
  startStream E stream s = ret (r, s1, evs) ->
  r <> Sv.OK /\ mProcessThread s1 <> NoThread.
Proof.
  intros Hthread. unfold startStream.
  destruct (if mIsInitialized s then ret (true, s, []) else initialize E s)
    as [[f|[[initialized s0] evs0]]|] eqn:Hinit; cbn [andThen]; try done.
  assert (Hsame : mProcessThread s0 = mProcessThread s).
  { destruct (mIsInitialized s); [by injection Hinit as _ <- _|].
    by eapply initialize_thread. }
  rewrite <- Hsame in Hthread.
  destruct initialized; cbn [negb]; [|by intros [= <- <- _]].
  destruct (bool_decide (mStreamState s0 = STOPPED)); cbn [negb]; [|by intros [= <- <- _]].
  destruct (bool_decide (mViews s0 = [])); [by intros [= <- <- _]|].
  destruct stream as [client|]; [|by intros [= <- <- _]].
  unfold startEvs. cbn [mCamera set_frames set_stream mProcessThread].
  destruct (mCamera s0) as [cam|]; cbn [andThen ret]; [|done].
  by destruct (mProcessThread s0).
Qed.

Lemma step_joinable E o s r s1 evs :
  mProcessThread s <> NoThread ->
  step E o s = ret (r, s1, evs) ->
  mProcessThread s1 <> NoThread /\
  forall stream, o = StartStream stream -> r <> Some Sv.OK.
Proof.
  intros Hthread.
  destruct o as [stream| |views|config|buffers|started|]; cbn [step].
  - destruct (startStream E stream s) as [[f|[[r0 s0] evs0]]|] eqn:Hstart;
      cbn [andThen]; try done.
    intros [= <- <- _].
    destruct (startStream_joinable E stream s r0 s0 evs0 Hthread Hstart) as [Hr Hs].
    split; [done|]. intros _ _ [= ->]. done.
  - unfold stopStream. destruct (bool_decide _); [destruct (mCamera s)|];
      cbn [andThen ret fail]; try done; by intros [= <- <- _].
  - by intros [= <- <- _].
  - unfold set3dConfig. repeat destruct (_ || _); by intros [= <- <- _].
  - unfold deliverFrame_1_1. cbn [mProcessingEvsFrames set_frames].
    destruct (mProcessingEvsFrames s); [|destruct (negb _)]; by intros [= <- <- _].
  - unfold processFrames_start.
    destruct (mProcessThread s) eqn:Ht; try destruct started;
      intros [= <- <- _]; cbn; by rewrite ?Ht.
  - unfold processFrames_turn.
    destruct (mProcessThread s) eqn:Ht; cbn [andThen ret];
      try (intros [= <- <- _]; by rewrite ?Ht).
    + destruct (negb _); [destruct (mStream s)|];
        cbn [andThen ret fail]; try done; intros [= <- <- _]; cbn; by rewrite ?Ht.
    + destruct (mProcessingEvsFrames s);
        cbn [andThen ret fail]; intros [= <- <- _]; cbn; by rewrite ?Ht.
Qed.

Lemma run_joinable E ops : forall s,
  mProcessThread s <> NoThread ->
  forall i stream, ops !! i = Some (StartStream stream) ->
    (run E ops s).1 !! i <> Some (Some Sv.OK).
Proof.
  induction ops as [|o ops IH]; intros s Hthread i stream Hop; [done|].
  cbn [run].
  destruct (step E o s) as [[f|[[r s1] evs]]|] eqn:Hstep; try done.
  destruct (step_joinable E o s r s1 evs Hthread Hstep) as [Hthread' Hstart].
  specialize (IH s1 Hthread').
  destruct (run E ops s1) as [results final]. cbn [fst] in *.
  destruct i as [|i]; cbn in *.
  - injection Hop as ->. intros [= Hr]. by eapply Hstart.
  - by eapply IH.
Qed.

(** A session serves at most one stream.  Once [startStream] has answered
    OK, no later [startStream] on the session answers OK again, whatever the
    client, the camera and the thread of the session do in between: the
    thread object the first start made stays joinable, and the call either
    refuses or ends the process where it assigns the new thread. *)
Theorem startStream_succeeds_once E stream s s1 evs ops :
  startStream E stream s = ret (Sv.OK, s1, evs) ->
  forall i stream', ops !! i = Some (StartStream stream') ->
    (run E ops s1).1 !! i <> Some (Some Sv.OK).
Proof.
  intros Hstart. destruct (startStream_OK E stream s s1 evs Hstart) as (_ & _ & _ & _ & _ & Ht).
  apply run_joinable. by rewrite Ht.
Qed.

Lemma startStream_succeeds_once_witness :
  (run (obliging_world [group0])
       [StopStream; ProcessFrames_start true; ProcessFrames_turn; SetViews [1%nat];
        StartStream (Some 8%nat)]
       (set_stream (set_frames (set_stream ready_session STOPPED (Some 7%nat) NoThread) 0 false)
                   RUNNING (Some 7%nat) Starting)).1 !! 4%nat
  <> Some (Some Sv.OK).
Proof.
  apply (startStream_succeeds_once (obliging_world [group0]) (Some 7%nat) ready_session
           _ [Camera_startVideoStream; Vhal_startPropertiesUpdate;
              Stream_notify 7%nat Sv.STREAM_STARTED; Thread_processFrames]
           [StopStream; ProcessFrames_start true; ProcessFrames_turn; SetViews [1%nat];
            StartStream (Some 8%nat)] eq_refl 4%nat (Some 8%nat) eq_refl).
Defined.

(** To start a stream again on a session ends the process.  After a
    [startStream] that answered OK, let the client stop the stream and the
    thread of the session leave its loop: the session is STOPPED again and
    has dropped its client.  The next [startStream] with a client passes
    every check and then assigns a new thread to the thread object that is
    still joinable, which is [std::terminate]. *)
Theorem restarting_a_stopped_stream_terminates E stream s s1 evs client :
  startStream E stream s = ret (Sv.OK, s1, evs) ->
  exists s2,
    (run E [StopStream; ProcessFrames_start true; ProcessFrames_turn] s1).2 = ret s2 /\
    mStreamState s2 = STOPPED /\ mStream s2 = None /\
    startStream E (Some client) s2 = fail Terminated.
Proof.
  intros Hstart.
  destruct (startStream_OK E stream s s1 evs Hstart)
    as (Hready & Hstate & Hviews & [st Hst] & [cam Hcam] & Ht).
  destruct s1 as [initialized state views stream1 sequenceId processing config desc
                  camera size thread].
  cbn in Hready, Hstate, Hviews, Hst, Hcam, Ht. subst.
  eexists. split; [reflexivity|]. cbn.
  split; [done|]. split; [done|].
  unfold startStream. cbn.
  rewrite (bool_decide_eq_true_2 (STOPPED = STOPPED)) by done.
  rewrite (bool_decide_eq_false_2 (views = [])) by done. done.
Qed.

Lemma restarting_a_stopped_stream_terminates_witness :
  exists s2,
    (run (obliging_world [group0]) [StopStream; ProcessFrames_start true; ProcessFrames_turn]
         (set_stream (set_frames (set_stream ready_session STOPPED (Some 7%nat) NoThread) 0 false)
                     RUNNING (Some 7%nat) Starting)).2 = ret s2 /\
    mStreamState s2 = STOPPED /\ mStream s2 = None /\
    startStream (obliging_world [group0]) (Some 8%nat) s2 = fail Terminated.
Proof.
  apply (restarting_a_stopped_stream_terminates (obliging_world [group0]) (Some 7%nat)
           ready_session _
           [Camera_startVideoStream; Vhal_startPropertiesUpdate;
            Stream_notify 7%nat Sv.STREAM_STARTED; Thread_processFrames] 8%nat eq_refl).
Defined.

End SessionFacts.
